(** * Dealroom scraper: the extraction engine

    A shallow embedding of [src/parser/dealroom_extractor.py]
    ([CompanyRecord] and [DealroomExtractor]) and the properties its
    specification states about it.

    Conventions of the embedding.
    - A Python [str] is a [string]; [str.lower] and [str.strip] act on the
      ASCII range, other characters are left as they are.
    - A value that flows through the record (what [json.loads] returns, or
      [None]) is a [value].  JSON numbers are the integers; numbers written
      with a fraction or an exponent (Python floats) are outside the model.
    - A Python [dict] is an association list in insertion order, read with
      [dict_get] (the first binding of a key; [json.loads] never builds two).
    - A method that mutates [record] takes the record and returns the new one;
      a method that can raise returns a [result].
    - The libraries the extractor calls ([BeautifulSoup], [json.loads], the
      built-in [repr]) are the fields of the class [Library]; the page is
      what the parser makes of it, a [Soup].

    The methods are embedded twice: with the record passed from pass to pass
    (the sections [Extractor]), which the properties are stated on, and with
    the containers of the record as objects of a store ([Store]), which
    shows that an invocation neither reads nor changes what another one
    left. *)

From Stdlib Require Import String Ascii List ZArith Bool Lia DecimalString.
Import ListNotations.

Local Open Scope string_scope.
Local Open Scope list_scope.

(** ** Python strings *)

Module PyStr.

Definition is_upper (c : ascii) : bool :=
  let n := N_of_ascii c in (65 <=? n)%N && (n <=? 90)%N.

Definition lower_char (c : ascii) : ascii :=
  if is_upper c then ascii_of_N (N_of_ascii c + 32) else c.

(** [s.lower()] *)
Fixpoint lower (s : string) : string :=
  match s with
  | EmptyString => EmptyString
  | String c rest => String (lower_char c) (lower rest)
  end.

(** [needle in text] *)
Fixpoint contains (needle text : string) : bool :=
  String.prefix needle text ||
  match text with
  | EmptyString => false
  | String _ rest => contains needle rest
  end.

(** [s.startswith(p)] *)
Definition startswith (s p : string) : bool := String.prefix p s.

(** The characters [str.strip] and [\S] treat as white space (ASCII). *)
Definition is_space (c : ascii) : bool :=
  let n := N_of_ascii c in
  ((9 <=? n)%N && (n <=? 13)%N) || ((28 <=? n)%N && (n <=? 32)%N).

Fixpoint lstrip (s : string) : string :=
  match s with
  | EmptyString => EmptyString
  | String c rest => if is_space c then lstrip rest else s
  end.

Fixpoint rstrip (s : string) : string :=
  match s with
  | EmptyString => EmptyString
  | String c rest =>
      match rstrip rest with
      | EmptyString => if is_space c then EmptyString else String c EmptyString
      | kept => String c kept
      end
  end.

(** [s.strip()] *)
Definition strip (s : string) : string := rstrip (lstrip s).

(** The maximal runs of non-space characters of [s], in order
    ([re.findall(r"\S+", s)]); [cur] is the run being read, reversed. *)
Fixpoint words_from (cur : list ascii) (s : string) : list string :=
  let flush :=
    match cur with
    | [] => []
    | _ => [string_of_list_ascii (rev cur)]
    end in
  match s with
  | EmptyString => flush
  | String c rest =>
      if is_space c then flush ++ words_from [] rest
      else words_from (c :: cur) rest
  end.

Definition words (s : string) : list string := words_from [] s.

(** [str(n)] for an [int] *)
Definition of_Z (n : Z) : string := NilZero.string_of_int (Z.to_int n).

(** [sorted(set(l))] for a list of strings: insertion into a strictly
    increasing list. *)
Fixpoint insert_sorted (s : string) (l : list string) : list string :=
  match l with
  | [] => [s]
  | x :: rest =>
      match String.compare s x with
      | Lt => s :: l
      | Eq => l
      | Gt => x :: insert_sorted s rest
      end
  end.

Definition sorted_set (l : list string) : list string :=
  fold_right insert_sorted [] l.

End PyStr.

(** ** Python values *)

#[warnings="-register-all"]
Inductive value : Type :=
| VNone
| VBool (b : bool)
| VInt (n : Z)
| VStr (s : string)
| VList (items : list value)
| VDict (items : list (string * value)).

Definition dict := list (string * value).

(** [bool(v)] *)
Definition truthy (v : value) : bool :=
  match v with
  | VNone => false
  | VBool b => b
  | VInt n => negb (n =? 0)%Z
  | VStr s => negb (s =? EmptyString)
  | VList l => match l with [] => false | _ => true end
  | VDict d => match d with [] => false | _ => true end
  end.

(** [a or b] *)
Definition py_or (a b : value) : value := if truthy a then a else b.

(** [key in d] and [d.get(key)] *)
Fixpoint dict_lookup {A} (key : string) (d : list (string * A)) : option A :=
  match d with
  | [] => None
  | (k, v) :: rest => if k =? key then Some v else dict_lookup key rest
  end.

Definition dict_contains {A} (key : string) (d : list (string * A)) : bool :=
  match dict_lookup key d with Some _ => true | None => false end.

Definition dict_get (key : string) (d : dict) : value :=
  match dict_lookup key d with Some v => v | None => VNone end.

(** [d.setdefault(key, v)]: a binding is added at the end only when [key]
    has none. *)
Definition dict_setdefault {A} (key : string) (v : A) (d : list (string * A))
  : list (string * A) :=
  if dict_contains key d then d else d ++ [(key, v)].

(** [Optional[str]] attributes as values *)
Definition of_opt (o : option string) : value :=
  match o with Some s => VStr s | None => VNone end.

(** ** Exceptions *)

Inductive exn : Type :=
| JSONDecodeError
| RecursionError
| TypeError
| AttributeError.

Inductive result (A : Type) : Type :=
| Return (a : A)
| Raise (e : exn).

Arguments Return {A} a.
Arguments Raise {A} e.

Definition bind {A B} (m : result A) (k : A -> result B) : result B :=
  match m with
  | Return a => k a
  | Raise e => Raise e
  end.

Notation "x <- m ;; k" := (bind m (fun x => k))
  (at level 61, m at next level, right associativity).

(** A [for] loop whose body may raise: the state is threaded through the
    items in order and the first exception ends the loop. *)
Fixpoint for_each {A S} (items : list A) (body : A -> S -> result S) (s : S)
  : result S :=
  match items with
  | [] => Return s
  | x :: rest => s' <- body x s ;; for_each rest body s'
  end.

(** ** Hashing, for the [set]s of seen keys

    Lists and dicts are unhashable.  [True == 1] and [False == 0] and their
    hashes agree, so a bool and the integer it equals are one key. *)

Inductive hkey : Type :=
| HNone
| HInt (n : Z)
| HStr (s : string).

Definition py_hash (v : value) : result hkey :=
  match v with
  | VNone => Return HNone
  | VBool b => Return (HInt (Z.b2z b))
  | VInt n => Return (HInt n)
  | VStr s => Return (HStr s)
  | VList _ | VDict _ => Raise TypeError
  end.

Definition hkey_eqb (a b : hkey) : bool :=
  match a, b with
  | HNone, HNone => true
  | HInt n, HInt m => (n =? m)%Z
  | HStr s, HStr t => (s =? t)
  | _, _ => false
  end.

(** The hash of a tuple hashes its components from left to right. *)
Fixpoint hash_tuple (vs : list value) : result (list hkey) :=
  match vs with
  | [] => Return []
  | v :: rest =>
      h <- py_hash v ;;
      hs <- hash_tuple rest ;;
      Return (h :: hs)
  end.

Fixpoint tuple_eqb (a b : list hkey) : bool :=
  match a, b with
  | [], [] => true
  | x :: a', y :: b' => hkey_eqb x y && tuple_eqb a' b'
  | _, _ => false
  end.

(** [key in seen] *)
Definition seen_mem (key : list hkey) (seen : list (list hkey)) : bool :=
  existsb (tuple_eqb key) seen.

(** ** The record model: [CompanyRecord]

    [about] holds whatever truthy value the structured metadata gives for
    [description], so it is a [value]; the other scalar attributes only ever
    receive strings, and the sequences hold dicts, as annotated.  The type
    is parametric in how the container attributes are held: in place, or as
    references into a store of objects. *)

Record CompanyRecordOf (Dicts Links Strs Map : Type) : Type :=
  mkCompanyRecord {
  about : value;
  company_status : option string;
  funding_rounds : Dicts;
  growth_stage : option string;
  employees : option string;
  similarweb_traffic : option string;
  social_links : Links;
  investors : Dicts;
  industries : Strs;
  team : Dicts;
  hq_locations : Dicts;
  kpi_summary : Map;
  nearby_companies : Dicts;
  related_companies : Dicts;
  news : Dicts;
  website_url : option string;
  linkedin_url : option string;
  twitter_url : option string;
  instagram_url : option string;
  raw_source_url : option string
}.

Arguments mkCompanyRecord {Dicts Links Strs Map}.
Arguments about {Dicts Links Strs Map} _.
Arguments company_status {Dicts Links Strs Map} _.
Arguments funding_rounds {Dicts Links Strs Map} _.
Arguments growth_stage {Dicts Links Strs Map} _.
Arguments employees {Dicts Links Strs Map} _.
Arguments similarweb_traffic {Dicts Links Strs Map} _.
Arguments social_links {Dicts Links Strs Map} _.
Arguments investors {Dicts Links Strs Map} _.
Arguments industries {Dicts Links Strs Map} _.
Arguments team {Dicts Links Strs Map} _.
Arguments hq_locations {Dicts Links Strs Map} _.
Arguments kpi_summary {Dicts Links Strs Map} _.
Arguments nearby_companies {Dicts Links Strs Map} _.
Arguments related_companies {Dicts Links Strs Map} _.
Arguments news {Dicts Links Strs Map} _.
Arguments website_url {Dicts Links Strs Map} _.
Arguments linkedin_url {Dicts Links Strs Map} _.
Arguments twitter_url {Dicts Links Strs Map} _.
Arguments instagram_url {Dicts Links Strs Map} _.
Arguments raw_source_url {Dicts Links Strs Map} _.

(** The record with its containers in place. *)
Abbreviation CompanyRecord :=
  (CompanyRecordOf (list dict) (list (string * string)) (list string) dict).

(** Attribute assignment, [record.f = v]. *)

Definition set_about {D L S M : Type} (v : value)
  (r : CompanyRecordOf D L S M) : CompanyRecordOf D L S M :=
  {| about := v; company_status := company_status r;
     funding_rounds := funding_rounds r; growth_stage := growth_stage r;
     employees := employees r; similarweb_traffic := similarweb_traffic r;
     social_links := social_links r; investors := investors r;
     industries := industries r; team := team r;
     hq_locations := hq_locations r; kpi_summary := kpi_summary r;
     nearby_companies := nearby_companies r;
     related_companies := related_companies r; news := news r;
     website_url := website_url r; linkedin_url := linkedin_url r;
     twitter_url := twitter_url r; instagram_url := instagram_url r;
     raw_source_url := raw_source_url r |}.

Definition set_company_status {D L S M : Type} (v : option string)
  (r : CompanyRecordOf D L S M) : CompanyRecordOf D L S M :=
  {| about := about r; company_status := v;
     funding_rounds := funding_rounds r; growth_stage := growth_stage r;
     employees := employees r; similarweb_traffic := similarweb_traffic r;
     social_links := social_links r; investors := investors r;
     industries := industries r; team := team r;
     hq_locations := hq_locations r; kpi_summary := kpi_summary r;
     nearby_companies := nearby_companies r;
     related_companies := related_companies r; news := news r;
     website_url := website_url r; linkedin_url := linkedin_url r;
     twitter_url := twitter_url r; instagram_url := instagram_url r;
     raw_source_url := raw_source_url r |}.

Definition set_funding_rounds {D L S M : Type} (v : D)
  (r : CompanyRecordOf D L S M) : CompanyRecordOf D L S M :=
  {| about := about r; company_status := company_status r;
     funding_rounds := v; growth_stage := growth_stage r;
     employees := employees r; similarweb_traffic := similarweb_traffic r;
     social_links := social_links r; investors := investors r;
     industries := industries r; team := team r;
     hq_locations := hq_locations r; kpi_summary := kpi_summary r;
     nearby_companies := nearby_companies r;
     related_companies := related_companies r; news := news r;
     website_url := website_url r; linkedin_url := linkedin_url r;
     twitter_url := twitter_url r; instagram_url := instagram_url r;
     raw_source_url := raw_source_url r |}.

Definition set_growth_stage {D L S M : Type} (v : option string)
  (r : CompanyRecordOf D L S M) : CompanyRecordOf D L S M :=
  {| about := about r; company_status := company_status r;
     funding_rounds := funding_rounds r; growth_stage := v;
     employees := employees r; similarweb_traffic := similarweb_traffic r;
     social_links := social_links r; investors := investors r;
     industries := industries r; team := team r;
     hq_locations := hq_locations r; kpi_summary := kpi_summary r;
     nearby_companies := nearby_companies r;
     related_companies := related_companies r; news := news r;
     website_url := website_url r; linkedin_url := linkedin_url r;
     twitter_url := twitter_url r; instagram_url := instagram_url r;
     raw_source_url := raw_source_url r |}.

Definition set_employees {D L S M : Type} (v : option string)
  (r : CompanyRecordOf D L S M) : CompanyRecordOf D L S M :=
  {| about := about r; company_status := company_status r;
     funding_rounds := funding_rounds r; growth_stage := growth_stage r;
     employees := v; similarweb_traffic := similarweb_traffic r;
     social_links := social_links r; investors := investors r;
     industries := industries r; team := team r;
     hq_locations := hq_locations r; kpi_summary := kpi_summary r;
     nearby_companies := nearby_companies r;
     related_companies := related_companies r; news := news r;
     website_url := website_url r; linkedin_url := linkedin_url r;
     twitter_url := twitter_url r; instagram_url := instagram_url r;
     raw_source_url := raw_source_url r |}.

Definition set_social_links {D L S M : Type} (v : L)
  (r : CompanyRecordOf D L S M) : CompanyRecordOf D L S M :=
  {| about := about r; company_status := company_status r;
     funding_rounds := funding_rounds r; growth_stage := growth_stage r;
     employees := employees r; similarweb_traffic := similarweb_traffic r;
     social_links := v; investors := investors r;
     industries := industries r; team := team r;
     hq_locations := hq_locations r; kpi_summary := kpi_summary r;
     nearby_companies := nearby_companies r;
     related_companies := related_companies r; news := news r;
     website_url := website_url r; linkedin_url := linkedin_url r;
     twitter_url := twitter_url r; instagram_url := instagram_url r;
     raw_source_url := raw_source_url r |}.

Definition set_investors {D L S M : Type} (v : D)
  (r : CompanyRecordOf D L S M) : CompanyRecordOf D L S M :=
  {| about := about r; company_status := company_status r;
     funding_rounds := funding_rounds r; growth_stage := growth_stage r;
     employees := employees r; similarweb_traffic := similarweb_traffic r;
     social_links := social_links r; investors := v;
     industries := industries r; team := team r;
     hq_locations := hq_locations r; kpi_summary := kpi_summary r;
     nearby_companies := nearby_companies r;
     related_companies := related_companies r; news := news r;
     website_url := website_url r; linkedin_url := linkedin_url r;
     twitter_url := twitter_url r; instagram_url := instagram_url r;
     raw_source_url := raw_source_url r |}.

Definition set_industries {D L S M : Type} (v : S)
  (r : CompanyRecordOf D L S M) : CompanyRecordOf D L S M :=
  {| about := about r; company_status := company_status r;
     funding_rounds := funding_rounds r; growth_stage := growth_stage r;
     employees := employees r; similarweb_traffic := similarweb_traffic r;
     social_links := social_links r; investors := investors r;
     industries := v; team := team r; hq_locations := hq_locations r;
     kpi_summary := kpi_summary r; nearby_companies := nearby_companies r;
     related_companies := related_companies r; news := news r;
     website_url := website_url r; linkedin_url := linkedin_url r;
     twitter_url := twitter_url r; instagram_url := instagram_url r;
     raw_source_url := raw_source_url r |}.

Definition set_hq_locations {D L S M : Type} (v : D)
  (r : CompanyRecordOf D L S M) : CompanyRecordOf D L S M :=
  {| about := about r; company_status := company_status r;
     funding_rounds := funding_rounds r; growth_stage := growth_stage r;
     employees := employees r; similarweb_traffic := similarweb_traffic r;
     social_links := social_links r; investors := investors r;
     industries := industries r; team := team r; hq_locations := v;
     kpi_summary := kpi_summary r; nearby_companies := nearby_companies r;
     related_companies := related_companies r; news := news r;
     website_url := website_url r; linkedin_url := linkedin_url r;
     twitter_url := twitter_url r; instagram_url := instagram_url r;
     raw_source_url := raw_source_url r |}.

Definition set_website_url {D L S M : Type} (v : option string)
  (r : CompanyRecordOf D L S M) : CompanyRecordOf D L S M :=
  {| about := about r; company_status := company_status r;
     funding_rounds := funding_rounds r; growth_stage := growth_stage r;
     employees := employees r; similarweb_traffic := similarweb_traffic r;
     social_links := social_links r; investors := investors r;
     industries := industries r; team := team r;
     hq_locations := hq_locations r; kpi_summary := kpi_summary r;
     nearby_companies := nearby_companies r;
     related_companies := related_companies r; news := news r;
     website_url := v; linkedin_url := linkedin_url r;
     twitter_url := twitter_url r; instagram_url := instagram_url r;
     raw_source_url := raw_source_url r |}.

Definition set_linkedin_url {D L S M : Type} (v : option string)
  (r : CompanyRecordOf D L S M) : CompanyRecordOf D L S M :=
  {| about := about r; company_status := company_status r;
     funding_rounds := funding_rounds r; growth_stage := growth_stage r;
     employees := employees r; similarweb_traffic := similarweb_traffic r;
     social_links := social_links r; investors := investors r;
     industries := industries r; team := team r;
     hq_locations := hq_locations r; kpi_summary := kpi_summary r;
     nearby_companies := nearby_companies r;
     related_companies := related_companies r; news := news r;
     website_url := website_url r; linkedin_url := v;
     twitter_url := twitter_url r; instagram_url := instagram_url r;
     raw_source_url := raw_source_url r |}.

Definition set_twitter_url {D L S M : Type} (v : option string)
  (r : CompanyRecordOf D L S M) : CompanyRecordOf D L S M :=
  {| about := about r; company_status := company_status r;
     funding_rounds := funding_rounds r; growth_stage := growth_stage r;
     employees := employees r; similarweb_traffic := similarweb_traffic r;
     social_links := social_links r; investors := investors r;
     industries := industries r; team := team r;
     hq_locations := hq_locations r; kpi_summary := kpi_summary r;
     nearby_companies := nearby_companies r;
     related_companies := related_companies r; news := news r;
     website_url := website_url r; linkedin_url := linkedin_url r;
     twitter_url := v; instagram_url := instagram_url r;
     raw_source_url := raw_source_url r |}.

Definition set_instagram_url {D L S M : Type} (v : option string)
  (r : CompanyRecordOf D L S M) : CompanyRecordOf D L S M :=
  {| about := about r; company_status := company_status r;
     funding_rounds := funding_rounds r; growth_stage := growth_stage r;
     employees := employees r; similarweb_traffic := similarweb_traffic r;
     social_links := social_links r; investors := investors r;
     industries := industries r; team := team r;
     hq_locations := hq_locations r; kpi_summary := kpi_summary r;
     nearby_companies := nearby_companies r;
     related_companies := related_companies r; news := news r;
     website_url := website_url r; linkedin_url := linkedin_url r;
     twitter_url := twitter_url r; instagram_url := v;
     raw_source_url := raw_source_url r |}.

(** [CompanyRecord(raw_source_url=source_url)]: every other attribute takes
    its default, [None] or a new empty container. *)
Definition CompanyRecord_init (source_url : option string) : CompanyRecord :=
  {| about := VNone; company_status := None; funding_rounds := [];
     growth_stage := None; employees := None; similarweb_traffic := None;
     social_links := []; investors := []; industries := []; team := [];
     hq_locations := []; kpi_summary := []; nearby_companies := [];
     related_companies := []; news := []; website_url := None;
     linkedin_url := None; twitter_url := None; instagram_url := None;
     raw_source_url := source_url |}.

(** [CompanyRecord.to_dict] *)
Definition to_dict_data (self : CompanyRecord) : dict :=
  [ ("about", about self);
    ("company_status", of_opt (company_status self));
    ("funding_rounds", VList (map VDict (funding_rounds self)));
    ("growth_stage", of_opt (growth_stage self));
    ("employees", of_opt (employees self));
    ("similarweb_traffic", of_opt (similarweb_traffic self));
    ("social_links",
       VDict (map (fun kv => (fst kv, VStr (snd kv))) (social_links self)));
    ("investors", VList (map VDict (investors self)));
    ("industries", VList (map VStr (industries self)));
    ("team", VList (map VDict (team self)));
    ("hq_locations", VList (map VDict (hq_locations self)));
    ("kpi_summary", VDict (kpi_summary self));
    ("nearby_companies", VList (map VDict (nearby_companies self)));
    ("related_companies", VList (map VDict (related_companies self)));
    ("news", VList (map VDict (news self)));
    ("website_url", of_opt (website_url self));
    ("linkedin_url", of_opt (linkedin_url self));
    ("twitter_url", of_opt (twitter_url self));
    ("instagram_url", of_opt (instagram_url self));
    ("raw_source_url", of_opt (raw_source_url self)) ].

(** The test of the cleaning loop: [value is None], or a list or dict of
    length 0. *)
Definition is_none_or_empty (v : value) : bool :=
  match v with
  | VNone => true
  | VList [] => true
  | VDict [] => true
  | _ => false
  end.

Definition to_dict (self : CompanyRecord) : dict :=
  filter (fun kv => negb (is_none_or_empty (snd kv))) (to_dict_data self).

(** ** The parsed page and the libraries

    [BeautifulSoup(html, "lxml")] gives a tree; the extractor only searches
    it for elements by name and attribute, in document order, and reads the
    text of the whole document. *)

Record Tag : Type := mkTag {
  tag_name : string;                      (* lower-cased by the parser *)
  tag_attrs : list (string * string);     (* attributes as written *)
  tag_text : string                       (* [tag.string or tag.get_text()] *)
}.

Record Soup : Type := mkSoup {
  soup_tags : list Tag;   (* every element, document order *)
  soup_text : string      (* [soup.get_text(separator=" ", strip=True)] *)
}.

Class Library : Type := {
  BeautifulSoup : string -> Soup;
  json_loads : string -> result value;
  repr : value -> string
}.

(** [tag.get(attr)] *)
Definition tag_get (attr : string) (tag : Tag) : option string :=
  dict_lookup attr (tag_attrs tag).

(** [tag.get(attr)] is truthy: the attribute is there and is not empty. *)
Definition tag_get_truthy (attr : string) (tag : Tag) : option string :=
  match tag_get attr tag with
  | Some s => if s =? EmptyString then None else Some s
  | None => None
  end.

(** An attribute filter [attr=v] of [find] and [find_all]. *)
Definition attr_is (attr v : string) (tag : Tag) : bool :=
  match tag_get attr tag with
  | Some s => s =? v
  | None => false
  end.

(** The same filter on [rel], which the parser keeps as the list of its
    words: one word is [v], or the words joined by a space are. *)
Definition rel_is (v : string) (tag : Tag) : bool :=
  match tag_get "rel" tag with
  | Some s =>
      let ws := PyStr.words s in
      existsb (String.eqb v) ws || (String.concat " " ws =? v)
  | None => false
  end.

(** [attr=True] *)
Definition has_attr (attr : string) (tag : Tag) : bool :=
  match tag_get attr tag with Some _ => true | None => false end.

Definition find_all (soup : Soup) (name : string) (keep : Tag -> bool)
  : list Tag :=
  filter (fun tag => (tag_name tag =? name) && keep tag) (soup_tags soup).

Definition find (soup : Soup) (name : string) (keep : Tag -> bool)
  : option Tag :=
  hd_error (find_all soup name keep).

(** [x in names] for a tuple of strings *)
Definition str_in (x : string) (names : list string) : bool :=
  existsb (String.eqb x) names.

(** ** The extractor: [DealroomExtractor] *)

Section Extractor.

Context {lib : Library}.

(** [str(v)] *)
Definition py_str (v : value) : string :=
  match v with
  | VStr s => s
  | _ => repr v
  end.

(** *** JSON-LD helpers *)

(** [any(t.lower() in ("organization", "corp", "corporation") for t in
    obj_type)]: the entries are tried in order up to the first match, and
    an entry that is not a string has no [lower]. *)
Fixpoint any_type_matches (obj_type : list value) : result bool :=
  match obj_type with
  | [] => Return false
  | VStr t :: rest =>
      if str_in (PyStr.lower t) ["organization"; "corp"; "corporation"]
      then Return true
      else any_type_matches rest
  | _ :: _ => Raise AttributeError
  end.

Definition is_org (obj : dict) : result bool :=
  match dict_get "@type" obj with
  | VList obj_type => any_type_matches obj_type
  | VStr obj_type =>
      Return (str_in (PyStr.lower obj_type)
                ["organization"; "corp"; "corporation"; "company"])
  | _ => Return false
  end.

(** [for obj in candidates: ... if is_org: return obj] *)
Fixpoint first_org (candidates : list dict) : result (option dict) :=
  match candidates with
  | [] => Return None
  | obj :: rest =>
      b <- is_org obj ;;
      if b then Return (Some obj) else first_org rest
  end.

(** The dicts of a parsed payload: itself, or the dicts of a list. *)
Definition candidates_of (data : value) : list dict :=
  match data with
  | VDict d => [d]
  | VList l =>
      flat_map (fun x => match x with VDict d => [d] | _ => [] end) l
  | _ => []
  end.

Fixpoint ld_scan (scripts : list Tag) : result (option dict) :=
  match scripts with
  | [] => Return None
  | script :: rest =>
      let payload_text := tag_text script in
      if payload_text =? EmptyString then ld_scan rest
      else
        match json_loads payload_text with
        | Raise JSONDecodeError | Raise TypeError => ld_scan rest
        | Raise e => Raise e
        | Return data =>
            found <- first_org (candidates_of data) ;;
            match found with
            | Some obj => Return (Some obj)
            | None => ld_scan rest
            end
        end
  end.

Definition _extract_ld_organization (soup : Soup) : result (option dict) :=
  ld_scan (find_all soup "script" (attr_is "type" "application/ld+json")).

(** *** Social links *)

Definition _assign_social_link (href : string) (record : CompanyRecord)
  : CompanyRecord :=
  let href_lower := PyStr.lower href in
  if PyStr.contains "linkedin.com" href_lower then
    let record := set_linkedin_url (Some href) record in
    set_social_links
      (dict_setdefault "linkedin" href (social_links record)) record
  else if PyStr.contains "twitter.com" href_lower
          || PyStr.contains "x.com" href_lower then
    let record := set_twitter_url (Some href) record in
    set_social_links
      (dict_setdefault "twitter" href (social_links record)) record
  else if PyStr.contains "instagram.com" href_lower then
    let record := set_instagram_url (Some href) record in
    set_social_links
      (dict_setdefault "instagram" href (social_links record)) record
  else if PyStr.contains "facebook.com" href_lower then
    set_social_links
      (dict_setdefault "facebook" href (social_links record)) record
  else if PyStr.contains "youtube.com" href_lower
          || PyStr.contains "youtu.be" href_lower then
    set_social_links
      (dict_setdefault "youtube" href (social_links record)) record
  else record.

(** [for link in links: self._assign_social_link(link, record)] *)
Definition assign_all (hrefs : list string) (record : CompanyRecord)
  : CompanyRecord :=
  fold_left (fun record href => _assign_social_link href record)
    hrefs record.

(** The [href] of every [a] element that has one, in document order. *)
Definition anchor_hrefs (soup : Soup) : list string :=
  flat_map (fun a => match tag_get "href" a with
                     | Some href => [href]
                     | None => []
                     end)
    (find_all soup "a" (has_attr "href")).

Definition _populate_social_links (soup : Soup) (record : CompanyRecord)
  : CompanyRecord :=
  assign_all (anchor_hrefs soup) record.

(** *** Structured metadata into the record *)

(** The first entry of a list that is a string starting with [http]. *)
Fixpoint first_http (candidates : list value) : option string :=
  match candidates with
  | [] => None
  | VStr candidate :: rest =>
      if PyStr.startswith candidate "http" then Some candidate
      else first_http rest
  | _ :: rest => first_http rest
  end.

(** [ld.get("numberOfEmployees") or ld.get("employee", {}).get("count")]:
    the right operand is only evaluated when the left one is falsy, and
    then [employee], when present, must be a dict to have a [get]. *)
Definition ld_employees (ld : dict) : result value :=
  let n := dict_get "numberOfEmployees" ld in
  if truthy n then Return n
  else
    match dict_lookup "employee" ld with
    | None => Return VNone
    | Some (VDict employee) => Return (dict_get "count" employee)
    | Some _ => Raise AttributeError
    end.

Definition _populate_from_ld_json (ld : dict) (record : CompanyRecord)
  : result CompanyRecord :=
  let record :=
    set_about (py_or (dict_get "description" ld) (about record)) record in
  (* Website *)
  let url := py_or (py_or (dict_get "url" ld) (dict_get "sameAs" ld)) VNone in
  let url :=
    match url with
    | VList candidates =>
        match first_http candidates with
        | Some candidate => VStr candidate
        | None => url
        end
    | _ => url
    end in
  let record :=
    match url with
    | VStr s => set_website_url (Some s) record
    | _ => record
    end in
  (* Industry / industries *)
  let found :=
    match dict_get "industry" ld with
    | VList xs => map py_str xs
    | VStr s => [s]
    | _ => []
    end in
  let record :=
    match found with
    | [] => record
    | _ => set_industries (PyStr.sorted_set (industries record ++ found))
             record
    end in
  (* Employees *)
  employees <- ld_employees ld ;;
  let record :=
    match employees with
    | VInt n => set_employees (Some (PyStr.of_Z n)) record
    | VBool b => set_employees (Some (PyStr.of_Z (Z.b2z b))) record
    | VStr s => set_employees (Some s) record
    | _ => record
    end in
  (* Social links in JSON-LD *)
  let links :=
    match dict_get "sameAs" ld with
    | VList l => l
    | VStr s => [VStr s]
    | _ => []
    end in
  Return (assign_all (map py_str links) record).

(** *** Meta-tag fallbacks *)

Definition _populate_meta_fallbacks {D L S M : Type} (soup : Soup)
  (record : CompanyRecordOf D L S M) : CompanyRecordOf D L S M :=
  (* Description fallback from meta *)
  let record :=
    if truthy (about record) then record
    else
      let meta_desc :=
        match find soup "meta" (attr_is "name" "description") with
        | Some tag => Some tag
        | None => find soup "meta" (attr_is "property" "og:description")
        end in
      match meta_desc with
      | Some tag =>
          match tag_get_truthy "content" tag with
          | Some content => set_about (VStr (PyStr.strip content)) record
          | None => record
          end
      | None => record
      end in
  (* Website URL fallback from canonical or og:url *)
  if truthy (of_opt (website_url record)) then record
  else
    let canonical_href :=
      match find soup "link" (rel_is "canonical") with
      | Some canonical => tag_get_truthy "href" canonical
      | None => None
      end in
    match canonical_href with
    | Some href => set_website_url (Some href) record
    | None =>
        match find soup "meta" (attr_is "property" "og:url") with
        | Some og_url =>
            match tag_get_truthy "content" og_url with
            | Some content => set_website_url (Some content) record
            | None => record
            end
        | None => record
        end
    end.

(** *** Status and stage *)

Definition stage_keywords : list (string * string) :=
  [ ("seed", "seed");
    ("series a", "early growth");
    ("series b", "growth");
    ("series c", "late growth");
    ("series d", "late growth");
    ("pre-seed", "pre-seed");
    ("early stage", "early growth");
    ("late stage", "late growth");
    ("scaleup", "scaleup") ].

(** [for key, stage in stage_keywords: if key in text: ...; break] *)
Fixpoint first_stage (text : string) (pairs : list (string * string))
  : option string :=
  match pairs with
  | [] => None
  | (key, stage) :: rest =>
      if PyStr.contains key text then Some stage else first_stage text rest
  end.

Definition _populate_status_and_stage {D L S M : Type} (soup : Soup)
  (record : CompanyRecordOf D L S M) : CompanyRecordOf D L S M :=
  let text := PyStr.lower (soup_text soup) in
  let record :=
    match company_status record with
    | None =>
        if PyStr.contains "closed" text || PyStr.contains "defunct" text
        then set_company_status (Some "closed") record
        else if PyStr.contains "acquired" text
        then set_company_status (Some "acquired") record
        else if PyStr.contains "ipo" text
        then set_company_status (Some "public") record
        else set_company_status (Some "operational") record
    | Some _ => record
    end in
  (* Stage: look for common stage keywords *)
  match growth_stage record with
  | None =>
      match first_stage text stage_keywords with
      | Some stage => set_growth_stage (Some stage) record
      | None => record
      end
  | Some _ => record
  end.

(** *** Funding rounds and investors *)

Definition clean_round (fr : dict) : dict :=
  [ ("year", py_or (py_or (dict_get "year" fr) (dict_get "date" fr))
               (dict_get "round_year" fr));
    ("round", py_or (dict_get "round" fr) (dict_get "type" fr));
    ("amount", py_or (dict_get "amount" fr) (dict_get "raised" fr));
    ("currency", py_or (dict_get "currency" fr)
                   (dict_get "currency_code" fr));
    ("investors", py_or (dict_get "investors" fr) (VList [])) ].

Definition clean_investor (inv : dict) : dict :=
  [ ("name", dict_get "name" inv);
    ("type", dict_get "type" inv);
    ("path", py_or (dict_get "path" inv) (dict_get "slug" inv)) ].

(** [record.funding_rounds.append(clean)] for every dict of the list *)
Definition append_rounds (frs : list value) (record : CompanyRecord)
  : CompanyRecord :=
  fold_left
    (fun record fr =>
       match fr with
       | VDict fr =>
           set_funding_rounds (funding_rounds record ++ [clean_round fr])
             record
       | _ => record
       end)
    frs record.

(** [record.investors.append(clean)] for every dict of the list *)
Definition append_investors (invs : list value) (record : CompanyRecord)
  : CompanyRecord :=
  fold_left
    (fun record inv =>
       match inv with
       | VDict inv =>
           set_investors (investors record ++ [clean_investor inv]) record
       | _ => record
       end)
    invs record.

Fixpoint _walk_for_funding_and_investors (node : value)
  (record : CompanyRecord) {struct node} : CompanyRecord :=
  match node with
  | VDict items =>
      (* Funding rounds *)
      let record :=
        match dict_lookup "funding_rounds" items with
        | Some (VList frs) => append_rounds frs record
        | _ => record
        end in
      (* Investors *)
      let record :=
        match dict_lookup "investors" items with
        | Some (VList invs) => append_investors invs record
        | _ => record
        end in
      (fix walk_values (kvs : list (string * value))
         (record : CompanyRecord) : CompanyRecord :=
         match kvs with
         | [] => record
         | (_, v) :: rest =>
             walk_values rest (_walk_for_funding_and_investors v record)
         end) items record
  | VList items =>
      (fix walk_items (vs : list value) (record : CompanyRecord)
         : CompanyRecord :=
         match vs with
         | [] => record
         | v :: rest =>
             walk_items rest (_walk_for_funding_and_investors v record)
         end) items record
  | _ => record
  end.

(** The body of the loop over the [script] elements. *)
Definition harvest_funding_script (record : CompanyRecord) (script : Tag)
  : CompanyRecord :=
  let raw := tag_text script in
  if raw =? EmptyString then record
  else if negb (PyStr.contains "funding" raw)
          && negb (PyStr.contains "investor" raw) then record
  else
    match json_loads raw with
    | Raise _ => record
    | Return data => _walk_for_funding_and_investors data record
    end.

Definition harvest_funding (soup : Soup) (record : CompanyRecord)
  : CompanyRecord :=
  fold_left harvest_funding_script (find_all soup "script" (fun _ => true))
    record.

Definition round_key (fr : dict) : list value :=
  [ dict_get "year" fr; dict_get "round" fr; dict_get "amount" fr;
    dict_get "currency" fr ].

(** One turn of a deduplicating loop: [seen] is the set of keys met so
    far, [unique] the entries kept so far. *)
Definition dedup_state : Type := list (list hkey) * list dict.

Definition dedup_round (fr : dict) (st : dedup_state) : result dedup_state :=
  let (seen_rounds, unique_rounds) := st in
  key <- hash_tuple (round_key fr) ;;
  if seen_mem key seen_rounds then Return st
  else Return (key :: seen_rounds, unique_rounds ++ [fr]).

Definition dedup_investor (inv : dict) (st : dedup_state)
  : result dedup_state :=
  let (seen_investors, unique_investors) := st in
  let name := dict_get "name" inv in
  if negb (truthy name) then Return st
  else
    key <- hash_tuple [name] ;;
    if seen_mem key seen_investors then Return st
    else Return (key :: seen_investors, unique_investors ++ [inv]).

Definition _populate_funding_and_investors (soup : Soup)
  (record : CompanyRecord) : result CompanyRecord :=
  let record := harvest_funding soup record in
  (* Remove duplicates and normalize *)
  rounds <- for_each (funding_rounds record) dedup_round ([], []) ;;
  let record := set_funding_rounds (snd rounds) record in
  invs <- for_each (investors record) dedup_investor ([], []) ;;
  Return (set_investors (snd invs) record).

(** *** Locations *)

Definition location_of (addr : dict) : option dict :=
  let address :=
    py_or (py_or (dict_get "streetAddress" addr) (dict_get "address" addr))
      (dict_get "full" addr) in
  let country :=
    py_or (dict_get "addressCountry" addr) (dict_get "country" addr) in
  if truthy address || truthy country
  then Some [("address", address); ("country", country)]
  else None.

Fixpoint _walk_for_locations (node : value) (record : CompanyRecord)
  {struct node} : CompanyRecord :=
  match node with
  | VDict items =>
      let record :=
        match dict_get "address" items with
        | VDict addr =>
            match location_of addr with
            | Some loc =>
                set_hq_locations (hq_locations record ++ [loc]) record
            | None => record
            end
        | _ => record
        end in
      (fix walk_values (kvs : list (string * value))
         (record : CompanyRecord) : CompanyRecord :=
         match kvs with
         | [] => record
         | (_, v) :: rest => walk_values rest (_walk_for_locations v record)
         end) items record
  | VList items =>
      (fix walk_items (vs : list value) (record : CompanyRecord)
         : CompanyRecord :=
         match vs with
         | [] => record
         | v :: rest => walk_items rest (_walk_for_locations v record)
         end) items record
  | _ => record
  end.

Definition harvest_location_script (record : CompanyRecord) (script : Tag)
  : CompanyRecord :=
  let raw := tag_text script in
  if (raw =? EmptyString) || negb (PyStr.contains "address" raw) then record
  else
    match json_loads raw with
    | Raise _ => record
    | Return data => _walk_for_locations data record
    end.

Definition harvest_locations (soup : Soup) (record : CompanyRecord)
  : CompanyRecord :=
  fold_left harvest_location_script
    (find_all soup "script" (fun _ => true)) record.

Definition location_key (loc : dict) : list value :=
  [ dict_get "address" loc; dict_get "country" loc ].

Definition dedup_location (loc : dict) (st : dedup_state)
  : result dedup_state :=
  let (seen, unique_locations) := st in
  key <- hash_tuple (location_key loc) ;;
  if seen_mem key seen then Return st
  else Return (key :: seen, unique_locations ++ [loc]).

Definition _populate_locations (soup : Soup) (record : CompanyRecord)
  : result CompanyRecord :=
  let record := harvest_locations soup record in
  (* Deduplicate *)
  locs <- for_each (hq_locations record) dedup_location ([], []) ;;
  Return (set_hq_locations (snd locs) record).

(** *** The entry point *)

Definition extract_company_data (html : string) (source_url : option string)
  : result dict :=
  let soup := BeautifulSoup html in
  let record := CompanyRecord_init source_url in
  ld_org <- _extract_ld_organization soup ;;
  record <-
    match ld_org with
    | Some ld =>
        if truthy (VDict ld) then _populate_from_ld_json ld record
        else Return record
    | None => Return record
    end ;;
  let record := _populate_social_links soup record in
  let record := _populate_meta_fallbacks soup record in
  let record := _populate_status_and_stage soup record in
  record <- _populate_funding_and_investors soup record ;;
  record <- _populate_locations soup record ;;
  Return (to_dict record).

End Extractor.

(** * The extractor over a store of objects

    The same methods, with the containers of a record as objects of a store:
    [CompanyRecord(...)] creates a new list or dict for every container
    attribute ([field(default_factory=...)]), [append] and [setdefault]
    change an object in place, and assigning a new list to an attribute
    creates another object.  The record itself is local to an invocation and
    is threaded as before; its container attributes are addresses. *)

Module Store.

Definition addr : Type := nat.

Inductive cell : Type :=
| Dicts (items : list dict)
| Links (items : list (string * string))
| Strs (items : list string)
| Map (items : dict).

Record heap : Type := mkHeap {
  next : addr;                 (* the next address to give out *)
  cell_at : addr -> cell
}.

Abbreviation RecordObj := (CompanyRecordOf addr addr addr addr).

(** A computation on the store that may raise; the store survives an
    exception. *)
Definition M (A : Type) : Type := heap -> result A * heap.

Definition ret {A} (a : A) : M A := fun h => (Return a, h).

Definition lift {A} (m : result A) : M A := fun h => (m, h).

Definition mbind {A B} (m : M A) (k : A -> M B) : M B :=
  fun h =>
    match m h with
    | (Return a, h') => k a h'
    | (Raise e, h') => (Raise e, h')
    end.

Notation "x <~ m ;; k" := (mbind m (fun x => k))
  (at level 61, m at next level, right associativity).

(** A new object. *)
Definition new (c : cell) : M addr :=
  fun h =>
    (Return (next h),
     mkHeap (S (next h))
       (fun a => if Nat.eqb a (next h) then c else cell_at h a)).

(** An object changed in place. *)
Definition put (a : addr) (c : cell) : M unit :=
  fun h =>
    (Return tt,
     mkHeap (next h) (fun a' => if Nat.eqb a' a then c else cell_at h a')).

(** Reading an object as a list of dicts, a dict of strings, a list of
    strings; an object of another kind lacks the method called on it. *)
Definition get_dicts (a : addr) : M (list dict) :=
  fun h =>
    match cell_at h a with
    | Dicts items => (Return items, h)
    | _ => (Raise AttributeError, h)
    end.

Definition get_links (a : addr) : M (list (string * string)) :=
  fun h =>
    match cell_at h a with
    | Links items => (Return items, h)
    | _ => (Raise AttributeError, h)
    end.

Definition get_strs (a : addr) : M (list string) :=
  fun h =>
    match cell_at h a with
    | Strs items => (Return items, h)
    | _ => (Raise AttributeError, h)
    end.

Definition get_map (a : addr) : M dict :=
  fun h =>
    match cell_at h a with
    | Map items => (Return items, h)
    | _ => (Raise AttributeError, h)
    end.

(** [a.append(x)] *)
Definition append (a : addr) (x : dict) : M unit :=
  items <~ get_dicts a ;; put a (Dicts (items ++ [x])).

(** [a.setdefault(key, v)] *)
Definition setdefault (a : addr) (key v : string) : M unit :=
  items <~ get_links a ;; put a (Links (dict_setdefault key v items)).

(** A [for] loop over the store. *)
Fixpoint for_all {A S} (items : list A) (body : A -> S -> M S) (s : S)
  : M S :=
  match items with
  | [] => ret s
  | x :: rest => s' <~ body x s ;; for_all rest body s'
  end.

(** [CompanyRecord(raw_source_url=source_url)]: a new container for every
    container attribute, in the order of the fields. *)
Definition CompanyRecord_new (source_url : option string) : M RecordObj :=
  funding_rounds <~ new (Dicts []) ;;
  social_links <~ new (Links []) ;;
  investors <~ new (Dicts []) ;;
  industries <~ new (Strs []) ;;
  team <~ new (Dicts []) ;;
  hq_locations <~ new (Dicts []) ;;
  kpi_summary <~ new (Map []) ;;
  nearby_companies <~ new (Dicts []) ;;
  related_companies <~ new (Dicts []) ;;
  news <~ new (Dicts []) ;;
  ret {| about := VNone; company_status := None;
         funding_rounds := funding_rounds; growth_stage := None;
         employees := None; similarweb_traffic := None;
         social_links := social_links; investors := investors;
         industries := industries; team := team;
         hq_locations := hq_locations; kpi_summary := kpi_summary;
         nearby_companies := nearby_companies;
         related_companies := related_companies; news := news;
         website_url := None; linkedin_url := None; twitter_url := None;
         instagram_url := None; raw_source_url := source_url |}.

(** [CompanyRecord.to_dict] *)
Definition to_dict (self : RecordObj) : M dict :=
  funding_rounds <~ get_dicts (funding_rounds self) ;;
  social_links <~ get_links (social_links self) ;;
  investors <~ get_dicts (investors self) ;;
  industries <~ get_strs (industries self) ;;
  team <~ get_dicts (team self) ;;
  hq_locations <~ get_dicts (hq_locations self) ;;
  kpi_summary <~ get_map (kpi_summary self) ;;
  nearby_companies <~ get_dicts (nearby_companies self) ;;
  related_companies <~ get_dicts (related_companies self) ;;
  news <~ get_dicts (news self) ;;
  let data :=
    [ ("about", about self);
      ("company_status", of_opt (company_status self));
      ("funding_rounds", VList (map VDict funding_rounds));
      ("growth_stage", of_opt (growth_stage self));
      ("employees", of_opt (employees self));
      ("similarweb_traffic", of_opt (similarweb_traffic self));
      ("social_links",
         VDict (map (fun kv => (fst kv, VStr (snd kv))) social_links));
      ("investors", VList (map VDict investors));
      ("industries", VList (map VStr industries));
      ("team", VList (map VDict team));
      ("hq_locations", VList (map VDict hq_locations));
      ("kpi_summary", VDict kpi_summary);
      ("nearby_companies", VList (map VDict nearby_companies));
      ("related_companies", VList (map VDict related_companies));
      ("news", VList (map VDict news));
      ("website_url", of_opt (website_url self));
      ("linkedin_url", of_opt (linkedin_url self));
      ("twitter_url", of_opt (twitter_url self));
      ("instagram_url", of_opt (instagram_url self));
      ("raw_source_url", of_opt (raw_source_url self)) ] in
  ret (filter (fun kv => negb (is_none_or_empty (snd kv))) data).

Section Extractor.

Context {lib : Library}.

Definition _assign_social_link (href : string) (record : RecordObj)
  : M RecordObj :=
  let href_lower := PyStr.lower href in
  if PyStr.contains "linkedin.com" href_lower then
    let record := set_linkedin_url (Some href) record in
    _ <~ setdefault (social_links record) "linkedin" href ;; ret record
  else if PyStr.contains "twitter.com" href_lower
          || PyStr.contains "x.com" href_lower then
    let record := set_twitter_url (Some href) record in
    _ <~ setdefault (social_links record) "twitter" href ;; ret record
  else if PyStr.contains "instagram.com" href_lower then
    let record := set_instagram_url (Some href) record in
    _ <~ setdefault (social_links record) "instagram" href ;; ret record
  else if PyStr.contains "facebook.com" href_lower then
    _ <~ setdefault (social_links record) "facebook" href ;; ret record
  else if PyStr.contains "youtube.com" href_lower
          || PyStr.contains "youtu.be" href_lower then
    _ <~ setdefault (social_links record) "youtube" href ;; ret record
  else ret record.

Definition assign_all (hrefs : list string) (record : RecordObj)
  : M RecordObj :=
  for_all hrefs _assign_social_link record.

Definition _populate_social_links (soup : Soup) (record : RecordObj)
  : M RecordObj :=
  assign_all (anchor_hrefs soup) record.

Definition _populate_from_ld_json (ld : dict) (record : RecordObj)
  : M RecordObj :=
  let record :=
    set_about (py_or (dict_get "description" ld) (about record)) record in
  (* Website *)
  let url := py_or (py_or (dict_get "url" ld) (dict_get "sameAs" ld)) VNone in
  let url :=
    match url with
    | VList candidates =>
        match first_http candidates with
        | Some candidate => VStr candidate
        | None => url
        end
    | _ => url
    end in
  let record :=
    match url with
    | VStr s => set_website_url (Some s) record
    | _ => record
    end in
  (* Industry / industries *)
  let found :=
    match dict_get "industry" ld with
    | VList xs => map py_str xs
    | VStr s => [s]
    | _ => []
    end in
  record <~
    match found with
    | [] => ret record
    | _ =>
        old <~ get_strs (industries record) ;;
        merged <~ new (Strs (PyStr.sorted_set (old ++ found))) ;;
        ret (set_industries merged record)
    end ;;
  (* Employees *)
  employees <~ lift (ld_employees ld) ;;
  let record :=
    match employees with
    | VInt n => set_employees (Some (PyStr.of_Z n)) record
    | VBool b => set_employees (Some (PyStr.of_Z (Z.b2z b))) record
    | VStr s => set_employees (Some s) record
    | _ => record
    end in
  (* Social links in JSON-LD *)
  let links :=
    match dict_get "sameAs" ld with
    | VList l => l
    | VStr s => [VStr s]
    | _ => []
    end in
  assign_all (map py_str links) record.

(** [record.funding_rounds.append(clean)] for every dict of the list *)
Definition append_rounds (frs : list value) (record : RecordObj)
  : M RecordObj :=
  for_all frs
    (fun fr record =>
       match fr with
       | VDict fr =>
           _ <~ append (funding_rounds record) (clean_round fr) ;; ret record
       | _ => ret record
       end)
    record.

(** [record.investors.append(clean)] for every dict of the list *)
Definition append_investors (invs : list value) (record : RecordObj)
  : M RecordObj :=
  for_all invs
    (fun inv record =>
       match inv with
       | VDict inv =>
           _ <~ append (investors record) (clean_investor inv) ;; ret record
       | _ => ret record
       end)
    record.

Fixpoint _walk_for_funding_and_investors (node : value) (record : RecordObj)
  {struct node} : M RecordObj :=
  match node with
  | VDict items =>
      (* Funding rounds *)
      record <~
        match dict_lookup "funding_rounds" items with
        | Some (VList frs) => append_rounds frs record
        | _ => ret record
        end ;;
      (* Investors *)
      record <~
        match dict_lookup "investors" items with
        | Some (VList invs) => append_investors invs record
        | _ => ret record
        end ;;
      (fix walk_values (kvs : list (string * value)) (record : RecordObj)
         : M RecordObj :=
         match kvs with
         | [] => ret record
         | (_, v) :: rest =>
             record <~ _walk_for_funding_and_investors v record ;;
             walk_values rest record
         end) items record
  | VList items =>
      (fix walk_items (vs : list value) (record : RecordObj) : M RecordObj :=
         match vs with
         | [] => ret record
         | v :: rest =>
             record <~ _walk_for_funding_and_investors v record ;;
             walk_items rest record
         end) items record
  | _ => ret record
  end.

Definition harvest_funding_script (script : Tag) (record : RecordObj)
  : M RecordObj :=
  let raw := tag_text script in
  if raw =? EmptyString then ret record
  else if negb (PyStr.contains "funding" raw)
          && negb (PyStr.contains "investor" raw) then ret record
  else
    match json_loads raw with
    | Raise _ => ret record
    | Return data => _walk_for_funding_and_investors data record
    end.

Definition _populate_funding_and_investors (soup : Soup) (record : RecordObj)
  : M RecordObj :=
  record <~
    for_all (find_all soup "script" (fun _ => true)) harvest_funding_script
      record ;;
  (* Remove duplicates and normalize *)
  harvested <~ get_dicts (funding_rounds record) ;;
  rounds <~ lift (for_each harvested dedup_round ([], [])) ;;
  unique_rounds <~ new (Dicts (snd rounds)) ;;
  let record := set_funding_rounds unique_rounds record in
  harvested <~ get_dicts (investors record) ;;
  invs <~ lift (for_each harvested dedup_investor ([], [])) ;;
  unique_investors <~ new (Dicts (snd invs)) ;;
  ret (set_investors unique_investors record).

Fixpoint _walk_for_locations (node : value) (record : RecordObj)
  {struct node} : M RecordObj :=
  match node with
  | VDict items =>
      record <~
        match dict_get "address" items with
        | VDict addr =>
            match location_of addr with
            | Some loc =>
                _ <~ append (hq_locations record) loc ;; ret record
            | None => ret record
            end
        | _ => ret record
        end ;;
      (fix walk_values (kvs : list (string * value)) (record : RecordObj)
         : M RecordObj :=
         match kvs with
         | [] => ret record
         | (_, v) :: rest =>
             record <~ _walk_for_locations v record ;;
             walk_values rest record
         end) items record
  | VList items =>
      (fix walk_items (vs : list value) (record : RecordObj) : M RecordObj :=
         match vs with
         | [] => ret record
         | v :: rest =>
             record <~ _walk_for_locations v record ;;
             walk_items rest record
         end) items record
  | _ => ret record
  end.

Definition harvest_location_script (script : Tag) (record : RecordObj)
  : M RecordObj :=
  let raw := tag_text script in
  if (raw =? EmptyString) || negb (PyStr.contains "address" raw)
  then ret record
  else
    match json_loads raw with
    | Raise _ => ret record
    | Return data => _walk_for_locations data record
    end.

Definition _populate_locations (soup : Soup) (record : RecordObj)
  : M RecordObj :=
  record <~
    for_all (find_all soup "script" (fun _ => true)) harvest_location_script
      record ;;
  (* Deduplicate *)
  harvested <~ get_dicts (hq_locations record) ;;
  locs <~ lift (for_each harvested dedup_location ([], [])) ;;
  unique_locations <~ new (Dicts (snd locs)) ;;
  ret (set_hq_locations unique_locations record).

Definition extract_company_data (html : string) (source_url : option string)
  : M dict :=
  let soup := BeautifulSoup html in
  record <~ CompanyRecord_new source_url ;;
  ld_org <~ lift (_extract_ld_organization soup) ;;
  record <~
    match ld_org with
    | Some ld =>
        if truthy (VDict ld) then _populate_from_ld_json ld record
        else ret record
    | None => ret record
    end ;;
  record <~ _populate_social_links soup record ;;
  let record := _populate_meta_fallbacks soup record in
  let record := _populate_status_and_stage soup record in
  record <~ _populate_funding_and_investors soup record ;;
  record <~ _populate_locations soup record ;;
  to_dict record.

End Extractor.

End Store.

(** * The fetcher and the driver

    [src/crawler/dealroom_crawler.py] and the part of [src/main.py] that
    runs the extractor.  The network is seen through the log of what the
    crawler did, the requests it made and the sleeps it completed: a request
    answers according to the log so far.  Log messages are not modelled.
    The delay, a float, is passed on to [time.sleep], which raises when it
    is negative or not a number ([ValueError]) or too large
    ([OverflowError]). *)

Inductive outcome : Type :=
| RequestFailed                          (* [session.get] raised *)
| Response (status_code : Z) (text : string) (url : string).

Inductive event (Delay : Type) : Type :=
| Requested (url : string) (timeout : Z)
| Slept (d : Delay).

Arguments Requested {Delay} url timeout.
Arguments Slept {Delay} d.

(** [urlparse(s).scheme], or [None] when [urlparse] raises [ValueError];
    [session.get(url, timeout=t)] after the events logged so far; and
    whether [time.sleep(d)] returns. *)
Class Web (Delay : Type) : Type := {
  urlparse_scheme : string -> option string;
  session_get : list (event Delay) -> string -> Z -> outcome;
  sleep_accepts : Delay -> bool
}.

Record HTTPSettings : Type := mkHTTPSettings {
  timeout : Z;
  max_retries : Z;
  user_agent : string
}.

Record CrawlerSettings (Delay : Type) : Type := mkCrawlerSettings {
  dealroom_base_url : string;
  sleep_between_requests : Delay
}.

Arguments dealroom_base_url {Delay} _.
Arguments sleep_between_requests {Delay} _.

Record DealroomCrawler (Delay : Type) : Type := mkDealroomCrawler {
  http : HTTPSettings;
  crawler : CrawlerSettings Delay
}.

Arguments http {Delay} _.
Arguments crawler {Delay} _.

(** [s.strip("/")] *)
Definition is_slash (c : ascii) : bool := Ascii.eqb c "/".

Fixpoint lstrip_slashes (s : string) : string :=
  match s with
  | EmptyString => EmptyString
  | String c rest => if is_slash c then lstrip_slashes rest else s
  end.

Fixpoint rstrip_slashes (s : string) : string :=
  match s with
  | EmptyString => EmptyString
  | String c rest =>
      match rstrip_slashes rest with
      | EmptyString => if is_slash c then EmptyString else String c EmptyString
      | kept => String c kept
      end
  end.

Definition strip_slashes (s : string) : string :=
  rstrip_slashes (lstrip_slashes s).

(** What a fetch gives: [(html, final_url)], or the exception of [urlparse]
    or of [time.sleep]. *)
Inductive fetched : Type :=
| Fetched (html : option string) (final_url : string)
| FetchRaised.

(** How the [try] block of one turn of the retry loop ends: with [return],
    with [continue], or with an exception. *)
Inductive tried (Delay : Type) : Type :=
| Returned (text final_url : string) (log : list (event Delay))
| Continued (log : list (event Delay))
| Excepted.

Arguments Returned {Delay} text final_url log.
Arguments Continued {Delay} log.
Arguments Excepted {Delay}.

Section Fetcher.

Context {Delay : Type} {web : Web Delay}.

(** [DealroomCrawler.build_profile_url]; [None] when [urlparse] raises. *)
Definition build_profile_url (self : DealroomCrawler Delay)
  (identifier : string) : option string :=
  match urlparse_scheme identifier with
  | None => None
  | Some scheme =>
      if str_in scheme ["http"; "https"] then Some identifier
      (* Heuristic: if identifier looks like a domain, just prepend https:// *)
      else if PyStr.contains "." identifier
              && negb (PyStr.contains " " identifier)
      then Some ("https://" ++ identifier)%string
      (* Otherwise assume it's a Dealroom slug *)
      else
        let identifier := strip_slashes (PyStr.strip identifier) in
        Some (dealroom_base_url (crawler self) ++ "/" ++ identifier)%string
  end.

(** [time.sleep(self.crawler.sleep_between_requests)]: the log with the
    sleep, or [None] when [time.sleep] raises. *)
Definition sleep (self : DealroomCrawler Delay) (log : list (event Delay))
  : option (list (event Delay)) :=
  let d := sleep_between_requests (crawler self) in
  if sleep_accepts d then Some (log ++ [Slept d]) else None.

(** The retry loop with [n] attempts left; [log] is the log so far.  An
    exception of the [try] block, that of [session.get] or that of
    [time.sleep], is caught by the handler, which sleeps too; an exception
    of the handler leaves the method. *)
Fixpoint attempt_fetch (self : DealroomCrawler Delay) (url : string)
  (n : nat) (log : list (event Delay)) : fetched * list (event Delay) :=
  match n with
  | O => (Fetched None url, log)
  | S n' =>
      let answer := session_get log url (timeout (http self)) in
      let log := log ++ [Requested url (timeout (http self))] in
      let try_block :=
        match answer with
        | Response status_code text final_url =>
            if (400 <=? status_code)%Z then
              match sleep self log with
              | Some slept => Continued slept
              | None => Excepted
              end
            else
              match sleep self log with
              | Some slept => Returned text final_url slept
              | None => Excepted
              end
        | RequestFailed => Excepted
        end in
      match try_block with
      | Returned text final_url slept => (Fetched (Some text) final_url, slept)
      | Continued slept => attempt_fetch self url n' slept
      | Excepted =>
          match sleep self log with
          | Some slept => attempt_fetch self url n' slept
          | None => (FetchRaised, log)
          end
      end
  end.

(** [DealroomCrawler.fetch_company_page]: [range(1, max_retries + 1)] has
    [max_retries] turns, none when [max_retries] is not positive. *)
Definition fetch_company_page (self : DealroomCrawler Delay)
  (identifier : string) (log : list (event Delay))
  : fetched * list (event Delay) :=
  match build_profile_url self identifier with
  | None => (FetchRaised, log)
  | Some url => attempt_fetch self url (Z.to_nat (max_retries (http self))) log
  end.

Context {lib : Library}.

(** [process_single_company] of [main.py]: any exception of the fetch or of
    the extraction is caught and gives [None]. *)
Definition process_single_company (identifier : string)
  (crawler : DealroomCrawler Delay) (log : list (event Delay))
  : option dict * list (event Delay) :=
  let identifier := PyStr.strip identifier in
  if identifier =? EmptyString then (None, log)
  else
    match fetch_company_page crawler identifier log with
    | (FetchRaised, log) => (None, log)
    | (Fetched None url, log) => (None, log)
    | (Fetched (Some html) url, log) =>
        match extract_company_data html (Some url) with
        | Return data => (Some data, log)
        | Raise _ => (None, log)
        end
    end.

(** The sequential loop of [main]: [if record: results.append(record)]. *)
Fixpoint main_sequential (identifiers : list string)
  (crawler : DealroomCrawler Delay) (results : list dict)
  (log : list (event Delay)) : list dict * list (event Delay) :=
  match identifiers with
  | [] => (results, log)
  | identifier :: rest =>
      let (record, log) := process_single_company identifier crawler log in
      let results :=
        match record with
        | Some data => if truthy (VDict data) then results ++ [data] else results
        | None => results
        end in
      main_sequential rest crawler results log
  end.

End Fetcher.

(** [setup_logging] of [main.py]: the level chosen for a verbosity, with
    the numbers of the [logging] module. *)
Inductive log_level : Type := DEBUG | INFO | WARNING.

Definition level_number (l : log_level) : Z :=
  match l with
  | DEBUG => 10
  | INFO => 20
  | WARNING => 30
  end.

Definition setup_logging (verbosity : Z) : log_level :=
  if (verbosity =? 1)%Z then INFO
  else if (2 <=? verbosity)%Z then DEBUG
  else WARNING.

(** ** Sample pages

    A table of pages with the tree the parser builds for each, and a table of
    script payloads with the value [json.loads] returns for each; any other
    text is not JSON.  The samples only apply [str] to strings. *)

Module Samples.

Definition dq : string := String (ascii_of_nat 34) EmptyString.
(** [s] between double quotes *)
Definition q (s : string) : string := dq ++ s ++ dq.

Definition el (name : string) : Tag := mkTag name [] EmptyString.
Definition text_el (name text : string) : Tag := mkTag name [] text.
Definition anchor (href : string) : Tag :=
  mkTag "a" [("href", href)] EmptyString.
Definition ld_script (text : string) : Tag :=
  mkTag "script" [("type", "application/ld+json")] text.
Definition script (text : string) : Tag := mkTag "script" [] text.

Definition in_head (inner : string) : string :=
  "<html><head>" ++ inner ++ "</head><body></body></html>".
Definition in_body (inner : string) : string :=
  "<html><head></head><body>" ++ inner ++ "</body></html>".
Definition ld_element (payload : string) : string :=
  "<script type='application/ld+json'>" ++ payload ++ "</script>".
Definition script_element (payload : string) : string :=
  "<script>" ++ payload ++ "</script>".

(** The page of the repository's "missing fields" test. *)
Definition empty_page : string :=
  "<html><head><title>No data</title></head><body><p>Empty page</p></body></html>".
Definition empty_soup : Soup :=
  mkSoup [el "html"; el "head"; text_el "title" "No data"; el "body";
          text_el "p" "Empty page"]
    "No data Empty page".

(** A JSON-LD block whose type list holds a number: [{"@type": [1]}]. *)
Definition numeric_type_json : string := "{" ++ q "@type" ++ ": [1]}".
Definition numeric_type_page : string :=
  in_head (ld_element numeric_type_json).
Definition numeric_type_soup : Soup :=
  mkSoup [el "html"; el "head"; ld_script numeric_type_json; el "body"]
    EmptyString.

(** JSON-LD blocks typed [["Company"]] and ["Company"], with a description. *)
Definition company_list_json : string :=
  "{" ++ q "@type" ++ ": [" ++ q "Company" ++ "], " ++ q "description"
      ++ ": " ++ q "Acme makes anvils" ++ "}".
Definition company_list_page : string :=
  in_head (ld_element company_list_json).
Definition company_list_soup : Soup :=
  mkSoup [el "html"; el "head"; ld_script company_list_json; el "body"]
    EmptyString.

Definition company_str_json : string :=
  "{" ++ q "@type" ++ ": " ++ q "Company" ++ ", " ++ q "description"
      ++ ": " ++ q "Acme makes anvils" ++ "}".
Definition company_str_page : string :=
  in_head (ld_element company_str_json).
Definition company_str_soup : Soup :=
  mkSoup [el "html"; el "head"; ld_script company_str_json; el "body"]
    EmptyString.

(** Visible text that names the pre-seed stage. *)
Definition pre_seed_page : string :=
  in_body "<p>Acme raised a pre-seed round</p>".
Definition pre_seed_soup : Soup :=
  mkSoup [el "html"; el "head"; el "body";
          text_el "p" "Acme raised a pre-seed round"]
    "Acme raised a pre-seed round".

(** Two anchors of one platform. *)
Definition two_linkedin_page : string :=
  in_body ("<a href='https://www.linkedin.com/company/acme'>Acme</a>"
           ++ "<a href='https://www.linkedin.com/in/founder'>Founder</a>").
Definition two_linkedin_soup : Soup :=
  mkSoup [el "html"; el "head"; el "body";
          mkTag "a" [("href", "https://www.linkedin.com/company/acme")]
            "Acme";
          mkTag "a" [("href", "https://www.linkedin.com/in/founder")]
            "Founder"]
    "Acme Founder".

(** A funding round that only gives its amount:
    [{"funding_rounds": [{"amount": 5}]}]. *)
Definition amount_only_json : string :=
  "{" ++ q "funding_rounds" ++ ": [{" ++ q "amount" ++ ": 5}]}".
Definition amount_only_page : string :=
  in_body (script_element amount_only_json).
Definition amount_only_soup : Soup :=
  mkSoup [el "html"; el "head"; el "body"; script amount_only_json]
    EmptyString.

(** Two script blocks with the same round and the same investor, the second
    block adding an investor without a name. *)
Definition round_a_json : string :=
  "{" ++ q "funding_rounds" ++ ": [{" ++ q "year" ++ ": 2021, "
      ++ q "round" ++ ": " ++ q "A" ++ ", " ++ q "amount" ++ ": 5, "
      ++ q "currency" ++ ": " ++ q "USD" ++ "}], "
      ++ q "investors" ++ ": [{" ++ q "name" ++ ": " ++ q "Acme Capital"
      ++ ", " ++ q "slug" ++ ": " ++ q "acme" ++ "}]}".
Definition round_b_json : string :=
  "{" ++ q "data" ++ ": {" ++ q "funding_rounds" ++ ": [{" ++ q "date"
      ++ ": 2021, " ++ q "type" ++ ": " ++ q "A" ++ ", " ++ q "raised"
      ++ ": 5, " ++ q "currency_code" ++ ": " ++ q "USD" ++ "}], "
      ++ q "investors" ++ ": [{" ++ q "type" ++ ": " ++ q "fund" ++ "}, {"
      ++ q "name" ++ ": " ++ q "Acme Capital" ++ ", " ++ q "path" ++ ": "
      ++ q "other" ++ "}]}}".
Definition two_blocks_page : string :=
  in_body (script_element round_a_json ++ script_element round_b_json).
Definition two_blocks_soup : Soup :=
  mkSoup [el "html"; el "head"; el "body"; script round_a_json;
          script round_b_json]
    EmptyString.

(** Visible text with "closed" inside a longer word. *)
Definition disclosed_page : string :=
  in_body "<p>Terms were not disclosed</p>".
Definition disclosed_soup : Soup :=
  mkSoup [el "html"; el "head"; el "body";
          text_el "p" "Terms were not disclosed"]
    "Terms were not disclosed".

Definition pages : list (string * Soup) :=
  [ (empty_page, empty_soup);
    (numeric_type_page, numeric_type_soup);
    (company_list_page, company_list_soup);
    (company_str_page, company_str_soup);
    (pre_seed_page, pre_seed_soup);
    (two_linkedin_page, two_linkedin_soup);
    (amount_only_page, amount_only_soup);
    (two_blocks_page, two_blocks_soup);
    (disclosed_page, disclosed_soup) ].

Definition payloads : list (string * value) :=
  [ (numeric_type_json, VDict [("@type", VList [VInt 1])]);
    (company_list_json,
     VDict [("@type", VList [VStr "Company"]);
            ("description", VStr "Acme makes anvils")]);
    (company_str_json,
     VDict [("@type", VStr "Company");
            ("description", VStr "Acme makes anvils")]);
    (amount_only_json,
     VDict [("funding_rounds", VList [VDict [("amount", VInt 5)]])]);
    (round_a_json,
     VDict [("funding_rounds",
             VList [VDict [("year", VInt 2021); ("round", VStr "A");
                           ("amount", VInt 5); ("currency", VStr "USD")]]);
            ("investors",
             VList [VDict [("name", VStr "Acme Capital");
                           ("slug", VStr "acme")]])]);
    (round_b_json,
     VDict [("data",
             VDict [("funding_rounds",
                     VList [VDict [("date", VInt 2021); ("type", VStr "A");
                                   ("raised", VInt 5);
                                   ("currency_code", VStr "USD")]]);
                    ("investors",
                     VList [VDict [("type", VStr "fund")];
                            VDict [("name", VStr "Acme Capital");
                                   ("path", VStr "other")]])])]) ].

Definition sample_repr (v : value) : string :=
  match v with
  | VNone => "None"
  | VBool true => "True"
  | VBool false => "False"
  | VInt n => PyStr.of_Z n
  | VStr s => s
  | VList _ | VDict _ => EmptyString
  end.

Definition sample_lib : Library :=
  {| BeautifulSoup html :=
       match dict_lookup html pages with
       | Some soup => soup
       | None => mkSoup [] EmptyString
       end;
     json_loads text :=
       match dict_lookup text payloads with
       | Some data => Return data
       | None => Raise JSONDecodeError
       end;
     repr := sample_repr |}.

End Samples.

(** A sample web: identifiers with an http(s) prefix are URLs; the server
    answers the first request with a 503, the second with the page whose
    text hides "closed", and fails afterwards.  A delay is a number of
    milliseconds, and [time.sleep] refuses the negative ones. *)
Module WebSamples.

Definition scheme_of (s : string) : option string :=
  if String.prefix "https://" s then Some "https"
  else if String.prefix "http://" s then Some "http"
  else Some EmptyString.

Definition requests_in (log : list (event Z)) : nat :=
  length (filter (fun e => match e with Requested _ _ => true | _ => false end)
            log).

Definition answer (log : list (event Z)) (url : string) (t : Z)
  : outcome :=
  match requests_in log with
  | 0 => Response 503 EmptyString url
  | 1 => Response 200 Samples.disclosed_page
           "https://app.dealroom.co/companies/acme_1"
  | _ => RequestFailed
  end.

Definition sample_web : Web Z :=
  {| urlparse_scheme := scheme_of; session_get := answer;
     sleep_accepts d := (0 <=? d)%Z |}.

(** The crawler of the default settings, and one whose delay is refused. *)
Definition sample_crawler : DealroomCrawler Z :=
  {| http := {| timeout := 10; max_retries := 2;
                user_agent := "dealroom-scraper/1.0" |};
     crawler := {| dealroom_base_url := "https://app.dealroom.co/companies";
                   sleep_between_requests := 500%Z |} |}.

Definition hasty_crawler : DealroomCrawler Z :=
  {| http := {| timeout := 10; max_retries := 2;
                user_agent := "dealroom-scraper/1.0" |};
     crawler := {| dealroom_base_url := "https://app.dealroom.co/companies";
                   sleep_between_requests := (-1)%Z |} |}.

End WebSamples.

(** A second table of pages: a company profile with structured metadata,
    meta elements, anchors and a script block, and two pages whose data the
    extractor cannot digest. *)
Module ProfileSamples.

(** The structured metadata of the profile. *)
Definition acme_json : string :=
  "{" ++ Samples.q "@type" ++ ": " ++ Samples.q "Organization" ++ ", "
      ++ Samples.q "description" ++ ": " ++ Samples.q "Acme makes anvils" ++ ", "
      ++ Samples.q "url" ++ ": " ++ Samples.q "https://acme.example" ++ ", "
      ++ Samples.q "industry" ++ ": [" ++ Samples.q "robotics" ++ ", " ++ Samples.q "anvils" ++ ", "
      ++ Samples.q "robotics" ++ "], "
      ++ Samples.q "sameAs" ++ ": [" ++ Samples.q "https://www.linkedin.com/company/acme"
      ++ ", " ++ Samples.q "https://facebook.com/acme" ++ "], "
      ++ Samples.q "address" ++ ": {" ++ Samples.q "streetAddress" ++ ": " ++ Samples.q "1 Main St"
      ++ ", " ++ Samples.q "addressCountry" ++ ": " ++ Samples.q "US" ++ "}}".

(** A script block with a round that names its investor. *)
Definition funded_json : string :=
  "{" ++ Samples.q "funding_rounds" ++ ": [{" ++ Samples.q "year" ++ ": 2021, "
      ++ Samples.q "round" ++ ": " ++ Samples.q "A" ++ ", " ++ Samples.q "investors" ++ ": [{"
      ++ Samples.q "name" ++ ": " ++ Samples.q "Acme Capital" ++ "}]}]}".

Definition acme_page : string :=
  "<html><head>"
  ++ "<meta name='description' content='  The anvil company  '>"
  ++ "<link rel='canonical' href='https://dealroom.example/acme'>"
  ++ Samples.ld_element acme_json
  ++ "</head><body>"
  ++ "<a href='https://www.linkedin.com/in/founder'>Founder</a>"
  ++ Samples.script_element funded_json
  ++ "</body></html>".

Definition acme_soup : Soup :=
  mkSoup
    [ Samples.el "html"; Samples.el "head";
      mkTag "meta" [("name", "description");
                    ("content", "  The anvil company  ")] EmptyString;
      mkTag "link" [("rel", "canonical");
                    ("href", "https://dealroom.example/acme")] EmptyString;
      Samples.ld_script acme_json; Samples.el "body";
      mkTag "a" [("href", "https://www.linkedin.com/in/founder")] "Founder";
      Samples.script funded_json ]
    "Founder".

Definition acme_data : value :=
  VDict [ ("@type", VStr "Organization");
          ("description", VStr "Acme makes anvils");
          ("url", VStr "https://acme.example");
          ("industry", VList [VStr "robotics"; VStr "anvils";
                              VStr "robotics"]);
          ("sameAs", VList [VStr "https://www.linkedin.com/company/acme";
                            VStr "https://facebook.com/acme"]);
          ("address", VDict [("streetAddress", VStr "1 Main St");
                             ("addressCountry", VStr "US")]) ].

Definition funded_data : value :=
  VDict [ ("funding_rounds",
           VList [VDict [("year", VInt 2021); ("round", VStr "A");
                         ("investors",
                          VList [VDict [("name", VStr "Acme Capital")]])]])
        ].

(** Structured metadata whose [employee] is a list of persons:
    [{"@type": "Organization", "employee": [{"name": "Jo"}]}]. *)
Definition staff_json : string :=
  "{" ++ Samples.q "@type" ++ ": " ++ Samples.q "Organization" ++ ", " ++ Samples.q "employee"
      ++ ": [{" ++ Samples.q "name" ++ ": " ++ Samples.q "Jo" ++ "}]}".
Definition staff_page : string := Samples.in_head (Samples.ld_element staff_json).
Definition staff_soup : Soup :=
  mkSoup [Samples.el "html"; Samples.el "head"; Samples.ld_script staff_json; Samples.el "body"] EmptyString.
Definition staff_data : value :=
  VDict [ ("@type", VStr "Organization");
          ("employee", VList [VDict [("name", VStr "Jo")]]) ].

(** A round whose amount is a range: [{"funding_rounds": [{"amount":
    [1, 2]}]}]. *)
Definition range_json : string :=
  "{" ++ Samples.q "funding_rounds" ++ ": [{" ++ Samples.q "amount" ++ ": [1, 2]}]}".
Definition range_page : string := Samples.in_body (Samples.script_element range_json).
Definition range_soup : Soup :=
  mkSoup [Samples.el "html"; Samples.el "head"; Samples.el "body"; Samples.script range_json] EmptyString.
Definition range_data : value :=
  VDict [("funding_rounds",
          VList [VDict [("amount", VList [VInt 1; VInt 2])]])].

Definition pages : list (string * Soup) :=
  [ (acme_page, acme_soup); (staff_page, staff_soup);
    (range_page, range_soup) ].

Definition payloads : list (string * value) :=
  [ (acme_json, acme_data); (funded_json, funded_data);
    (staff_json, staff_data); (range_json, range_data) ].

Definition profile_lib : Library :=
  {| BeautifulSoup html :=
       match dict_lookup html pages with
       | Some soup => soup
       | None => mkSoup [] EmptyString
       end;
     json_loads text :=
       match dict_lookup text payloads with
       | Some data => Return data
       | None => Raise JSONDecodeError
       end;
     repr := Samples.sample_repr |}.

End ProfileSamples.

(** A third table of pages: script blocks that repeat a round, an
    investor and a location. *)
Module DedupSamples.

(** Two script blocks: the first lists two rounds and two investors; the
    second repeats the first round under other field names, with an
    investor inside it, and lists an investor without a name and the first
    investor again. *)
Definition rounds_json : string :=
  "{" ++ Samples.q "funding_rounds" ++ ": [{" ++ Samples.q "year"
      ++ ": 2021, " ++ Samples.q "round" ++ ": " ++ Samples.q "A" ++ ", "
      ++ Samples.q "amount" ++ ": 5, " ++ Samples.q "currency" ++ ": "
      ++ Samples.q "USD" ++ "}, {" ++ Samples.q "year" ++ ": 2022, "
      ++ Samples.q "round" ++ ": " ++ Samples.q "B" ++ ", "
      ++ Samples.q "amount" ++ ": 10, " ++ Samples.q "currency" ++ ": "
      ++ Samples.q "USD" ++ "}], " ++ Samples.q "investors" ++ ": [{"
      ++ Samples.q "name" ++ ": " ++ Samples.q "Acme Capital" ++ ", "
      ++ Samples.q "slug" ++ ": " ++ Samples.q "acme" ++ "}, {"
      ++ Samples.q "name" ++ ": " ++ Samples.q "Beta Ventures" ++ "}]}".

Definition repeat_json : string :=
  "{" ++ Samples.q "data" ++ ": {" ++ Samples.q "funding_rounds" ++ ": [{"
      ++ Samples.q "date" ++ ": 2021, " ++ Samples.q "type" ++ ": "
      ++ Samples.q "A" ++ ", " ++ Samples.q "raised" ++ ": 5, "
      ++ Samples.q "currency_code" ++ ": " ++ Samples.q "USD" ++ ", "
      ++ Samples.q "investors" ++ ": [{" ++ Samples.q "name" ++ ": "
      ++ Samples.q "Beta Ventures" ++ ", " ++ Samples.q "path" ++ ": "
      ++ Samples.q "beta" ++ "}]}], " ++ Samples.q "investors" ++ ": [{"
      ++ Samples.q "type" ++ ": " ++ Samples.q "fund" ++ "}, {"
      ++ Samples.q "name" ++ ": " ++ Samples.q "Acme Capital" ++ ", "
      ++ Samples.q "path" ++ ": " ++ Samples.q "other" ++ "}]}}".

Definition rounds_page : string :=
  Samples.in_body (Samples.script_element rounds_json
                   ++ Samples.script_element repeat_json).
Definition rounds_soup : Soup :=
  mkSoup [Samples.el "html"; Samples.el "head"; Samples.el "body";
          Samples.script rounds_json; Samples.script repeat_json]
    EmptyString.

Definition rounds_data : value :=
  VDict [ ("funding_rounds",
           VList [VDict [("year", VInt 2021); ("round", VStr "A");
                         ("amount", VInt 5); ("currency", VStr "USD")];
                  VDict [("year", VInt 2022); ("round", VStr "B");
                         ("amount", VInt 10); ("currency", VStr "USD")]]);
          ("investors",
           VList [VDict [("name", VStr "Acme Capital");
                         ("slug", VStr "acme")];
                  VDict [("name", VStr "Beta Ventures")]]) ].

Definition repeat_data : value :=
  VDict [ ("data",
           VDict [ ("funding_rounds",
                    VList [VDict [("date", VInt 2021); ("type", VStr "A");
                                  ("raised", VInt 5);
                                  ("currency_code", VStr "USD");
                                  ("investors",
                                   VList [VDict [("name",
                                                  VStr "Beta Ventures");
                                                 ("path", VStr "beta")]])]]);
                   ("investors",
                    VList [VDict [("type", VStr "fund")];
                           VDict [("name", VStr "Acme Capital");
                                  ("path", VStr "other")]]) ]) ].

(** Three offices, the third at the address of the first:
    [{"offices": [{"address": {...}}, {"address": {...}}, {"address":
    {...}}]}]. *)
Definition offices_json : string :=
  "{" ++ Samples.q "offices" ++ ": [{" ++ Samples.q "address" ++ ": {"
      ++ Samples.q "streetAddress" ++ ": " ++ Samples.q "1 Main St" ++ ", "
      ++ Samples.q "addressCountry" ++ ": " ++ Samples.q "US" ++ "}}, {"
      ++ Samples.q "address" ++ ": {" ++ Samples.q "streetAddress" ++ ": "
      ++ Samples.q "2 High St" ++ ", " ++ Samples.q "addressCountry"
      ++ ": " ++ Samples.q "UK" ++ "}}, {" ++ Samples.q "address" ++ ": {"
      ++ Samples.q "full" ++ ": " ++ Samples.q "1 Main St" ++ ", "
      ++ Samples.q "country" ++ ": " ++ Samples.q "US" ++ "}}]}".
Definition offices_page : string :=
  Samples.in_body (Samples.script_element offices_json).
Definition offices_soup : Soup :=
  mkSoup [Samples.el "html"; Samples.el "head"; Samples.el "body";
          Samples.script offices_json]
    EmptyString.
Definition offices_data : value :=
  VDict [ ("offices",
           VList [VDict [("address",
                          VDict [("streetAddress", VStr "1 Main St");
                                 ("addressCountry", VStr "US")])];
                  VDict [("address",
                          VDict [("streetAddress", VStr "2 High St");
                                 ("addressCountry", VStr "UK")])];
                  VDict [("address",
                          VDict [("full", VStr "1 Main St");
                                 ("country", VStr "US")])]]) ].

Definition pages : list (string * Soup) :=
  [ (rounds_page, rounds_soup); (offices_page, offices_soup) ].

Definition payloads : list (string * value) :=
  [ (rounds_json, rounds_data); (repeat_json, repeat_data);
    (offices_json, offices_data) ].

Definition dedup_lib : Library :=
  {| BeautifulSoup html :=
       match dict_lookup html pages with
       | Some soup => soup
       | None => mkSoup [] EmptyString
       end;
     json_loads text :=
       match dict_lookup text payloads with
       | Some data => Return data
       | None => Raise JSONDecodeError
       end;
     repr := Samples.sample_repr |}.

End DedupSamples.

(** * The vocabulary of the properties *)

(** ** Induction over values, through lists and dicts *)

Definition value_nested_ind (P : value -> Prop)
  (none_case : P VNone)
  (bool_case : forall b, P (VBool b))
  (int_case : forall n, P (VInt n))
  (str_case : forall s, P (VStr s))
  (list_case : forall items, Forall P items -> P (VList items))
  (dict_case : forall items,
      Forall (fun kv => P (snd kv)) items -> P (VDict items))
  : forall v, P v :=
  fix go (v : value) : P v :=
    match v with
    | VNone => none_case
    | VBool b => bool_case b
    | VInt n => int_case n
    | VStr s => str_case s
    | VList items =>
        list_case items
          ((fix all (vs : list value) : Forall P vs :=
              match vs with
              | [] => Forall_nil P
              | v :: rest => Forall_cons v (go v) (all rest)
              end) items)
    | VDict items =>
        dict_case items
          ((fix all (kvs : list (string * value))
              : Forall (fun kv => P (snd kv)) kvs :=
              match kvs with
              | [] => Forall_nil _
              | kv :: rest => Forall_cons kv (go (snd kv)) (all rest)
              end) items)
    end.

(** ** Records and passes *)

(** [record] with [rounds] and [invs] appended to its two sequences *)
Definition add_harvest (rounds invs : list dict) (record : CompanyRecord)
  : CompanyRecord :=
  set_investors (investors record ++ invs)
    (set_funding_rounds (funding_rounds record ++ rounds) record).

Definition add_locations (locs : list dict) (record : CompanyRecord)
  : CompanyRecord :=
  set_hq_locations (hq_locations record ++ locs) record.

(** [record] with another source URL *)
Definition with_url (u : option string) (r : CompanyRecord) : CompanyRecord :=
  {| about := about r; company_status := company_status r;
     funding_rounds := funding_rounds r; growth_stage := growth_stage r;
     employees := employees r; similarweb_traffic := similarweb_traffic r;
     social_links := social_links r; investors := investors r;
     industries := industries r; team := team r;
     hq_locations := hq_locations r; kpi_summary := kpi_summary r;
     nearby_companies := nearby_companies r;
     related_companies := related_companies r; news := news r;
     website_url := website_url r; linkedin_url := linkedin_url r;
     twitter_url := twitter_url r; instagram_url := instagram_url r;
     raw_source_url := u |}.

Definition same_status (r r' : CompanyRecord) : Prop :=
  company_status r' = company_status r /\ growth_stage r' = growth_stage r.

(** The status the text classifier gives a lower-cased text. *)
Definition status_of_text (text : string) : string :=
  if PyStr.contains "closed" text || PyStr.contains "defunct" text
  then "closed"
  else if PyStr.contains "acquired" text then "acquired"
  else if PyStr.contains "ipo" text then "public"
  else "operational".

(** The platform the classifier finds in an href. *)
Definition platform_of (href : string) : option string :=
  let href_lower := PyStr.lower href in
  if PyStr.contains "linkedin.com" href_lower then Some "linkedin"
  else if PyStr.contains "twitter.com" href_lower
          || PyStr.contains "x.com" href_lower then Some "twitter"
  else if PyStr.contains "instagram.com" href_lower then Some "instagram"
  else if PyStr.contains "facebook.com" href_lower then Some "facebook"
  else if PyStr.contains "youtube.com" href_lower
          || PyStr.contains "youtu.be" href_lower then Some "youtube"
  else None.

(** The singular field of a platform, for the three that have one. *)
Definition singular_url (platform : string) (r : CompanyRecord)
  : option string :=
  if platform =? "linkedin" then linkedin_url r
  else if platform =? "twitter" then twitter_url r
  else if platform =? "instagram" then instagram_url r
  else None.

Definition has_singular (platform : string) : Prop :=
  platform = "linkedin" \/ platform = "twitter" \/ platform = "instagram".

(** No [None] and no empty list or dict, at any depth of a value. *)
Fixpoint set_at_every_depth (v : value) : bool :=
  match v with
  | VNone => false
  | VBool _ | VInt _ | VStr _ => true
  | VList items =>
      negb (is_none_or_empty v) && forallb set_at_every_depth items
  | VDict items =>
      negb (is_none_or_empty v)
      && forallb (fun kv => set_at_every_depth (snd kv)) items
  end.

(** ** Deduplicating loops

    The three loops that remove duplicates have one shape: an entry with no
    key is skipped, an entry whose key was seen is skipped, any other entry
    is kept and its key recorded.  [first_occurrences] says the same by
    recursion on the sequence. *)

Definition rmap {A B} (f : A -> B) (m : result A) : result B :=
  x <- m ;; Return (f x).

Inductive subseq {A} : list A -> list A -> Prop :=
| subseq_nil : subseq [] []
| subseq_skip x l1 l2 : subseq l1 l2 -> subseq l1 (x :: l2)
| subseq_keep x l1 l2 : subseq l1 l2 -> subseq (x :: l1) (x :: l2).

Definition dedup_step (key_of : dict -> result (option (list hkey)))
  (x : dict) (st : dedup_state) : result dedup_state :=
  k <- key_of x ;;
  match k with
  | None => Return st
  | Some key =>
      if seen_mem key (fst st) then Return st
      else Return (key :: fst st, snd st ++ [x])
  end.

(** The entries of [l] that have a key, each at the first occurrence of
    its key, keys in [seen] excluded. *)
Fixpoint first_occurrences (key_of : dict -> result (option (list hkey)))
  (seen : list (list hkey)) (l : list dict)
  : result (list dict) :=
  match l with
  | [] => Return []
  | x :: rest =>
      k <- key_of x ;;
      match k with
      | None => first_occurrences key_of seen rest
      | Some key =>
          if seen_mem key seen then first_occurrences key_of seen rest
          else rmap (cons x) (first_occurrences key_of (key :: seen) rest)
      end
  end.

Definition has_key (key_of : dict -> result (option (list hkey))) (x : dict)
  (k : list hkey) : Prop :=
  key_of x = Return (Some k).

(** The keys of the three loops. *)

Definition round_key_of (fr : dict) : result (option (list hkey)) :=
  rmap Some (hash_tuple (round_key fr)).

Definition investor_key_of (inv : dict) : result (option (list hkey)) :=
  let name := dict_get "name" inv in
  if negb (truthy name) then Return None
  else rmap Some (hash_tuple [name]).

Definition location_key_of (loc : dict) : result (option (list hkey)) :=
  rmap Some (hash_tuple (location_key loc)).

(** ** The store of objects *)

(** The container attributes of a record object, and the containers of a
    record, in the order of the fields. *)
Definition cells (ro : Store.RecordObj) : list Store.addr :=
  [ funding_rounds ro; social_links ro; investors ro; industries ro; team ro;
    hq_locations ro; kpi_summary ro; nearby_companies ro;
    related_companies ro; news ro ].

Definition contents (r : CompanyRecord) : list Store.cell :=
  [ Store.Dicts (funding_rounds r); Store.Links (social_links r);
    Store.Dicts (investors r); Store.Strs (industries r);
    Store.Dicts (team r); Store.Dicts (hq_locations r);
    Store.Map (kpi_summary r); Store.Dicts (nearby_companies r);
    Store.Dicts (related_companies r); Store.Dicts (news r) ].

Definition scalars {D L S M : Type} (r : CompanyRecordOf D L S M) :=
  ( about r, company_status r, growth_stage r, employees r,
    similarweb_traffic r, website_url r, linkedin_url r, twitter_url r,
    instagram_url r, raw_source_url r ).

(** Position [i] of a list replaced. *)
Fixpoint list_set {A} (i : nat) (x : A) (l : list A) : list A :=
  match l, i with
  | [], _ => []
  | _ :: rest, O => x :: rest
  | y :: rest, S j => y :: list_set j x rest
  end.

(** The record object [ro] in the store [h] stands for the record [r]: same
    scalar attributes, and its container attributes are distinct objects,
    created at or after [base], that hold the containers of [r]. *)
Definition models (base : Store.addr) (h : Store.heap) (ro : Store.RecordObj)
  (r : CompanyRecord) : Prop :=
  scalars ro = scalars r /\
  map (Store.cell_at h) (cells ro) = contents r /\
  NoDup (cells ro) /\
  Forall (fun a => base <= a < Store.next h) (cells ro).

(** The objects created before [base] are as they were. *)
Definition unchanged_below (base : Store.addr) (h h' : Store.heap) : Prop :=
  forall a, a < base -> Store.cell_at h' a = Store.cell_at h a.

(** A store-level method and a state-passing method do the same to a record:
    they raise the same exception, or they return records that stand for
    each other; and the store-level one leaves older objects alone. *)
Definition sim (base : Store.addr)
  (m : Store.RecordObj -> Store.M Store.RecordObj)
  (f : CompanyRecord -> result CompanyRecord) : Prop :=
  forall h ro r, models base h ro r ->
    exists h', unchanged_below base h h' /\
      match f r with
      | Return r' =>
          exists ro', m ro h = (Return ro', h') /\ models base h' ro' r'
      | Raise e => m ro h = (Raise e, h')
      end.

(** The three steps of [_populate_from_ld_json] before the social links:
    description and website, industries, employees. *)
Definition ld_about_and_website {D L S M : Type} (ld : dict)
  (record : CompanyRecordOf D L S M) : CompanyRecordOf D L S M :=
  let record :=
    set_about (py_or (dict_get "description" ld) (about record)) record in
  let url := py_or (py_or (dict_get "url" ld) (dict_get "sameAs" ld)) VNone in
  let url :=
    match url with
    | VList candidates =>
        match first_http candidates with
        | Some candidate => VStr candidate
        | None => url
        end
    | _ => url
    end in
  match url with
  | VStr s => set_website_url (Some s) record
  | _ => record
  end.

Definition with_employees {D L S M : Type} (employees : value)
  (record : CompanyRecordOf D L S M) : CompanyRecordOf D L S M :=
  match employees with
  | VInt n => set_employees (Some (PyStr.of_Z n)) record
  | VBool b => set_employees (Some (PyStr.of_Z (Z.b2z b))) record
  | VStr s => set_employees (Some s) record
  | _ => record
  end.

Section Passes.

Context {lib : Library}.

(** The first two steps of [extract_company_data]. *)
Definition ld_pass (soup : Soup) (record : CompanyRecord)
  : result CompanyRecord :=
  ld_org <- _extract_ld_organization soup ;;
  match ld_org with
  | Some ld =>
      if truthy (VDict ld) then _populate_from_ld_json ld record
      else Return record
  | None => Return record
  end.

(** The record the passes build, before it is turned into a mapping. *)
Definition extracted_record (html : string) (url : option string)
  : result CompanyRecord :=
  let soup := BeautifulSoup html in
  r1 <- ld_pass soup (CompanyRecord_init url) ;;
  r5 <- _populate_funding_and_investors soup
          (_populate_status_and_stage soup
             (_populate_meta_fallbacks soup
                (_populate_social_links soup r1))) ;;
  _populate_locations soup r5.

Definition ld_industries (ld : dict) : list string :=
  match dict_get "industry" ld with
  | VList xs => map py_str xs
  | VStr s => [s]
  | _ => []
  end.

Definition ld_links (ld : dict) : list string :=
  map py_str
    match dict_get "sameAs" ld with
    | VList l => l
    | VStr s => [VStr s]
    | _ => []
    end.

(** What one script block adds to the two sequences. *)
Definition rounds_in_script (script : Tag) : list dict :=
  funding_rounds (harvest_funding_script (CompanyRecord_init None) script).

Definition investors_in_script (script : Tag) : list dict :=
  investors (harvest_funding_script (CompanyRecord_init None) script).

(** The passes between the new record and the mapping. *)
Definition store_passes (soup : Soup) (ro : Store.RecordObj)
  : Store.M Store.RecordObj :=
  Store.mbind (Store.lift (_extract_ld_organization soup)) (fun ld_org =>
  Store.mbind
    (match ld_org with
     | Some ld =>
         if truthy (VDict ld) then Store._populate_from_ld_json ld ro
         else Store.ret ro
     | None => Store.ret ro
     end) (fun ro =>
  Store.mbind (Store._populate_social_links soup ro) (fun ro =>
  Store.mbind
    (Store._populate_funding_and_investors soup
       (_populate_status_and_stage soup (_populate_meta_fallbacks soup ro)))
    (Store._populate_locations soup)))).

End Passes.

(** A page with no recognizable data: no JSON-LD organization, no anchor of
    a known platform, none of the meta and link elements of the fallback
    pass, no status or stage keyword in the text, and no script whose text
    parses. *)
Definition no_recognizable_data {lib : Library} (soup : Soup) : Prop :=
  _extract_ld_organization soup = Return None /\
  Forall (fun href => platform_of href = None) (anchor_hrefs soup) /\
  find soup "meta" (attr_is "name" "description") = None /\
  find soup "meta" (attr_is "property" "og:description") = None /\
  find soup "link" (rel_is "canonical") = None /\
  find soup "meta" (attr_is "property" "og:url") = None /\
  status_of_text (PyStr.lower (soup_text soup)) = "operational" /\
  first_stage (PyStr.lower (soup_text soup)) stage_keywords = None /\
  Forall (fun script =>
            tag_text script = EmptyString \/
            exists e, json_loads (tag_text script) = Raise e)
    (find_all soup "script" (fun _ => true)).

(** The records the funding pass and the location pass leave on the
    samples with repeated entries. *)
Definition rounds_record : CompanyRecord :=
  Eval vm_compute in
    match @_populate_funding_and_investors DedupSamples.dedup_lib
            DedupSamples.rounds_soup (CompanyRecord_init None) with
    | Return r => r
    | Raise _ => CompanyRecord_init None
    end.

Definition offices_record : CompanyRecord :=
  Eval vm_compute in
    match @_populate_locations DedupSamples.dedup_lib
            DedupSamples.offices_soup (CompanyRecord_init None) with
    | Return r => r
    | Raise _ => CompanyRecord_init None
    end.

(** ** Equal keys, in the spec's words

    The values a [set] can hold are [None], bools, ints and strings;
    [hashable] says a value is one of them, and [py_eq] is [==] on them: a
    bool equals the int it counts as. *)
Definition hashable (v : value) : bool :=
  match v with
  | VList _ | VDict _ => false
  | _ => true
  end.

Definition py_eq (a b : value) : bool :=
  match a, b with
  | VNone, VNone => true
  | VBool x, VBool y => Bool.eqb x y
  | VBool x, VInt n => (Z.b2z x =? n)%Z
  | VInt n, VBool y => (n =? Z.b2z y)%Z
  | VInt n, VInt m => (n =? m)%Z
  | VStr s, VStr t => s =? t
  | _, _ => false
  end.

(** Two rounds have the same (year, round, amount, currency) tuple. *)
Definition same_round (x y : dict) : bool :=
  py_eq (dict_get "year" x) (dict_get "year" y)
  && py_eq (dict_get "round" x) (dict_get "round" y)
  && py_eq (dict_get "amount" x) (dict_get "amount" y)
  && py_eq (dict_get "currency" x) (dict_get "currency" y).

(** Two investors have the same name. *)
Definition same_name (x y : dict) : bool :=
  py_eq (dict_get "name" x) (dict_get "name" y).

(** Two locations have the same (address, country) tuple. *)
Definition same_location (x y : dict) : bool :=
  py_eq (dict_get "address" x) (dict_get "address" y)
  && py_eq (dict_get "country" x) (dict_get "country" y).

(** Every character of [s] is ASCII; on such strings [str.lower] and
    [str.strip] are [PyStr.lower] and [PyStr.strip]. *)
Fixpoint ascii_only (s : string) : bool :=
  match s with
  | EmptyString => true
  | String c rest => (N_of_ascii c <? 128)%N && ascii_only rest
  end.

(** ** Where the walkers look, and what the passes read *)

(** The dict [d] is [node] or lies inside it, at any depth of its lists and
    dicts. *)
Inductive inside (d : dict) : value -> Prop :=
| inside_here : inside d (VDict d)
| inside_dict k v items :
    In (k, v) items -> inside d v -> inside d (VDict items)
| inside_list v items :
    In v items -> inside d v -> inside d (VList items).

(** [x] is one of the dicts of the list that [d] holds under [key]. *)
Definition listed_under (key : string) (d : dict) (x : dict) : Prop :=
  exists l, dict_lookup key d = Some (VList l) /\ In (VDict x) l.

(** What a walk finds in [node]: the cleaned form of a round or of an
    investor listed in a dict inside [node], and the location of a dict
    inside [node] whose [address] is a dict. *)
Definition round_in (node : value) (x : dict) : Prop :=
  exists d fr, inside d node /\ listed_under "funding_rounds" d fr /\
               x = clean_round fr.

Definition investor_in (node : value) (x : dict) : Prop :=
  exists d inv, inside d node /\ listed_under "investors" d inv /\
                x = clean_investor inv.

Definition location_in (node : value) (x : dict) : Prop :=
  exists d addr, inside d node /\ dict_get "address" d = VDict addr /\
                 location_of addr = Some x.

Section Scripts.

Context {lib : Library}.

(** [script] is a script element of the page that the funding scan reads:
    its text names "funding" or "investor" and parses to [data]. *)
Definition funding_script (soup : Soup) (script : Tag) (data : value) : Prop :=
  In script (find_all soup "script" (fun _ => true)) /\
  PyStr.contains "funding" (tag_text script)
    || PyStr.contains "investor" (tag_text script) = true /\
  json_loads (tag_text script) = Return data.

(** The same for the location scan: the text names "address". *)
Definition address_script (soup : Soup) (script : Tag) (data : value) : Prop :=
  In script (find_all soup "script" (fun _ => true)) /\
  PyStr.contains "address" (tag_text script) = true /\
  json_loads (tag_text script) = Return data.

(** The script elements the locator reads. *)
Definition ld_scripts (soup : Soup) : list Tag :=
  find_all soup "script" (attr_is "type" "application/ld+json").

(** A script block holds an entry with a key component that cannot be
    hashed: a round, an investor with a name, or a location. *)
Definition unhashable_key (soup : Soup) : Prop :=
  (exists script data x,
     funding_script soup script data /\ round_in data x /\
     hash_tuple (round_key x) = Raise TypeError) \/
  (exists script data x,
     funding_script soup script data /\ investor_in data x /\
     truthy (dict_get "name" x) = true /\
     py_hash (dict_get "name" x) = Raise TypeError) \/
  (exists script data x,
     address_script soup script data /\ location_in data x /\
     hash_tuple (location_key x) = Raise TypeError).

(** The structured metadata the record is filled from: the organization
    the locator returns, when it is not an empty object. *)
Definition located (soup : Soup) : option dict :=
  match _extract_ld_organization soup with
  | Return (Some ld) => if truthy (VDict ld) then Some ld else None
  | _ => None
  end.

(** The hrefs the record takes its social links from, in the order they
    are filed: those of the structured metadata, then the anchors. *)
Definition page_links (soup : Soup) : list string :=
  match located soup with
  | Some ld => ld_links ld
  | None => []
  end ++ anchor_hrefs soup.

End Scripts.

(** The attributes no pass writes. *)
Definition unfilled_fields : list string :=
  [ "similarweb_traffic"; "team"; "kpi_summary"; "nearby_companies";
    "related_companies"; "news" ].

(** [a < b] for strings, as [sorted] compares them. *)
Definition str_lt (a b : string) : Prop := String.compare a b = Lt.

(** Every entry is less than all the entries after it. *)
Fixpoint increasing (l : list string) : Prop :=
  match l with
  | [] => True
  | x :: rest => Forall (str_lt x) rest /\ increasing rest
  end.

(** The classifier files [href] under [platform]. *)
Definition is_platform (platform href : string) : bool :=
  match platform_of href with
  | Some p => p =? platform
  | None => false
  end.

(** [d.get(key, {}).get(inner)] for a dict of dicts. *)
Definition nested_lookup (key inner : string) (d : dict) : option value :=
  match dict_lookup key d with
  | Some (VDict m) => dict_lookup inner m
  | _ => None
  end.

(** The website the structured metadata gives: [url] or else [sameAs],
    when it is a string, or its first string starting with [http] when it
    is a list. *)
Definition ld_website (ld : dict) : option string :=
  match py_or (py_or (dict_get "url" ld) (dict_get "sameAs" ld)) VNone with
  | VList candidates => first_http candidates
  | VStr s => Some s
  | _ => None
  end.

(** The meta element the description falls back to, and the URL the
    website falls back to. *)
Definition meta_description (soup : Soup) : option Tag :=
  match find soup "meta" (attr_is "name" "description") with
  | Some tag => Some tag
  | None => find soup "meta" (attr_is "property" "og:description")
  end.

Definition meta_website (soup : Soup) : option string :=
  match match find soup "link" (rel_is "canonical") with
        | Some canonical => tag_get_truthy "href" canonical
        | None => None
        end with
  | Some href => Some href
  | None =>
      match find soup "meta" (attr_is "property" "og:url") with
      | Some og_url => tag_get_truthy "content" og_url
      | None => None
      end
  end.

(** What the extractor returns for the sample profile and for the samples
    with repeated entries. *)
Definition acme_mapping : dict :=
  [ ("about", VStr "Acme makes anvils");
    ("company_status", VStr "operational");
    ("funding_rounds",
     VList [VDict [("year", VInt 2021); ("round", VStr "A");
                   ("amount", VNone); ("currency", VNone);
                   ("investors",
                    VList [VDict [("name", VStr "Acme Capital")]])]]);
    ("social_links",
     VDict [("linkedin", VStr "https://www.linkedin.com/company/acme");
            ("facebook", VStr "https://facebook.com/acme")]);
    ("investors",
     VList [VDict [("name", VStr "Acme Capital"); ("type", VNone);
                   ("path", VNone)]]);
    ("industries", VList [VStr "anvils"; VStr "robotics"]);
    ("hq_locations",
     VList [VDict [("address", VStr "1 Main St"); ("country", VStr "US")]]);
    ("website_url", VStr "https://acme.example");
    ("linkedin_url", VStr "https://www.linkedin.com/in/founder");
    ("raw_source_url", VStr "https://dealroom.example/acme") ].

Definition rounds_mapping : dict :=
  [ ("company_status", VStr "operational");
    ("funding_rounds",
     VList [VDict [("year", VInt 2021); ("round", VStr "A");
                   ("amount", VInt 5); ("currency", VStr "USD");
                   ("investors", VList [])];
            VDict [("year", VInt 2022); ("round", VStr "B");
                   ("amount", VInt 10); ("currency", VStr "USD");
                   ("investors", VList [])]]);
    ("investors",
     VList [VDict [("name", VStr "Acme Capital"); ("type", VNone);
                   ("path", VStr "acme")];
            VDict [("name", VStr "Beta Ventures"); ("type", VNone);
                   ("path", VNone)]]) ].

Definition offices_mapping : dict :=
  [ ("company_status", VStr "operational");
    ("hq_locations",
     VList [VDict [("address", VStr "1 Main St"); ("country", VStr "US")];
            VDict [("address", VStr "2 High St"); ("country", VStr "UK")]])
  ].

(** ** The fetcher *)

Section FetcherVocabulary.

Context {Delay : Type} {web : Web Delay}.

(** What one attempt adds to the log, and what [k] attempts add. *)
Definition one_attempt (self : DealroomCrawler Delay) (url : string)
  : list (event Delay) :=
  [ Requested url (timeout (http self));
    Slept (sleep_between_requests (crawler self)) ].

Fixpoint attempts_log (self : DealroomCrawler Delay) (url : string) (k : nat)
  : list (event Delay) :=
  match k with
  | O => []
  | S k' => one_attempt self url ++ attempts_log self url k'
  end.

(** The answer to attempt number [j] (from 0) of a fetch that starts with
    the log [log]. *)
Definition answer_at (self : DealroomCrawler Delay) (url : string)
  (log : list (event Delay)) (j : nat) : outcome :=
  session_get (log ++ attempts_log self url j) url (timeout (http self)).

(** An answer the loop retries after: an exception, or a status of 400 or
    more. *)
Definition retried (o : outcome) : Prop :=
  match o with
  | RequestFailed => True
  | Response status_code _ _ => (400 <= status_code)%Z
  end.

(** What the retry loop has done when it ends with [res] from the log [log]
    with [n] attempts allowed.  With a delay [time.sleep] accepts: it
    stopped at the first answer with a status under 400 and returns its
    text and URL, or it used up its attempts and returns no text with the
    URL it asked for; every attempt left a request and a sleep in the log.
    With a delay [time.sleep] refuses: it raised after its first request,
    when it was allowed one. *)
Definition attempt_fetch_post (self : DealroomCrawler Delay) (url : string)
  (n : nat) (log : list (event Delay))
  (res : fetched * list (event Delay)) : Prop :=
  if sleep_accepts (sleep_between_requests (crawler self)) then
    match res with
    | (Fetched (Some text) final_url, log') =>
        exists k status_code,
          k < n /\
          log' = log ++ attempts_log self url (S k) /\
          (forall j, j < k -> retried (answer_at self url log j)) /\
          answer_at self url log k = Response status_code text final_url /\
          (status_code < 400)%Z
    | (Fetched None final_url, log') =>
        final_url = url /\
        log' = log ++ attempts_log self url n /\
        (forall j, j < n -> retried (answer_at self url log j))
    | (FetchRaised, _) => False
    end
  else
    res = match n with
          | O => (Fetched None url, log)
          | S _ => (FetchRaised, log ++ [Requested url (timeout (http self))])
          end.

Context {lib : Library}.

(** The records [process_single_company] returns for the identifiers in
    turn, each starting with the log the one before left. *)
Fixpoint processed (identifiers : list string)
  (crawler : DealroomCrawler Delay) (log : list (event Delay))
  : list (option dict) :=
  match identifiers with
  | [] => []
  | identifier :: rest =>
      let (record, log) := process_single_company identifier crawler log in
      record :: processed rest crawler log
  end.

End FetcherVocabulary.

(** The requests and the sleeps of a log. *)
Definition is_request {Delay : Type} (e : event Delay) : bool :=
  match e with Requested _ _ => true | Slept _ => false end.

Definition requests {Delay : Type} (log : list (event Delay)) : nat :=
  length (filter is_request log).

Definition sleeps {Delay : Type} (log : list (event Delay)) : nat :=
  length (filter (fun e => negb (is_request e)) log).

(** The records of a list of outcomes, in order. *)
Definition kept_records (records : list (option dict)) : list dict :=
  flat_map (fun record => match record with
                          | Some data => [data]
                          | None => []
                          end) records.

(** * Properties *)

(** ** Facts about strings *)

Section StringFacts.

Lemma append_assoc (a b c : string) : ((a ++ b) ++ c = a ++ (b ++ c))%string.
Proof.
  induction a as [|x a IH]; simpl; [reflexivity | now rewrite IH].
Qed.

Lemma prefix_append (n b : string) : String.prefix n (n ++ b)%string = true.
Proof.
  induction n as [|x n IH]; simpl.
  - now destruct b.
  - destruct (ascii_dec x x) as [_|ne]; [exact IH | now elim ne].
Qed.

Lemma prefix_inv (n t : string) :
  String.prefix n t = true -> exists b, t = (n ++ b)%string.
Proof.
  revert t; induction n as [|x n IH]; intros t H.
  - now exists t.
  - destruct t as [|y t]; simpl in H; [discriminate|].
    destruct (ascii_dec x y) as [->|_]; [|discriminate].
    destruct (IH t H) as [b ->]. now exists b.
Qed.

Lemma contains_prefix (n t : string) :
  String.prefix n t = true -> PyStr.contains n t = true.
Proof.
  intros H. destruct t; cbn [PyStr.contains]; rewrite H; reflexivity.
Qed.

Lemma contains_intro (a n b : string) :
  PyStr.contains n (a ++ n ++ b)%string = true.
Proof.
  induction a as [|x a IH]; simpl.
  - apply contains_prefix, prefix_append.
  - rewrite IH. apply orb_true_r.
Qed.

Lemma contains_inv (n t : string) :
  PyStr.contains n t = true -> exists a b, t = (a ++ n ++ b)%string.
Proof.
  induction t as [|y t IH]; cbn [PyStr.contains]; intros H.
  - rewrite orb_false_r in H. destruct (prefix_inv _ _ H) as [b Hb].
    now exists EmptyString, b.
  - apply orb_true_iff in H as [H|H].
    + destruct (prefix_inv _ _ H) as [b Hb]. now exists EmptyString, b.
    + destruct (IH H) as (a & b & ->). now exists (String y a), b.
Qed.

(** A text that contains a string contains every piece of it. *)
Lemma contains_piece (pre mid post t : string) :
  PyStr.contains (pre ++ mid ++ post)%string t = true ->
  PyStr.contains mid t = true.
Proof.
  intros H. destruct (contains_inv _ _ H) as (a & b & ->).
  replace (a ++ (pre ++ mid ++ post) ++ b)%string
    with ((a ++ pre) ++ mid ++ (post ++ b))%string.
  - apply contains_intro.
  - now rewrite !append_assoc.
Qed.

End StringFacts.

(** ** What each pass writes

    The harvesters only append to their own sequences, and what they append
    depends on the payload alone. *)

Section Frames.

Context {lib : Library}.

Lemma add_harvest_nil r : add_harvest [] [] r = r.
Proof.
  destruct r; unfold add_harvest; simpl. now rewrite !app_nil_r.
Qed.

Lemma add_harvest_twice f1 i1 f2 i2 r :
  add_harvest f2 i2 (add_harvest f1 i1 r) = add_harvest (f1 ++ f2) (i1 ++ i2) r.
Proof.
  destruct r; unfold add_harvest; simpl. now rewrite !app_assoc.
Qed.

Lemma add_locations_nil r : add_locations [] r = r.
Proof.
  destruct r; unfold add_locations; simpl. now rewrite !app_nil_r.
Qed.

Lemma add_locations_twice l1 l2 r :
  add_locations l2 (add_locations l1 r) = add_locations (l1 ++ l2) r.
Proof.
  destruct r; unfold add_locations; simpl. now rewrite !app_assoc.
Qed.

Lemma append_rounds_adds frs :
  exists f, forall r, append_rounds frs r = add_harvest f [] r.
Proof.
  unfold append_rounds.
  induction frs as [|fr frs (f & IH)]; simpl.
  - exists []. intros r. now rewrite add_harvest_nil.
  - destruct fr as [| | | | |d];
      try (exists f; intros r; apply IH).
    exists (clean_round d :: f). intros r. rewrite IH.
    destruct r; unfold add_harvest; simpl.
    now rewrite <- !app_assoc, !app_nil_r.
Qed.

Lemma append_investors_adds invs :
  exists i, forall r, append_investors invs r = add_harvest [] i r.
Proof.
  unfold append_investors.
  induction invs as [|inv invs (i & IH)]; simpl.
  - exists []. intros r. now rewrite add_harvest_nil.
  - destruct inv as [| | | | |d];
      try (exists i; intros r; apply IH).
    exists (clean_investor d :: i). intros r. rewrite IH.
    destruct r; unfold add_harvest; simpl.
    now rewrite <- !app_assoc, !app_nil_r.
Qed.

(** The walk over a dict, as a fold over its values after the dict's own
    two keys. *)
Lemma walk_funding_dict items r :
  _walk_for_funding_and_investors (VDict items) r =
  fold_left (fun r kv => _walk_for_funding_and_investors (snd kv) r) items
    (let r :=
       match dict_lookup "funding_rounds" items with
       | Some (VList frs) => append_rounds frs r
       | _ => r
       end in
     match dict_lookup "investors" items with
     | Some (VList invs) => append_investors invs r
     | _ => r
     end).
Proof.
  cbn [_walk_for_funding_and_investors]. cbv zeta.
  match goal with |- _ items ?start = _ => generalize start end.
  clear r.
  induction items as [|[k v] kvs IH]; intros r; simpl; [reflexivity|].
  apply IH.
Qed.

Lemma walk_funding_list items r :
  _walk_for_funding_and_investors (VList items) r =
  fold_left (fun r v => _walk_for_funding_and_investors v r) items r.
Proof.
  cbn [_walk_for_funding_and_investors].
  revert r. induction items as [|v vs IH]; intros r; simpl; [reflexivity|].
  apply IH.
Qed.

Lemma fold_adds_harvest {A} (f : CompanyRecord -> A -> CompanyRecord) xs :
  Forall (fun x => exists rs ivs, forall r, f r x = add_harvest rs ivs r) xs ->
  exists rs ivs, forall r, fold_left f xs r = add_harvest rs ivs r.
Proof.
  induction 1 as [|x xs (rs1 & ivs1 & Hx) _ (rs2 & ivs2 & IH)]; simpl.
  - exists [], []. intros r. now rewrite add_harvest_nil.
  - exists (rs1 ++ rs2), (ivs1 ++ ivs2). intros r.
    now rewrite Hx, IH, add_harvest_twice.
Qed.

(** The walk appends, to the two sequences, entries that depend on the
    payload only. *)
Lemma walk_funding_adds node :
  exists rs ivs, forall r,
    _walk_for_funding_and_investors node r = add_harvest rs ivs r.
Proof.
  induction node as [| | | |items IH|items IH] using value_nested_ind;
    try (exists [], []; intros r; now rewrite add_harvest_nil).
  - destruct (fold_adds_harvest
                (fun r v => _walk_for_funding_and_investors v r) items IH)
      as (rs & ivs & H).
    exists rs, ivs. intros r. now rewrite walk_funding_list.
  - destruct (fold_adds_harvest
                (fun r kv => _walk_for_funding_and_investors (snd kv) r)
                items IH) as (rs & ivs & H).
    assert (exists rs0 ivs0, forall r,
               (let r :=
                  match dict_lookup "funding_rounds" items with
                  | Some (VList frs) => append_rounds frs r
                  | _ => r
                  end in
                match dict_lookup "investors" items with
                | Some (VList invs) => append_investors invs r
                | _ => r
                end) = add_harvest rs0 ivs0 r) as (rs0 & ivs0 & H0).
    { assert (exists rs1, forall r,
                 match dict_lookup "funding_rounds" items with
                 | Some (VList frs) => append_rounds frs r
                 | _ => r
                 end = add_harvest rs1 [] r) as (rs1 & H1).
      { destruct (dict_lookup "funding_rounds" items) as [[| | | |frs|]|];
          try (exists []; intros r; now rewrite add_harvest_nil).
        apply append_rounds_adds. }
      assert (exists ivs1, forall r,
                 match dict_lookup "investors" items with
                 | Some (VList invs) => append_investors invs r
                 | _ => r
                 end = add_harvest [] ivs1 r) as (ivs1 & H2).
      { destruct (dict_lookup "investors" items) as [[| | | |invs|]|];
          try (exists []; intros r; now rewrite add_harvest_nil).
        apply append_investors_adds. }
      exists rs1, ivs1. intros r. cbv zeta.
      now rewrite H2, H1, add_harvest_twice, app_nil_r. }
    exists (rs0 ++ rs), (ivs0 ++ ivs). intros r.
    now rewrite walk_funding_dict, H0, H, add_harvest_twice.
Qed.

Lemma harvest_funding_script_adds script :
  exists rs ivs, forall r,
    harvest_funding_script r script = add_harvest rs ivs r.
Proof.
  unfold harvest_funding_script.
  destruct (tag_text script =? EmptyString);
    [exists [], []; intros r; now rewrite add_harvest_nil|].
  destruct (negb (PyStr.contains "funding" (tag_text script))
            && negb (PyStr.contains "investor" (tag_text script)));
    [exists [], []; intros r; now rewrite add_harvest_nil|].
  destruct (json_loads (tag_text script)) as [data|e];
    [apply walk_funding_adds
    |exists [], []; intros r; now rewrite add_harvest_nil].
Qed.

Lemma harvest_funding_adds soup :
  exists rs ivs, forall r, harvest_funding soup r = add_harvest rs ivs r.
Proof.
  unfold harvest_funding. apply fold_adds_harvest.
  apply Forall_forall. intros script _. apply harvest_funding_script_adds.
Qed.

(** The same for the location walk. *)
Lemma walk_locations_dict items r :
  _walk_for_locations (VDict items) r =
  fold_left (fun r kv => _walk_for_locations (snd kv) r) items
    (match dict_get "address" items with
     | VDict addr =>
         match location_of addr with
         | Some loc => set_hq_locations (hq_locations r ++ [loc]) r
         | None => r
         end
     | _ => r
     end).
Proof.
  cbn [_walk_for_locations]. cbv zeta.
  match goal with |- _ items ?start = _ => generalize start end.
  clear r.
  induction items as [|[k v] kvs IH]; intros r; simpl; [reflexivity|].
  apply IH.
Qed.

Lemma walk_locations_list items r :
  _walk_for_locations (VList items) r =
  fold_left (fun r v => _walk_for_locations v r) items r.
Proof.
  cbn [_walk_for_locations].
  revert r. induction items as [|v vs IH]; intros r; simpl; [reflexivity|].
  apply IH.
Qed.

Lemma fold_adds_locations {A} (f : CompanyRecord -> A -> CompanyRecord) xs :
  Forall (fun x => exists ls, forall r, f r x = add_locations ls r) xs ->
  exists ls, forall r, fold_left f xs r = add_locations ls r.
Proof.
  induction 1 as [|x xs (l1 & Hx) _ (l2 & IH)]; simpl.
  - exists []. intros r. now rewrite add_locations_nil.
  - exists (l1 ++ l2). intros r. now rewrite Hx, IH, add_locations_twice.
Qed.

Lemma walk_locations_adds node :
  exists ls, forall r, _walk_for_locations node r = add_locations ls r.
Proof.
  induction node as [| | | |items IH|items IH] using value_nested_ind;
    try (exists []; intros r; now rewrite add_locations_nil).
  - destruct (fold_adds_locations
                (fun r v => _walk_for_locations v r) items IH) as (ls & H).
    exists ls. intros r. now rewrite walk_locations_list.
  - destruct (fold_adds_locations
                (fun r kv => _walk_for_locations (snd kv) r) items IH)
      as (ls & H).
    assert (exists l0, forall r,
               match dict_get "address" items with
               | VDict addr =>
                   match location_of addr with
                   | Some loc => set_hq_locations (hq_locations r ++ [loc]) r
                   | None => r
                   end
               | _ => r
               end = add_locations l0 r) as (l0 & H0).
    { destruct (dict_get "address" items) as [| | | | |addr];
        try (exists []; intros r; now rewrite add_locations_nil).
      destruct (location_of addr) as [loc|];
        [exists [loc]; reflexivity
        |exists []; intros r; now rewrite add_locations_nil]. }
    exists (l0 ++ ls). intros r.
    now rewrite walk_locations_dict, H0, H, add_locations_twice.
Qed.

Lemma harvest_locations_adds soup :
  exists ls, forall r, harvest_locations soup r = add_locations ls r.
Proof.
  unfold harvest_locations. apply fold_adds_locations.
  apply Forall_forall. intros script _. unfold harvest_location_script.
  destruct ((tag_text script =? EmptyString)
            || negb (PyStr.contains "address" (tag_text script)));
    [exists []; intros r; now rewrite add_locations_nil|].
  destruct (json_loads (tag_text script)) as [data|e];
    [apply walk_locations_adds
    |exists []; intros r; now rewrite add_locations_nil].
Qed.

(** *** Reading the returned mapping *)

Lemma lookup_filter (p : value -> bool) key (d : dict) :
  NoDup (map fst d) ->
  dict_lookup key (filter (fun kv => p (snd kv)) d) =
  match dict_lookup key d with
  | Some v => if p v then Some v else None
  | None => None
  end.
Proof.
  induction d as [|[k v] d IH]; intros Hnd; [reflexivity|].
  inversion Hnd as [|? ? Hk Hd]; subst. simpl.
  destruct (k =? key) eqn:Ek.
  - destruct (p v); simpl; [now rewrite Ek|].
    rewrite (IH Hd).
    apply String.eqb_eq in Ek. subst key.
    assert (dict_lookup k d = None) as ->; [|reflexivity].
    clear -Hk. induction d as [|[k' v'] d IH]; [reflexivity|].
    simpl in *. destruct (k' =? k) eqn:E.
    + apply String.eqb_eq in E. tauto.
    + apply IH. tauto.
  - destruct (p v); simpl; [rewrite Ek|]; apply (IH Hd).
Qed.

Lemma to_dict_data_keys r :
  map fst (to_dict_data r) =
  [ "about"; "company_status"; "funding_rounds"; "growth_stage";
    "employees"; "similarweb_traffic"; "social_links"; "investors";
    "industries"; "team"; "hq_locations"; "kpi_summary";
    "nearby_companies"; "related_companies"; "news"; "website_url";
    "linkedin_url"; "twitter_url"; "instagram_url"; "raw_source_url" ].
Proof. reflexivity. Qed.

Lemma to_dict_data_nodup r : NoDup (map fst (to_dict_data r)).
Proof.
  rewrite to_dict_data_keys.
  repeat (constructor; [simpl; intuition discriminate|]).
  constructor.
Qed.

(** A key of the returned mapping carries the attribute, and is there
    exactly when the attribute is neither [None] nor an empty container. *)
Lemma to_dict_lookup key r :
  dict_lookup key (to_dict r) =
  match dict_lookup key (to_dict_data r) with
  | Some v => if is_none_or_empty v then None else Some v
  | None => None
  end.
Proof.
  unfold to_dict.
  rewrite (lookup_filter (fun v => negb (is_none_or_empty v))).
  - destruct (dict_lookup key (to_dict_data r)) as [v|]; [|reflexivity].
    now destruct (is_none_or_empty v).
  - apply to_dict_data_nodup.
Qed.

(** *** Status and stage are written by one pass only *)

Lemma same_status_refl r : same_status r r.
Proof. now split. Qed.

Lemma same_status_trans r1 r2 r3 :
  same_status r1 r2 -> same_status r2 r3 -> same_status r1 r3.
Proof. intros [? ?] [? ?]. split; congruence. Qed.

Lemma assign_social_link_status href r :
  same_status r (_assign_social_link href r).
Proof.
  unfold _assign_social_link.
  repeat match goal with
         | |- context [if ?c then _ else _] => destruct c
         end; now split.
Qed.

Lemma assign_all_status hrefs r : same_status r (assign_all hrefs r).
Proof.
  unfold assign_all. revert r.
  induction hrefs as [|href hrefs IH]; intros r; simpl.
  - apply same_status_refl.
  - eapply same_status_trans; [apply assign_social_link_status | apply IH].
Qed.

Lemma populate_from_ld_json_status ld r r' :
  _populate_from_ld_json ld r = Return r' -> same_status r r'.
Proof.
  unfold _populate_from_ld_json.
  destruct (ld_employees ld) as [employees|e]; [|discriminate].
  cbn [bind]. intros H. injection H as <-.
  eapply same_status_trans; [|apply assign_all_status].
  repeat match goal with
         | |- context [match ?x with _ => _ end] => destruct x
         end; now split.
Qed.

Lemma populate_meta_fallbacks_status soup r :
  same_status r (_populate_meta_fallbacks soup r).
Proof.
  unfold _populate_meta_fallbacks.
  repeat match goal with
         | |- context [match ?x with _ => _ end] => destruct x
         end; now split.
Qed.

Lemma populate_funding_status soup r r' :
  _populate_funding_and_investors soup r = Return r' -> same_status r r'.
Proof.
  unfold _populate_funding_and_investors.
  destruct (harvest_funding_adds soup) as (rs & ivs & ->).
  destruct (for_each _ dedup_round _) as [rounds|e]; [|discriminate].
  cbn [bind].
  destruct (for_each _ dedup_investor _) as [invs|e]; [|discriminate].
  cbn [bind]. intros H. injection H as <-. now split.
Qed.

Lemma populate_locations_status soup r r' :
  _populate_locations soup r = Return r' -> same_status r r'.
Proof.
  unfold _populate_locations.
  destruct (harvest_locations_adds soup) as (ls & ->).
  destruct (for_each _ dedup_location _) as [locs|e]; [|discriminate].
  cbn [bind]. intros H. injection H as <-. now split.
Qed.

(** *** No pass reads the source URL *)

Lemma assign_social_link_with_url u href r :
  _assign_social_link href (with_url u r) =
  with_url u (_assign_social_link href r).
Proof.
  unfold _assign_social_link.
  repeat match goal with
         | |- context [if ?c then _ else _] => destruct c
         end; reflexivity.
Qed.

Lemma assign_all_with_url u hrefs r :
  assign_all hrefs (with_url u r) = with_url u (assign_all hrefs r).
Proof.
  unfold assign_all. revert r.
  induction hrefs as [|href hrefs IH]; intros r; simpl; [reflexivity|].
  now rewrite assign_social_link_with_url, IH.
Qed.

Lemma populate_from_ld_json_with_url u ld r :
  _populate_from_ld_json ld (with_url u r) =
  (r' <- _populate_from_ld_json ld r ;; Return (with_url u r')).
Proof.
  unfold _populate_from_ld_json.
  destruct (ld_employees ld) as [employees|e]; [|reflexivity].
  cbn [bind]. rewrite <- assign_all_with_url. do 2 f_equal.
  repeat match goal with
         | |- context [match ?x with _ => _ end] => destruct x
         end; reflexivity.
Qed.

Lemma populate_meta_fallbacks_with_url u soup r :
  _populate_meta_fallbacks soup (with_url u r) =
  with_url u (_populate_meta_fallbacks soup r).
Proof.
  unfold _populate_meta_fallbacks. cbn [about with_url].
  repeat match goal with
         | |- context [match ?x with _ => _ end] => destruct x eqn:?
         end; try reflexivity; simpl in *; congruence.
Qed.

Lemma populate_status_and_stage_with_url u soup r :
  _populate_status_and_stage soup (with_url u r) =
  with_url u (_populate_status_and_stage soup r).
Proof.
  unfold _populate_status_and_stage. cbn [company_status with_url].
  repeat match goal with
         | |- context [match ?x with _ => _ end] => destruct x eqn:?
         end; try reflexivity; simpl in *; congruence.
Qed.

Lemma populate_funding_with_url u soup r :
  _populate_funding_and_investors soup (with_url u r) =
  (r' <- _populate_funding_and_investors soup r ;; Return (with_url u r')).
Proof.
  unfold _populate_funding_and_investors.
  destruct (harvest_funding_adds soup) as (rs & ivs & H). rewrite !H.
  cbn [funding_rounds add_harvest set_investors set_funding_rounds with_url].
  destruct (for_each _ dedup_round _) as [rounds|e]; [|reflexivity].
  cbn [bind investors set_funding_rounds].
  destruct (for_each _ dedup_investor _) as [invs|e]; reflexivity.
Qed.

Lemma populate_locations_with_url u soup r :
  _populate_locations soup (with_url u r) =
  (r' <- _populate_locations soup r ;; Return (with_url u r')).
Proof.
  unfold _populate_locations.
  destruct (harvest_locations_adds soup) as (ls & H). rewrite !H.
  cbn [hq_locations add_locations set_hq_locations with_url].
  destruct (for_each _ dedup_location _) as [locs|e]; reflexivity.
Qed.

End Frames.

(** ** Deduplicating loops *)

Section Dedup.

Variable key_of : dict -> result (option (list hkey)).

Lemma hkey_eqb_eq a b : hkey_eqb a b = true <-> a = b.
Proof.
  destruct a, b; simpl; split; intros H; try discriminate; try reflexivity.
  - apply Z.eqb_eq in H. now subst.
  - injection H as ->. apply Z.eqb_refl.
  - apply String.eqb_eq in H. now subst.
  - injection H as ->. apply String.eqb_refl.
Qed.

Lemma tuple_eqb_eq a b : tuple_eqb a b = true <-> a = b.
Proof.
  revert b. induction a as [|x a IH]; intros [|y b]; simpl;
    split; intros H; try discriminate; try reflexivity.
  - apply andb_true_iff in H as [Hx Ha].
    apply hkey_eqb_eq in Hx. apply IH in Ha. now subst.
  - injection H as -> ->. apply andb_true_iff. split.
    + now apply hkey_eqb_eq.
    + now apply IH.
Qed.

Lemma seen_mem_In key seen : seen_mem key seen = true <-> In key seen.
Proof.
  unfold seen_mem. rewrite existsb_exists. split.
  - intros (k & Hin & Heq). apply tuple_eqb_eq in Heq. now subst.
  - intros Hin. exists key. split; [exact Hin | now apply tuple_eqb_eq].
Qed.

(** The loop computes the first occurrences. *)
Lemma for_each_dedup l : forall seen unique,
  rmap snd (for_each l (dedup_step key_of) (seen, unique)) =
  rmap (app unique) (first_occurrences key_of seen l).
Proof.
  induction l as [|x l IH]; intros seen unique.
  - simpl. now rewrite app_nil_r.
  - cbn [for_each first_occurrences].
    change ((dedup_step key_of) x (seen, unique))
      with (k <- key_of x ;;
            match k with
            | None => Return (seen, unique)
            | Some key =>
                if seen_mem key seen then Return (seen, unique)
                else Return (key :: seen, unique ++ [x])
            end).
    destruct (key_of x) as [[key|]|e]; cbn [bind].
    + destruct (seen_mem key seen); cbn [bind]; [apply IH|].
      rewrite IH. unfold rmap.
      destruct (first_occurrences key_of (key :: seen) l) as [kept|e];
        cbn [bind]; [|reflexivity].
      now rewrite <- app_assoc.
    + apply IH.
    + reflexivity.
Qed.

Lemma first_occurrences_subseq l : forall seen kept,
  first_occurrences key_of seen l = Return kept -> subseq kept l.
Proof.
  induction l as [|x l IH]; intros seen kept; simpl.
  - intros H. injection H as <-. constructor.
  - destruct (key_of x) as [[key|]|e]; simpl; [| |discriminate].
    + destruct (seen_mem key seen).
      * intros H. apply subseq_skip. eapply IH, H.
      * destruct (first_occurrences key_of (key :: seen) l) as [kept'|e] eqn:E;
          simpl; [|discriminate].
        intros H. injection H as <-. apply subseq_keep. eapply IH, E.
    + intros H. apply subseq_skip. eapply IH, H.
Qed.

(** Every kept entry has a key, which is not in [seen]. *)
Lemma first_occurrences_keyed l : forall seen kept,
  first_occurrences key_of seen l = Return kept ->
  forall x, In x kept -> exists k, has_key key_of x k /\ ~ In k seen.
Proof.
  induction l as [|x l IH]; intros seen kept; simpl.
  - intros H. injection H as <-. intros y [].
  - destruct (key_of x) as [[key|]|e] eqn:Ex; simpl; [| |discriminate].
    + destruct (seen_mem key seen) eqn:Em; [apply IH|].
      destruct (first_occurrences key_of (key :: seen) l) as [kept'|e] eqn:E;
        simpl; [|discriminate].
      intros H. injection H as <-. intros y [<-|Hy].
      * exists key. split; [exact Ex|].
        intros Hin. apply seen_mem_In in Hin. congruence.
      * destruct (IH _ _ E y Hy) as (k & Hk & Hnot).
        exists k. split; [exact Hk|]. intros Hin. apply Hnot. now right.
    + apply IH.
Qed.

(** No two kept entries have the same key. *)
Lemma first_occurrences_nodup l : forall seen kept,
  first_occurrences key_of seen l = Return kept -> NoDup (map key_of kept).
Proof.
  induction l as [|x l IH]; intros seen kept; simpl.
  - intros H. injection H as <-. constructor.
  - destruct (key_of x) as [[key|]|e] eqn:Ex; simpl; [| |discriminate].
    + destruct (seen_mem key seen) eqn:Em; [apply IH|].
      destruct (first_occurrences key_of (key :: seen) l) as [kept'|e] eqn:E;
        simpl; [|discriminate].
      intros H. injection H as <-. simpl. constructor; [|eapply IH, E].
      intros Hin. apply in_map_iff in Hin as (y & Hy & Hin).
      destruct (first_occurrences_keyed _ _ _ E y Hin) as (k & Hk & Hnot).
      apply Hnot. left. unfold has_key in Hk. congruence.
    + apply IH.
Qed.

(** Every key of the sequence that is not in [seen] is the key of a kept
    entry. *)
Lemma first_occurrences_covers l : forall seen kept,
  first_occurrences key_of seen l = Return kept ->
  forall x k, In x l -> has_key key_of x k ->
    In k seen \/ exists y, In y kept /\ has_key key_of y k.
Proof.
  induction l as [|x l IH]; intros seen kept; simpl.
  - intros _ y k [].
  - destruct (key_of x) as [[key|]|e] eqn:Ex; simpl; [| |discriminate].
    + destruct (seen_mem key seen) eqn:Em.
      * intros H y k [<-|Hy] Hk.
        -- left. unfold has_key in Hk. rewrite Ex in Hk.
           injection Hk as <-. now apply seen_mem_In.
        -- eapply IH; eauto.
      * destruct (first_occurrences key_of (key :: seen) l) as [kept'|e] eqn:E;
          simpl; [|discriminate].
        intros H. injection H as <-. intros y k [<-|Hy] Hk.
        -- right. exists x. split; [now left | exact Hk].
        -- destruct (IH _ _ E y k Hy Hk) as [[<-|Hin]|(z & Hz & Hzk)].
           ++ right. exists x. split; [now left | exact Ex].
           ++ now left.
           ++ right. exists z. split; [now right | exact Hzk].
    + intros H y k [<-|Hy] Hk.
      * unfold has_key in Hk. congruence.
      * eapply IH; eauto.
Qed.

(** The first entry with a given key is kept. *)
Lemma first_occurrences_first l1 x l2 k : forall seen kept,
  first_occurrences key_of seen (l1 ++ x :: l2) = Return kept ->
  has_key key_of x k -> ~ In k seen ->
  (forall y, In y l1 -> ~ has_key key_of y k) ->
  In x kept.
Proof.
  induction l1 as [|y l1 IH]; intros seen kept; simpl.
  - intros H Hk Hnot _. unfold has_key in Hk. rewrite Hk in H. simpl in H.
    destruct (seen_mem k seen) eqn:Em.
    + apply seen_mem_In in Em. contradiction.
    + destruct (first_occurrences key_of (k :: seen) l2) as [kept'|e];
        simpl in H; [|discriminate].
      injection H as <-. now left.
  - destruct (key_of y) as [[key|]|e] eqn:Ey; simpl; [| |discriminate].
    + destruct (seen_mem key seen) eqn:Em.
      * intros H Hk Hnot Hl1. eapply IH; eauto.
      * destruct (first_occurrences key_of (key :: seen) (l1 ++ x :: l2))
          as [kept'|e] eqn:E; simpl; [|discriminate].
        intros H Hk Hnot Hl1. injection H as <-. right.
        eapply IH; eauto.
        intros [<-|Hin]; [|contradiction].
        apply (Hl1 y); [now left | exact Ey].
    + intros H Hk Hnot Hl1. eapply IH; eauto.
Qed.

(** The loop ends without an exception when every key can be computed. *)
Lemma first_occurrences_returns l : forall seen,
  (forall x, In x l -> exists k, key_of x = Return k) ->
  exists kept, first_occurrences key_of seen l = Return kept.
Proof.
  induction l as [|x l IH]; intros seen Hall; simpl.
  - now exists [].
  - destruct (Hall x (or_introl eq_refl)) as [k ->]. simpl.
    assert (forall s, exists kept, first_occurrences key_of s l = Return kept)
      as Hrest by (intros s; apply IH; intros y Hy; apply Hall; now right).
    destruct k as [key|]; [|apply Hrest].
    destruct (seen_mem key seen); [apply Hrest|].
    destruct (Hrest (key :: seen)) as [kept ->]. simpl. eauto.
Qed.

Lemma for_each_dedup_result l st :
  for_each l (dedup_step key_of) ([], []) = Return st ->
  first_occurrences key_of [] l = Return (snd st).
Proof.
  intros H. pose proof (for_each_dedup l [] []) as E.
  rewrite H in E. simpl in E.
  destruct (first_occurrences key_of [] l) as [kept|e]; simpl in E;
    [congruence | discriminate].
Qed.

Lemma for_each_dedup_returns l :
  (forall x, In x l -> exists k, key_of x = Return k) ->
  exists st, for_each l (dedup_step key_of) ([], []) = Return st.
Proof.
  intros Hall. pose proof (for_each_dedup l [] []) as E.
  destruct (first_occurrences_returns l [] Hall) as [kept Hk].
  rewrite Hk in E. simpl in E.
  destruct (for_each l (dedup_step key_of) ([], [])) as [st|e]; simpl in E;
    [eauto | discriminate].
Qed.

End Dedup.

Section DedupPasses.

Context {lib : Library}.

Lemma for_each_ext {A S} (f g : A -> S -> result S) l :
  (forall x s, f x s = g x s) ->
  forall s, for_each l f s = for_each l g s.
Proof.
  intros Hfg. induction l as [|x l IH]; intros s; simpl; [reflexivity|].
  rewrite Hfg. destruct (g x s); simpl; [apply IH | reflexivity].
Qed.

Lemma dedup_round_step fr st :
  dedup_round fr st = dedup_step round_key_of fr st.
Proof.
  destruct st as [seen unique]. unfold dedup_round, dedup_step, round_key_of.
  unfold rmap. destruct (hash_tuple (round_key fr)); reflexivity.
Qed.

Lemma dedup_investor_step inv st :
  dedup_investor inv st = dedup_step investor_key_of inv st.
Proof.
  destruct st as [seen unique].
  unfold dedup_investor, dedup_step, investor_key_of.
  destruct (negb (truthy (dict_get "name" inv))); [reflexivity|].
  unfold rmap. destruct (hash_tuple [dict_get "name" inv]); reflexivity.
Qed.

Lemma dedup_location_step loc st :
  dedup_location loc st = dedup_step location_key_of loc st.
Proof.
  destruct st as [seen unique].
  unfold dedup_location, dedup_step, location_key_of.
  unfold rmap. destruct (hash_tuple (location_key loc)); reflexivity.
Qed.

(** The scan appends what each script block gives, block after block. *)
Lemma harvest_funding_by_script soup r :
  funding_rounds (harvest_funding soup r) =
    funding_rounds r ++
    flat_map rounds_in_script (find_all soup "script" (fun _ => true)) /\
  investors (harvest_funding soup r) =
    investors r ++
    flat_map investors_in_script (find_all soup "script" (fun _ => true)).
Proof.
  unfold harvest_funding. revert r.
  induction (find_all soup "script" (fun _ => true)) as [|script scripts IH];
    intros r; simpl.
  - now rewrite !app_nil_r.
  - destruct (IH (harvest_funding_script r script)) as [-> ->].
    unfold rounds_in_script, investors_in_script.
    destruct (harvest_funding_script_adds script) as (rs & ivs & H).
    rewrite !H. simpl. now rewrite !app_assoc.
Qed.

(** What the pass leaves in the two sequences: the first occurrences of
    what the scan harvested. *)
Lemma populate_funding_result soup r r' :
  _populate_funding_and_investors soup r = Return r' ->
  first_occurrences round_key_of []
    (funding_rounds (harvest_funding soup r))
    = Return (funding_rounds r') /\
  first_occurrences investor_key_of []
    (investors (harvest_funding soup r))
    = Return (investors r').
Proof.
  unfold _populate_funding_and_investors.
  rewrite (for_each_ext _ _ _ dedup_round_step).
  destruct (for_each _ (dedup_step round_key_of) _) as [rounds|e] eqn:Er;
    [|discriminate].
  cbn [bind]. rewrite (for_each_ext _ _ _ dedup_investor_step).
  destruct (for_each _ (dedup_step investor_key_of) _) as [invs|e] eqn:Ei;
    [|discriminate].
  cbn [bind]. intros H. injection H as <-.
  apply for_each_dedup_result in Er. apply for_each_dedup_result in Ei.
  split; [exact Er | exact Ei].
Qed.

(** The pass returns when every key it hashes is hashable. *)
Lemma populate_funding_returns soup r :
  (forall fr, In fr (funding_rounds (harvest_funding soup r)) ->
     exists k, hash_tuple (round_key fr) = Return k) ->
  (forall inv, In inv (investors (harvest_funding soup r)) ->
     truthy (dict_get "name" inv) = true ->
     exists k, py_hash (dict_get "name" inv) = Return k) ->
  exists r', _populate_funding_and_investors soup r = Return r'.
Proof.
  intros Hr Hi. unfold _populate_funding_and_investors.
  rewrite (for_each_ext _ _ _ dedup_round_step).
  destruct (for_each_dedup_returns round_key_of
              (funding_rounds (harvest_funding soup r))) as [st ->].
  { intros fr Hin. destruct (Hr fr Hin) as [k Hk].
    unfold round_key_of, rmap. rewrite Hk. simpl. eauto. }
  cbn [bind]. rewrite (for_each_ext _ _ _ dedup_investor_step).
  destruct (for_each_dedup_returns investor_key_of
              (investors
                 (set_funding_rounds (snd st) (harvest_funding soup r))))
    as [st' ->].
  { intros inv Hin. unfold investor_key_of.
    destruct (truthy (dict_get "name" inv)) eqn:Et; simpl; [|eauto].
    destruct (Hi inv Hin Et) as [k Hk]. unfold rmap. rewrite Hk.
    simpl. eauto. }
  cbn [bind]. eauto.
Qed.

End DedupPasses.

Lemma first_occurrences_defined key_of l : forall seen kept,
  first_occurrences key_of seen l = Return kept ->
  forall x, In x l -> exists k, key_of x = Return k.
Proof.
  induction l as [|x l IH]; intros seen kept; simpl.
  - intros _ y [].
  - destruct (key_of x) as [[key|]|e] eqn:Ex; simpl; [| |discriminate].
    + destruct (seen_mem key seen).
      * intros H y [<-|Hy]; [eauto | eapply IH; eauto].
      * destruct (first_occurrences key_of (key :: seen) l) as [kept'|e] eqn:E;
          simpl; [|discriminate].
        intros _ y [<-|Hy]; [eauto | eapply IH; eauto].
    + intros H y [<-|Hy]; [eauto | eapply IH; eauto].
Qed.

(** ** Keys and the fields they stand for *)

Lemma py_hash_hashable v h : py_hash v = Return h -> hashable v = true.
Proof. destruct v; cbn; (discriminate || reflexivity). Qed.

Lemma b2z_inj x y : Z.b2z x = Z.b2z y -> x = y.
Proof. destruct x, y; cbn; (reflexivity || discriminate). Qed.

Lemma py_hash_eq a b ha hb :
  py_hash a = Return ha -> py_hash b = Return hb ->
  (ha = hb <-> py_eq a b = true).
Proof.
  destruct a, b; cbn; intros Ha Hb; try discriminate;
    injection Ha as <-; injection Hb as <-;
    try (split; [discriminate|discriminate]);
    try (split; reflexivity).
  - rewrite Bool.eqb_true_iff. split.
    + intros H. injection H as H. now apply b2z_inj.
    + now intros ->.
  - rewrite Z.eqb_eq. split; [intros H; now injection H|now intros ->].
  - rewrite Z.eqb_eq. split; [intros H; now injection H|now intros ->].
  - rewrite Z.eqb_eq. split; [intros H; now injection H|now intros ->].
  - rewrite String.eqb_eq. split; [intros H; now injection H|now intros ->].
Qed.

Lemma round_key_of_fields x k :
  round_key_of x = Return (Some k) ->
  exists h1 h2 h3 h4,
    k = [h1; h2; h3; h4] /\
    py_hash (dict_get "year" x) = Return h1 /\
    py_hash (dict_get "round" x) = Return h2 /\
    py_hash (dict_get "amount" x) = Return h3 /\
    py_hash (dict_get "currency" x) = Return h4.
Proof.
  unfold round_key_of, rmap, round_key. cbn [hash_tuple].
  destruct (py_hash (dict_get "year" x)) as [h1|]; [|discriminate].
  destruct (py_hash (dict_get "round" x)) as [h2|]; [|discriminate].
  destruct (py_hash (dict_get "amount" x)) as [h3|]; [|discriminate].
  destruct (py_hash (dict_get "currency" x)) as [h4|]; [|discriminate].
  cbn. intros H. injection H as <-. now exists h1, h2, h3, h4.
Qed.

Lemma round_key_same x y kx ky :
  has_key round_key_of x kx -> has_key round_key_of y ky ->
  (kx = ky <-> same_round x y = true).
Proof.
  intros Hx Hy.
  destruct (round_key_of_fields _ _ Hx)
    as (a1 & a2 & a3 & a4 & -> & A1 & A2 & A3 & A4).
  destruct (round_key_of_fields _ _ Hy)
    as (b1 & b2 & b3 & b4 & -> & B1 & B2 & B3 & B4).
  unfold same_round. rewrite !andb_true_iff.
  rewrite <- (py_hash_eq _ _ _ _ A1 B1), <- (py_hash_eq _ _ _ _ A2 B2),
    <- (py_hash_eq _ _ _ _ A3 B3), <- (py_hash_eq _ _ _ _ A4 B4).
  split.
  - intros H. injection H as -> -> -> ->. auto.
  - intros [[[-> ->] ->] ->]. reflexivity.
Qed.

Lemma investor_key_of_fields x k :
  investor_key_of x = Return (Some k) ->
  truthy (dict_get "name" x) = true /\
  exists h, k = [h] /\ py_hash (dict_get "name" x) = Return h.
Proof.
  unfold investor_key_of, rmap.
  destruct (truthy (dict_get "name" x)); [|discriminate]. cbn.
  destruct (py_hash (dict_get "name" x)) as [h|]; [|discriminate].
  cbn. intros H. injection H as <-. split; [reflexivity|]. now exists h.
Qed.

Lemma investor_key_same x y kx ky :
  has_key investor_key_of x kx -> has_key investor_key_of y ky ->
  (kx = ky <-> same_name x y = true).
Proof.
  intros Hx Hy.
  destruct (investor_key_of_fields _ _ Hx) as (_ & a & -> & A).
  destruct (investor_key_of_fields _ _ Hy) as (_ & b & -> & B).
  unfold same_name. rewrite <- (py_hash_eq _ _ _ _ A B).
  split; [intros H; now injection H|now intros ->].
Qed.

Lemma location_key_of_fields x k :
  location_key_of x = Return (Some k) ->
  exists h1 h2,
    k = [h1; h2] /\
    py_hash (dict_get "address" x) = Return h1 /\
    py_hash (dict_get "country" x) = Return h2.
Proof.
  unfold location_key_of, rmap, location_key. cbn [hash_tuple].
  destruct (py_hash (dict_get "address" x)) as [h1|]; [|discriminate].
  destruct (py_hash (dict_get "country" x)) as [h2|]; [|discriminate].
  cbn. intros H. injection H as <-. now exists h1, h2.
Qed.

Lemma location_key_same x y kx ky :
  has_key location_key_of x kx -> has_key location_key_of y ky ->
  (kx = ky <-> same_location x y = true).
Proof.
  intros Hx Hy.
  destruct (location_key_of_fields _ _ Hx) as (a1 & a2 & -> & A1 & A2).
  destruct (location_key_of_fields _ _ Hy) as (b1 & b2 & -> & B1 & B2).
  unfold same_location. rewrite !andb_true_iff.
  rewrite <- (py_hash_eq _ _ _ _ A1 B1), <- (py_hash_eq _ _ _ _ A2 B2).
  split.
  - intros H. injection H as -> ->. auto.
  - intros [-> ->]. reflexivity.
Qed.

(** What a loop that removes duplicates leaves, in terms of a relation
    [same] that holds of two entries with keys exactly when the keys are
    equal. *)
Section DedupBySame.

Variable key_of : dict -> result (option (list hkey)).
Variable same : dict -> dict -> bool.
Hypothesis key_same : forall x y kx ky,
  has_key key_of x kx -> has_key key_of y ky ->
  (kx = ky <-> same x y = true).

Lemma nodup_map_apart {A B} (f : A -> B) l1 x l2 y l3 :
  NoDup (map f (l1 ++ x :: l2 ++ y :: l3)) -> f x <> f y.
Proof.
  rewrite map_app. cbn [map]. rewrite map_app. cbn [map].
  intros H. apply NoDup_remove_2 in H. intros E. apply H.
  apply in_or_app. right. apply in_or_app. right. left. now symmetry.
Qed.

Lemma first_occurrences_apart l kept :
  first_occurrences key_of [] l = Return kept ->
  forall l1 x l2 y l3, kept = l1 ++ x :: l2 ++ y :: l3 -> same x y = false.
Proof.
  intros Hfo l1 x l2 y l3 Hk.
  pose proof (first_occurrences_nodup _ _ _ _ Hfo) as Hnd.
  assert (In x kept) as Hx by (rewrite Hk; apply in_elt).
  assert (In y kept) as Hy
      by (rewrite Hk; apply in_or_app; right; right; apply in_elt).
  destruct (first_occurrences_keyed _ _ _ _ Hfo x Hx) as (kx & Hkx & _).
  destruct (first_occurrences_keyed _ _ _ _ Hfo y Hy) as (ky & Hky & _).
  rewrite Hk in Hnd. apply nodup_map_apart in Hnd.
  destruct (same x y) eqn:E; [|reflexivity].
  apply (key_same _ _ _ _ Hkx Hky) in E. subst ky.
  unfold has_key in *. congruence.
Qed.

Lemma first_occurrences_covers_same l kept :
  first_occurrences key_of [] l = Return kept ->
  forall x k, In x l -> has_key key_of x k ->
    exists y, In y kept /\ same y x = true.
Proof.
  intros Hfo x k Hin Hk.
  destruct (first_occurrences_covers _ _ _ _ Hfo x k Hin Hk)
    as [[]|(y & Hy & Hyk)].
  exists y. split; [exact Hy|]. now apply (key_same _ _ _ _ Hyk Hk).
Qed.

Lemma first_occurrences_first_same l1 x l2 k kept :
  first_occurrences key_of [] (l1 ++ x :: l2) = Return kept ->
  has_key key_of x k ->
  (forall y, In y l1 -> same y x = false) ->
  In x kept.
Proof.
  intros Hfo Hk Hfirst.
  eapply first_occurrences_first; eauto.
  intros y Hy Hyk. specialize (Hfirst y Hy).
  assert (same y x = true) by now apply (key_same _ _ _ _ Hyk Hk).
  congruence.
Qed.

End DedupBySame.

(** ** Funding rounds and investors in the output *)

Section Funding.

Context {lib : Library}.

(** C6.  When the funding pass returns, the rounds it leaves are the
    harvested rounds (those of all script blocks, block after block, in
    traversal order) without duplicates of the (year, round, amount,
    currency) key: they are a subsequence of the harvested ones, so order is
    preserved; no two of them have the same key; every harvested round has
    its key among them; and the first round with a given key is the one
    kept.  The key is the tuple of the four fields, compared as Python
    compares them: the four fields of every harvested round are hashable, no
    two kept rounds agree on all four, every harvested round agrees on all
    four with a kept one, and a harvested round that no earlier round agrees
    with on all four is kept. *)
Theorem funding_rounds_deduplicated soup r r' :
  _populate_funding_and_investors soup r = Return r' ->
  let harvested := funding_rounds (harvest_funding soup r) in
  let kept := funding_rounds r' in
  harvested =
    funding_rounds r ++
    flat_map rounds_in_script (find_all soup "script" (fun _ => true)) /\
  subseq kept harvested /\
  NoDup (map round_key_of kept) /\
  (forall fr, In fr harvested ->
     exists fr', In fr' kept /\ round_key_of fr' = round_key_of fr) /\
  (forall l1 fr l2, harvested = l1 ++ fr :: l2 ->
     (forall x, In x l1 -> round_key_of x <> round_key_of fr) ->
     In fr kept) /\
  (forall fr, In fr harvested ->
     hashable (dict_get "year" fr) && hashable (dict_get "round" fr)
     && hashable (dict_get "amount" fr) && hashable (dict_get "currency" fr)
     = true) /\
  (forall l1 x l2 y l3, kept = l1 ++ x :: l2 ++ y :: l3 ->
     same_round x y = false) /\
  (forall fr, In fr harvested ->
     exists fr', In fr' kept /\ same_round fr' fr = true) /\
  (forall l1 fr l2, harvested = l1 ++ fr :: l2 ->
     (forall x, In x l1 -> same_round x fr = false) ->
     In fr kept).
Proof.
  intros H harvested kept.
  destruct (populate_funding_result _ _ _ H) as [Hfo _].
  fold harvested kept in Hfo.
  assert (forall fr, In fr harvested ->
            exists k, round_key_of fr = Return (Some k)) as Hkey.
  { intros fr Hin.
    destruct (first_occurrences_defined _ _ _ _ Hfo fr Hin) as [k Hk].
    unfold round_key_of, rmap in *.
    destruct (hash_tuple (round_key fr)); simpl in *;
      [eauto | discriminate]. }
  split; [apply harvest_funding_by_script|].
  split; [eapply first_occurrences_subseq, Hfo|].
  split; [eapply first_occurrences_nodup, Hfo|].
  split.
  { intros fr Hin. destruct (Hkey fr Hin) as [k Hk].
    destruct (first_occurrences_covers _ _ _ _ Hfo fr k Hin Hk)
      as [[]|(y & Hy & Hyk)].
    exists y. split; [exact Hy|]. unfold has_key in Hyk. congruence. }
  split.
  { intros l1 fr l2 Hsplit Hfirst.
    assert (In fr harvested) as Hin
        by (rewrite Hsplit; apply in_elt).
    destruct (Hkey fr Hin) as [k Hk].
    rewrite Hsplit in Hfo.
    eapply first_occurrences_first; eauto.
    intros y Hy Hyk. apply (Hfirst y Hy). unfold has_key in Hyk.
    congruence. }
  split.
  { intros fr Hin. destruct (Hkey fr Hin) as [k Hk].
    destruct (round_key_of_fields _ _ Hk)
      as (h1 & h2 & h3 & h4 & _ & H1 & H2 & H3 & H4).
    now rewrite (py_hash_hashable _ _ H1), (py_hash_hashable _ _ H2),
      (py_hash_hashable _ _ H3), (py_hash_hashable _ _ H4). }
  split; [eapply first_occurrences_apart; [apply round_key_same|exact Hfo]|].
  split.
  - intros fr Hin. destruct (Hkey fr Hin) as [k Hk].
    eapply first_occurrences_covers_same;
      [apply round_key_same|exact Hfo|exact Hin|exact Hk].
  - intros l1 fr l2 Hsplit Hfirst.
    assert (In fr harvested) as Hin
        by (rewrite Hsplit; apply in_elt).
    destruct (Hkey fr Hin) as [k Hk].
    rewrite Hsplit in Hfo.
    eapply first_occurrences_first_same;
      [apply round_key_same|exact Hfo|exact Hk|exact Hfirst].
Qed.

(** C7.  When the funding pass returns, the investors it leaves are a
    subsequence of the harvested ones (those of all script blocks, in
    traversal order), so order is preserved; no two of them
    have the same name; each of them has a name that is neither missing nor
    empty; every harvested name that is not empty is the name of one of
    them; and the first investor with a given name is the one kept.  Names
    are compared as Python compares them: the truthy name of a harvested
    investor is hashable, no two kept investors have equal names, every
    harvested investor with a truthy name has the name of a kept one, and a
    harvested investor with a truthy name that no earlier investor has is
    kept. *)
Theorem investors_deduplicated soup r r' :
  _populate_funding_and_investors soup r = Return r' ->
  let harvested := investors (harvest_funding soup r) in
  let kept := investors r' in
  harvested =
    investors r ++
    flat_map investors_in_script (find_all soup "script" (fun _ => true)) /\
  subseq kept harvested /\
  NoDup (map investor_key_of kept) /\
  NoDup (map (dict_get "name") kept) /\
  (forall inv, In inv kept ->
     truthy (dict_get "name" inv) = true /\
     dict_get "name" inv <> VNone /\
     dict_get "name" inv <> VStr EmptyString) /\
  (forall inv, In inv harvested -> truthy (dict_get "name" inv) = true ->
     exists inv', In inv' kept /\
                  investor_key_of inv' = investor_key_of inv) /\
  (forall l1 inv l2, harvested = l1 ++ inv :: l2 ->
     truthy (dict_get "name" inv) = true ->
     (forall x, In x l1 -> investor_key_of x <> investor_key_of inv) ->
     In inv kept) /\
  (forall inv, In inv harvested -> truthy (dict_get "name" inv) = true ->
     hashable (dict_get "name" inv) = true) /\
  (forall l1 x l2 y l3, kept = l1 ++ x :: l2 ++ y :: l3 ->
     same_name x y = false) /\
  (forall inv, In inv harvested -> truthy (dict_get "name" inv) = true ->
     exists inv', In inv' kept /\ same_name inv' inv = true) /\
  (forall l1 inv l2, harvested = l1 ++ inv :: l2 ->
     truthy (dict_get "name" inv) = true ->
     (forall x, In x l1 -> same_name x inv = false) ->
     In inv kept).
Proof.
  intros H harvested kept.
  destruct (populate_funding_result _ _ _ H) as [_ Hfo].
  fold harvested kept in Hfo.
  assert (forall inv, In inv harvested ->
            truthy (dict_get "name" inv) = true ->
            exists k, investor_key_of inv = Return (Some k)) as Hkey.
  { intros inv Hin Ht.
    destruct (first_occurrences_defined _ _ _ _ Hfo inv Hin) as [k Hk].
    unfold investor_key_of, rmap in *. rewrite Ht in *. simpl in *.
    destruct (py_hash (dict_get "name" inv)); simpl in *;
      [eauto | discriminate]. }
  assert (NoDup (map investor_key_of kept)) as Hnd
      by (eapply first_occurrences_nodup, Hfo).
  assert (forall inv, In inv kept -> truthy (dict_get "name" inv) = true)
    as Htruthy.
  { intros inv Hin.
    destruct (first_occurrences_keyed _ _ _ _ Hfo inv Hin) as (k & Hk & _).
    unfold has_key, investor_key_of in Hk.
    destruct (truthy (dict_get "name" inv)); [reflexivity|].
    simpl in Hk. discriminate. }
  split; [apply harvest_funding_by_script|].
  split; [eapply first_occurrences_subseq, Hfo|].
  split; [exact Hnd|].
  split.
  { clear -Hnd. induction kept as [|inv kept IH]; simpl; [constructor|].
    inversion Hnd as [|? ? Hnot Hrest]; subst. constructor; [|auto].
    intros Hin. apply Hnot.
    apply in_map_iff in Hin as (y & Hy & Hin).
    apply in_map_iff. exists y. split; [|exact Hin].
    unfold investor_key_of. now rewrite Hy. }
  split.
  { intros inv Hin. pose proof (Htruthy inv Hin) as Ht.
    repeat split; [exact Ht| |]; intros E; rewrite E in Ht; discriminate. }
  split.
  { intros inv Hin Ht. destruct (Hkey inv Hin Ht) as [k Hk].
    destruct (first_occurrences_covers _ _ _ _ Hfo inv k Hin Hk)
      as [[]|(y & Hy & Hyk)].
    exists y. split; [exact Hy|]. unfold has_key in Hyk. congruence. }
  split.
  { intros l1 inv l2 Hsplit Ht Hfirst.
    assert (In inv harvested) as Hin
        by (rewrite Hsplit; apply in_elt).
    destruct (Hkey inv Hin Ht) as [k Hk].
    rewrite Hsplit in Hfo.
    eapply first_occurrences_first; eauto.
    intros y Hy Hyk. apply (Hfirst y Hy). unfold has_key in Hyk.
    congruence. }
  split.
  { intros inv Hin Ht. destruct (Hkey inv Hin Ht) as [k Hk].
    destruct (investor_key_of_fields _ _ Hk) as (_ & h & _ & Hh).
    eapply py_hash_hashable, Hh. }
  split;
    [eapply first_occurrences_apart; [apply investor_key_same|exact Hfo]|].
  split.
  - intros inv Hin Ht. destruct (Hkey inv Hin Ht) as [k Hk].
    eapply first_occurrences_covers_same;
      [apply investor_key_same|exact Hfo|exact Hin|exact Hk].
  - intros l1 inv l2 Hsplit Ht Hfirst.
    assert (In inv harvested) as Hin
        by (rewrite Hsplit; apply in_elt).
    destruct (Hkey inv Hin Ht) as [k Hk].
    rewrite Hsplit in Hfo.
    eapply first_occurrences_first_same;
      [apply investor_key_same|exact Hfo|exact Hk|exact Hfirst].
Qed.

End Funding.


Lemma funding_rounds_deduplicated_witness :
  let round_a := [("year", VInt 2021); ("round", VStr "A");
                  ("amount", VInt 5); ("currency", VStr "USD");
                  ("investors", VList [])] in
  let round_b := [("year", VInt 2022); ("round", VStr "B");
                  ("amount", VInt 10); ("currency", VStr "USD");
                  ("investors", VList [])] in
  let round_a' := [("year", VInt 2021); ("round", VStr "A");
                   ("amount", VInt 5); ("currency", VStr "USD");
                   ("investors",
                    VList [VDict [("name", VStr "Beta Ventures");
                                  ("path", VStr "beta")]])] in
  funding_rounds
    (@harvest_funding DedupSamples.dedup_lib DedupSamples.rounds_soup
       (CompanyRecord_init None))
  = [round_a; round_b; round_a'] /\
  @_populate_funding_and_investors DedupSamples.dedup_lib
    DedupSamples.rounds_soup (CompanyRecord_init None)
  = Return rounds_record /\
  funding_rounds rounds_record = [round_a; round_b] /\
  same_round round_a round_b = false /\
  same_round round_a round_a' = true /\
  (forall l1 x l2 y l3,
     funding_rounds rounds_record = l1 ++ x :: l2 ++ y :: l3 ->
     same_round x y = false) /\
  (forall fr,
     In fr (funding_rounds
              (@harvest_funding DedupSamples.dedup_lib
                 DedupSamples.rounds_soup (CompanyRecord_init None))) ->
     exists fr', In fr' (funding_rounds rounds_record) /\
                 same_round fr' fr = true).
Proof.
  cbv zeta.
  split; [vm_compute; reflexivity|]. split; [vm_compute; reflexivity|].
  split; [reflexivity|]. split; [reflexivity|]. split; [reflexivity|].
  pose proof (@funding_rounds_deduplicated DedupSamples.dedup_lib
                DedupSamples.rounds_soup (CompanyRecord_init None)
                rounds_record) as T.
  cbv zeta in T.
  destruct T as (_ & _ & _ & _ & _ & _ & Hapart & Hcover & _);
    [vm_compute; reflexivity|].
  split; [exact Hapart|exact Hcover].
Defined.

Lemma investors_deduplicated_witness :
  let acme := [("name", VStr "Acme Capital"); ("type", VNone);
               ("path", VStr "acme")] in
  let beta := [("name", VStr "Beta Ventures"); ("type", VNone);
               ("path", VNone)] in
  investors
    (@harvest_funding DedupSamples.dedup_lib DedupSamples.rounds_soup
       (CompanyRecord_init None))
  = [ acme; beta;
      [("name", VNone); ("type", VStr "fund"); ("path", VNone)];
      [("name", VStr "Acme Capital"); ("type", VNone);
       ("path", VStr "other")];
      [("name", VStr "Beta Ventures"); ("type", VNone);
       ("path", VStr "beta")] ] /\
  @_populate_funding_and_investors DedupSamples.dedup_lib
    DedupSamples.rounds_soup (CompanyRecord_init None)
  = Return rounds_record /\
  investors rounds_record = [acme; beta] /\
  same_name acme beta = false /\
  (forall l1 x l2 y l3,
     investors rounds_record = l1 ++ x :: l2 ++ y :: l3 ->
     same_name x y = false) /\
  (forall inv,
     In inv (investors
               (@harvest_funding DedupSamples.dedup_lib
                  DedupSamples.rounds_soup (CompanyRecord_init None))) ->
     truthy (dict_get "name" inv) = true ->
     exists inv', In inv' (investors rounds_record) /\
                  same_name inv' inv = true).
Proof.
  cbv zeta.
  split; [vm_compute; reflexivity|]. split; [vm_compute; reflexivity|].
  split; [reflexivity|]. split; [reflexivity|].
  pose proof (@investors_deduplicated DedupSamples.dedup_lib
                DedupSamples.rounds_soup (CompanyRecord_init None)
                rounds_record) as T.
  cbv zeta in T.
  destruct T as (_ & _ & _ & _ & _ & _ & _ & _ & Hapart & Hcover & _);
    [vm_compute; reflexivity|].
  split; [exact Hapart|exact Hcover].
Defined.

(** ** The pipeline, pass by pass *)

Section Pipeline.

Context {lib : Library}.

Lemma extract_company_data_passes html url :
  extract_company_data html url =
  let soup := BeautifulSoup html in
  r1 <- ld_pass soup (CompanyRecord_init url) ;;
  r5 <- _populate_funding_and_investors soup
          (_populate_status_and_stage soup
             (_populate_meta_fallbacks soup
                (_populate_social_links soup r1))) ;;
  r6 <- _populate_locations soup r5 ;;
  Return (to_dict r6).
Proof.
  unfold extract_company_data, ld_pass. cbv zeta.
  destruct (_extract_ld_organization (BeautifulSoup html)); reflexivity.
Qed.

Lemma extract_company_data_stages html url d :
  extract_company_data html url = Return d ->
  let soup := BeautifulSoup html in
  exists r1 r5 r6,
    ld_pass soup (CompanyRecord_init url) = Return r1 /\
    _populate_funding_and_investors soup
      (_populate_status_and_stage soup
         (_populate_meta_fallbacks soup
            (_populate_social_links soup r1))) = Return r5 /\
    _populate_locations soup r5 = Return r6 /\
    d = to_dict r6.
Proof.
  rewrite extract_company_data_passes. cbv zeta.
  destruct (ld_pass _ _) as [r1|e]; [|discriminate]. cbn [bind].
  destruct (_populate_funding_and_investors _ _) as [r5|e] eqn:E5;
    [|discriminate]. cbn [bind].
  destruct (_populate_locations _ _) as [r6|e] eqn:E6; [|discriminate].
  cbn [bind]. intros H. injection H as <-.
  exists r1, r5, r6. auto.
Qed.

Lemma ld_pass_status soup r r1 :
  ld_pass soup r = Return r1 -> same_status r r1.
Proof.
  unfold ld_pass.
  destruct (_extract_ld_organization soup) as [[ld|]|e]; cbn [bind];
    [| |discriminate].
  - destruct (truthy (VDict ld)).
    + apply populate_from_ld_json_status.
    + intros H. injection H as <-. apply same_status_refl.
  - intros H. injection H as <-. apply same_status_refl.
Qed.

Lemma ld_pass_with_url u soup r :
  ld_pass soup (with_url u r) =
  (r' <- ld_pass soup r ;; Return (with_url u r')).
Proof.
  unfold ld_pass.
  destruct (_extract_ld_organization soup) as [[ld|]|e]; cbn [bind];
    try reflexivity.
  destruct (truthy (VDict ld)); [|reflexivity].
  apply populate_from_ld_json_with_url.
Qed.

Lemma populate_status_and_stage_eq {D L S M : Type} soup
  (r : CompanyRecordOf D L S M) :
  company_status r = None -> growth_stage r = None ->
  let text := PyStr.lower (soup_text soup) in
  _populate_status_and_stage soup r =
  let r := set_company_status (Some (status_of_text text)) r in
  match first_stage text stage_keywords with
  | Some stage => set_growth_stage (Some stage) r
  | None => r
  end.
Proof.
  intros Hs Hg text. unfold _populate_status_and_stage, status_of_text.
  fold text. rewrite Hs. cbv zeta.
  destruct (PyStr.contains "closed" text || PyStr.contains "defunct" text);
    [|destruct (PyStr.contains "acquired" text);
      [|destruct (PyStr.contains "ipo" text)]];
    cbn [growth_stage set_company_status]; rewrite Hg; reflexivity.
Qed.

(** What the status pass writes into a record that has neither. *)
Lemma populate_status_and_stage_fresh soup (r : CompanyRecord) :
  company_status r = None -> growth_stage r = None ->
  let text := PyStr.lower (soup_text soup) in
  company_status (_populate_status_and_stage soup r)
    = Some (status_of_text text) /\
  growth_stage (_populate_status_and_stage soup r)
    = first_stage text stage_keywords.
Proof.
  intros Hs Hg text. unfold _populate_status_and_stage, status_of_text.
  fold text. rewrite Hs.
  destruct (PyStr.contains "closed" text || PyStr.contains "defunct" text);
    [|destruct (PyStr.contains "acquired" text);
      [|destruct (PyStr.contains "ipo" text)]];
    cbn [growth_stage set_company_status]; rewrite Hg;
    destruct (first_stage text stage_keywords); split;
    try reflexivity; exact Hg.
Qed.

(** The status and the stage of the returned mapping are those of the
    visible text. *)
Lemma extract_company_data_status html url d :
  extract_company_data html url = Return d ->
  let text := PyStr.lower (soup_text (BeautifulSoup html)) in
  dict_lookup "company_status" d = Some (VStr (status_of_text text)) /\
  dict_lookup "growth_stage" d =
    match first_stage text stage_keywords with
    | Some stage => Some (VStr stage)
    | None => None
    end.
Proof.
  intros H text.
  destruct (extract_company_data_stages _ _ _ H)
    as (r1 & r5 & r6 & H1 & H5 & H6 & ->).
  apply ld_pass_status in H1 as [H1s H1g]. simpl in H1s, H1g.
  pose proof (assign_all_status (anchor_hrefs (BeautifulSoup html)) r1)
    as [H2s H2g].
  fold (_populate_social_links (BeautifulSoup html) r1) in H2s, H2g.
  pose proof (populate_meta_fallbacks_status (BeautifulSoup html)
                (_populate_social_links (BeautifulSoup html) r1))
    as [H3s H3g].
  destruct (populate_status_and_stage_fresh (BeautifulSoup html)
              (_populate_meta_fallbacks (BeautifulSoup html)
                 (_populate_social_links (BeautifulSoup html) r1)))
    as [H4s H4g]; [congruence | congruence |].
  apply populate_funding_status in H5 as [H5s H5g].
  apply populate_locations_status in H6 as [H6s H6g].
  fold text in H4s, H4g.
  rewrite !to_dict_lookup. cbn [dict_lookup to_dict_data String.eqb
                                  Ascii.eqb Bool.eqb].
  rewrite H6s, H5s, H4s, H6g, H5g, H4g.
  split; [reflexivity|].
  now destruct (first_stage text stage_keywords).
Qed.

End Pipeline.

(** ** Status and stage of the visible text *)

Section StatusAndStage.

Context {lib : Library}.

(** C9.  The status keywords are matched as substrings of the lower-cased
    visible text: whenever the extraction returns and that text contains
    "closed" anywhere, also inside a longer word, the status of the
    returned record is "closed". *)
Theorem closed_is_matched_as_substring html url d :
  extract_company_data html url = Return d ->
  PyStr.contains "closed" (PyStr.lower (soup_text (BeautifulSoup html)))
    = true ->
  dict_lookup "company_status" d = Some (VStr "closed").
Proof.
  intros H Hc.
  destruct (extract_company_data_status _ _ _ H) as [Hs _].
  rewrite Hs. unfold status_of_text. now rewrite Hc.
Qed.

(** The stage loop never reaches its "pre-seed" pair: a text that contains
    "pre-seed" contains "seed", which comes first in the list. *)
Lemma first_stage_pre_seed text :
  PyStr.contains "pre-seed" text = true ->
  first_stage text stage_keywords = Some "seed".
Proof.
  intros H. unfold stage_keywords. cbn [first_stage].
  now rewrite (contains_piece "pre-" "seed" EmptyString text H).
Qed.

Lemma first_stage_never_pre_seed text :
  first_stage text stage_keywords <> Some "pre-seed".
Proof.
  unfold stage_keywords. cbn [first_stage].
  destruct (PyStr.contains "seed" text) eqn:Eseed; [discriminate|].
  repeat match goal with
         | |- (if ?c then _ else _) <> _ =>
             let E := fresh "E" in destruct c eqn:E; try discriminate
         end.
  match goal with
  | Hp : PyStr.contains "pre-seed" text = true |- _ =>
      apply (contains_piece "pre-" "seed" EmptyString) in Hp; congruence
  end.
Qed.

(** C3.  The code scans the pairs in the order seed, series a, series b,
    series c, series d, pre-seed, early stage, late stage, scaleup: for a
    visible text that contains "pre-seed" the resolved stage is "seed", and
    no text at all resolves to "pre-seed". *)
Theorem pre_seed_text_resolves_to_seed html url d :
  extract_company_data html url = Return d ->
  (PyStr.contains "pre-seed" (PyStr.lower (soup_text (BeautifulSoup html)))
     = true ->
   dict_lookup "growth_stage" d = Some (VStr "seed")) /\
  dict_lookup "growth_stage" d <> Some (VStr "pre-seed").
Proof.
  intros H.
  destruct (extract_company_data_status _ _ _ H) as [_ Hg].
  rewrite Hg. split.
  - intros Hp. now rewrite (first_stage_pre_seed _ Hp).
  - pose proof (first_stage_never_pre_seed
                  (PyStr.lower (soup_text (BeautifulSoup html)))) as Hn.
    destruct (first_stage _ stage_keywords) as [stage|]; [|discriminate].
    intros E. apply Hn. congruence.
Qed.

End StatusAndStage.

Lemma closed_is_matched_as_substring_witness :
  @extract_company_data Samples.sample_lib Samples.disclosed_page None
    = Return [("company_status", VStr "closed")] /\
  dict_lookup "company_status" [("company_status", VStr "closed")]
    = Some (VStr "closed").
Proof.
  split; [vm_compute; reflexivity|].
  apply (@closed_is_matched_as_substring Samples.sample_lib
           Samples.disclosed_page None);
    vm_compute; reflexivity.
Defined.

Lemma pre_seed_text_resolves_to_seed_witness :
  let d := [("company_status", VStr "operational");
            ("growth_stage", VStr "seed")] in
  @extract_company_data Samples.sample_lib Samples.pre_seed_page None
    = Return d /\
  dict_lookup "growth_stage" d = Some (VStr "seed").
Proof.
  split; [vm_compute; reflexivity|].
  apply (@pre_seed_text_resolves_to_seed Samples.sample_lib
           Samples.pre_seed_page None);
    vm_compute; reflexivity.
Defined.

(** ** The accepted JSON-LD types *)

Lemma any_type_matches_company types :
  Forall (fun t => exists s, t = VStr s /\ PyStr.lower s = "company") types ->
  any_type_matches types = Return false.
Proof.
  induction 1 as [|t types (s & -> & Hs) _ IH]; simpl; [reflexivity|].
  rewrite Hs. exact IH.
Qed.

(** C2.  The list branch of the type test leaves "company" out: a block
    whose type is a list of entries that are "company" in any letter case,
    such as [["Company"]], is not accepted, while a block typed by such a
    string is. *)
Theorem company_in_a_type_list_is_rejected (obj obj' : dict) types name :
  dict_get "@type" obj = VList types ->
  Forall (fun t => exists s, t = VStr s /\ PyStr.lower s = "company") types ->
  dict_get "@type" obj' = VStr name ->
  PyStr.lower name = "company" ->
  first_org [obj] = Return None /\ first_org [obj'] = Return (Some obj').
Proof.
  intros H Htypes H' Hname. unfold first_org, is_org.
  rewrite H, H', Hname, (any_type_matches_company _ Htypes). now split.
Qed.

Lemma company_in_a_type_list_is_rejected_witness :
  let obj := [("@type", VList [VStr "Company"]);
              ("description", VStr "Acme makes anvils")] in
  let obj' := [("@type", VStr "Company");
               ("description", VStr "Acme makes anvils")] in
  (@_extract_ld_organization Samples.sample_lib Samples.company_list_soup
     = Return None /\
   @_extract_ld_organization Samples.sample_lib Samples.company_str_soup
     = Return (Some obj')) /\
  first_org [obj] = Return None /\ first_org [obj'] = Return (Some obj').
Proof.
  split; [split; vm_compute; reflexivity|].
  apply (company_in_a_type_list_is_rejected _ _ [VStr "Company"] "Company");
    try reflexivity.
  constructor; [|constructor]. exists "Company". split; reflexivity.
Defined.

(** ** Social links *)

Section SocialLinks.

Lemma lookup_setdefault key key' (v : string) d :
  dict_lookup key' (dict_setdefault key v d) =
  match dict_lookup key' d with
  | Some v' => Some v'
  | None => if key =? key' then Some v else None
  end.
Proof.
  unfold dict_setdefault, dict_contains.
  destruct (dict_lookup key d) as [v0|] eqn:E.
  - destruct (dict_lookup key' d) as [v'|] eqn:E'; [reflexivity|].
    destruct (key =? key') eqn:Ek; [|reflexivity].
    apply String.eqb_eq in Ek. congruence.
  - clear E. induction d as [|[k w] d IH]; simpl.
    + reflexivity.
    + destruct (k =? key'); [reflexivity | exact IH].
Qed.

(** An href of a platform sets the platform's singular field to itself and
    leaves a link that is already in [social_links]. *)
Lemma assign_social_link_platform href p r :
  platform_of href = Some p ->
  let r' := _assign_social_link href r in
  (has_singular p -> singular_url p r' = Some href) /\
  dict_lookup p (social_links r') =
    match dict_lookup p (social_links r) with
    | Some first => Some first
    | None => Some href
    end.
Proof.
  unfold platform_of, _assign_social_link.
  repeat match goal with
         | |- context [if ?c then _ else _] => destruct c
         end; intros H; try discriminate; injection H as <-;
    cbn [social_links set_social_links set_linkedin_url set_twitter_url
           set_instagram_url];
    rewrite lookup_setdefault;
    (split;
     [intros [E|[E|E]]; try discriminate; reflexivity
     |destruct (dict_lookup _ (social_links r)); reflexivity]).
Qed.

(** Any href leaves a link that is already in [social_links]. *)
Lemma assign_social_link_keeps href p first r :
  dict_lookup p (social_links r) = Some first ->
  dict_lookup p (social_links (_assign_social_link href r)) = Some first.
Proof.
  intros H. unfold _assign_social_link.
  repeat match goal with
         | |- context [if ?c then _ else _] => destruct c
         end;
    cbn [social_links set_social_links set_linkedin_url set_twitter_url
           set_instagram_url];
    rewrite ?lookup_setdefault, H; reflexivity.
Qed.

Lemma assign_all_keeps hrefs p first : forall r,
  dict_lookup p (social_links r) = Some first ->
  dict_lookup p (social_links (assign_all hrefs r)) = Some first.
Proof.
  unfold assign_all.
  induction hrefs as [|href hrefs IH]; intros r H; simpl; [exact H|].
  apply IH. now apply assign_social_link_keeps.
Qed.

Lemma assign_all_snoc hrefs href r :
  assign_all (hrefs ++ [href]) r =
  _assign_social_link href (assign_all hrefs r).
Proof. unfold assign_all. now rewrite fold_left_app. Qed.

(** C4.  Each href of a platform overwrites the platform's singular field,
    while [social_links] keeps the first: after the classifier is fed
    [first], any hrefs, and then [last], two hrefs of one of the three
    platforms, on a record with no link for that platform yet, the singular
    field is [last] and the link under the platform's key is [first]. *)
Theorem singular_field_takes_the_last_href p first middle last r :
  has_singular p ->
  platform_of first = Some p ->
  platform_of last = Some p ->
  dict_lookup p (social_links r) = None ->
  let r' := assign_all (first :: middle ++ [last]) r in
  singular_url p r' = Some last /\
  dict_lookup p (social_links r') = Some first.
Proof.
  intros Hp Hfirst Hlast Hnone r'. subst r'.
  change (first :: middle ++ [last]) with ((first :: middle) ++ [last]).
  rewrite assign_all_snoc.
  destruct (assign_social_link_platform last p
              (assign_all (first :: middle) r) Hlast) as [Hs Hl].
  split; [now apply Hs|]. rewrite Hl.
  assert (dict_lookup p (social_links (assign_all (first :: middle) r))
          = Some first) as ->; [|reflexivity].
  change (assign_all (first :: middle) r)
    with (assign_all middle (_assign_social_link first r)).
  apply assign_all_keeps.
  destruct (assign_social_link_platform first p r Hfirst) as [_ Hl'].
  now rewrite Hl', Hnone.
Qed.

End SocialLinks.

Lemma singular_field_takes_the_last_href_witness :
  let first := "https://www.linkedin.com/company/acme" in
  let last := "https://www.linkedin.com/in/founder" in
  let r' := assign_all [first; last] (CompanyRecord_init None) in
  linkedin_url r' = Some last /\
  dict_lookup "linkedin" (social_links r') = Some first.
Proof.
  apply (singular_field_takes_the_last_href "linkedin"
           "https://www.linkedin.com/company/acme" []
           "https://www.linkedin.com/in/founder" (CompanyRecord_init None));
    try reflexivity.
  left. reflexivity.
Defined.

(** The same on a page with two LinkedIn anchors. *)
Example two_linkedin_anchors :
  @extract_company_data Samples.sample_lib Samples.two_linkedin_page None
  = Return
      [ ("company_status", VStr "operational");
        ("social_links",
         VDict [("linkedin", VStr "https://www.linkedin.com/company/acme")]);
        ("linkedin_url", VStr "https://www.linkedin.com/in/founder") ].
Proof. vm_compute. reflexivity. Qed.

(** ** Exceptions, and the page with nothing to find *)

Section Exceptions.

Context {lib : Library}.

(** C1.  The extraction can raise: when the first JSON-LD script of the
    page parses to an object whose type is a list that starts with an
    entry that is not a string, [extract_company_data] raises
    [AttributeError] (the entry has no [lower]). *)
Theorem non_string_type_entry_raises html url script rest obj v types :
  find_all (BeautifulSoup html) "script"
    (attr_is "type" "application/ld+json") = script :: rest ->
  tag_text script <> EmptyString ->
  json_loads (tag_text script) = Return (VDict obj) ->
  dict_get "@type" obj = VList (v :: types) ->
  (forall s, v <> VStr s) ->
  extract_company_data html url = Raise AttributeError.
Proof.
  intros Hscripts Htext Hjson Htype Hv.
  unfold extract_company_data, _extract_ld_organization.
  rewrite Hscripts. cbn [ld_scan].
  apply String.eqb_neq in Htext. rewrite Htext, Hjson.
  cbn [candidates_of first_org]. unfold is_org. rewrite Htype.
  destruct v; try reflexivity. now elim (Hv s).
Qed.

Lemma assign_social_link_none href r :
  platform_of href = None -> _assign_social_link href r = r.
Proof.
  unfold platform_of, _assign_social_link.
  repeat match goal with
         | |- context [if ?c then _ else _] => destruct c
         end; intros H; try discriminate; reflexivity.
Qed.

Lemma assign_all_none hrefs r :
  Forall (fun href => platform_of href = None) hrefs ->
  assign_all hrefs r = r.
Proof.
  unfold assign_all. induction 1 as [|href hrefs Hh _ IH]; simpl;
    [reflexivity|].
  now rewrite assign_social_link_none.
Qed.

Lemma harvest_funding_unparsable scripts r :
  Forall (fun script =>
            tag_text script = EmptyString \/
            exists e, json_loads (tag_text script) = Raise e) scripts ->
  fold_left harvest_funding_script scripts r = r.
Proof.
  induction 1 as [|script scripts Hs _ IH]; simpl; [reflexivity|].
  rewrite <- IH at 2. f_equal. unfold harvest_funding_script.
  destruct Hs as [->|[e ->]]; [reflexivity|].
  now repeat match goal with
             | |- context [if ?c then _ else _] => destruct c
             end.
Qed.

Lemma harvest_locations_unparsable scripts r :
  Forall (fun script =>
            tag_text script = EmptyString \/
            exists e, json_loads (tag_text script) = Raise e) scripts ->
  fold_left harvest_location_script scripts r = r.
Proof.
  induction 1 as [|script scripts Hs _ IH]; simpl; [reflexivity|].
  rewrite <- IH at 2. f_equal. unfold harvest_location_script.
  destruct Hs as [->|[e ->]]; [reflexivity|].
  now repeat match goal with
             | |- context [if ?c then _ else _] => destruct c
             end.
Qed.

(** On a page with no recognizable data the extraction returns, and the
    record has two keys: the default status and the caller's URL. *)
Lemma bare_page_minimal_record html u :
  no_recognizable_data (BeautifulSoup html) ->
  extract_company_data html (Some u) =
  Return [ ("company_status", VStr "operational");
           ("raw_source_url", VStr u) ].
Proof.
  intros (Hld & Hsocial & Hdesc & Hog & Hcanon & Hurl & Hstatus & Hstage
          & Hscripts).
  rewrite extract_company_data_passes. cbv zeta.
  unfold ld_pass. rewrite Hld. cbn [bind].
  unfold _populate_social_links. rewrite (assign_all_none _ _ Hsocial).
  unfold _populate_meta_fallbacks. simpl.
  rewrite Hdesc, Hog, Hcanon, Hurl.
  rewrite populate_status_and_stage_eq by reflexivity. cbv zeta.
  rewrite Hstatus, Hstage.
  unfold _populate_funding_and_investors, harvest_funding.
  rewrite (harvest_funding_unparsable _ _ Hscripts). simpl.
  unfold _populate_locations, harvest_locations.
  rewrite (harvest_locations_unparsable _ _ Hscripts).
  reflexivity.
Qed.

End Exceptions.

Lemma non_string_type_entry_raises_witness :
  @extract_company_data Samples.sample_lib Samples.numeric_type_page
    (Some "https://example.com/acme")
  = Raise AttributeError.
Proof.
  apply (@non_string_type_entry_raises Samples.sample_lib
           Samples.numeric_type_page (Some "https://example.com/acme")
           (Samples.ld_script Samples.numeric_type_json) []
           [("@type", VList [VInt 1])] (VInt 1) []);
    try (vm_compute; reflexivity); discriminate.
Defined.

(** The page of the repository's test has no recognizable data. *)
Example empty_page_minimal_record :
  @extract_company_data Samples.sample_lib Samples.empty_page
    (Some "https://example.com/empty")
  = Return [ ("company_status", VStr "operational");
             ("raw_source_url", VStr "https://example.com/empty") ].
Proof.
  apply (@bare_page_minimal_record Samples.sample_lib).
  repeat split; try (vm_compute; reflexivity); vm_compute; constructor.
Qed.

(** ** The returned mapping *)

(** C5, as stated, fails: a harvested funding round keeps its unset keys as
    [None] and its missing investors as an empty list, inside the returned
    mapping. *)
Lemma nested_values_are_not_cleaned :
  @extract_company_data Samples.sample_lib Samples.amount_only_page
    (Some "https://example.com/acme")
  = Return
      [ ("company_status", VStr "operational");
        ("funding_rounds",
         VList [VDict [("year", VNone); ("round", VNone);
                       ("amount", VInt 5); ("currency", VNone);
                       ("investors", VList [])]]);
        ("raw_source_url", VStr "https://example.com/acme") ] /\
  forallb (fun kv => set_at_every_depth (snd kv))
    [ ("company_status", VStr "operational");
      ("funding_rounds",
       VList [VDict [("year", VNone); ("round", VNone);
                     ("amount", VInt 5); ("currency", VNone);
                     ("investors", VList [])]]);
      ("raw_source_url", VStr "https://example.com/acme") ] = false.
Proof. split; vm_compute; reflexivity. Qed.

Section ReturnedMapping.

Context {lib : Library}.

Lemma status_of_text_cases text :
  In (status_of_text text) ["operational"; "closed"; "acquired"; "public"].
Proof.
  unfold status_of_text.
  repeat match goal with
         | |- context [if ?c then _ else _] => destruct c
         end; simpl; tauto.
Qed.

Lemma to_dict_values_set r k v :
  In (k, v) (to_dict r) -> is_none_or_empty v = false.
Proof.
  unfold to_dict. intros Hin. apply filter_In in Hin as [_ Hv].
  cbn [snd] in Hv. now apply negb_true_iff in Hv.
Qed.

(** C5, amended.  Whenever the extraction returns, no key of the returned
    mapping carries [None], an empty list or an empty dict (an attribute
    that is unset or empty has no key), and the status is there, one of
    the four. *)
Theorem returned_values_are_set html url d :
  extract_company_data html url = Return d ->
  (forall k v, In (k, v) d ->
     v <> VNone /\ v <> VList [] /\ v <> VDict []) /\
  (exists status,
     dict_lookup "company_status" d = Some (VStr status) /\
     In status ["operational"; "closed"; "acquired"; "public"]).
Proof.
  intros H. split.
  - destruct (extract_company_data_stages _ _ _ H)
      as (r1 & r5 & r6 & _ & _ & _ & Hd).
    intros k v Hin. rewrite Hd in Hin.
    apply to_dict_values_set in Hin.
    repeat split; intros ->; discriminate.
  - destruct (extract_company_data_status _ _ _ H) as [Hs _].
    eexists. split; [exact Hs | apply status_of_text_cases].
Qed.

End ReturnedMapping.

Lemma returned_values_are_set_witness :
  exists status,
    dict_lookup "company_status"
      [ ("company_status", VStr "operational");
        ("funding_rounds",
         VList [VDict [("year", VNone); ("round", VNone);
                       ("amount", VInt 5); ("currency", VNone);
                       ("investors", VList [])]]);
        ("raw_source_url", VStr "https://example.com/acme") ]
    = Some (VStr status) /\
    In status ["operational"; "closed"; "acquired"; "public"].
Proof.
  apply (@returned_values_are_set Samples.sample_lib Samples.amount_only_page
           (Some "https://example.com/acme")).
  vm_compute. reflexivity.
Defined.

(** ** The source URL *)

Section SourceUrl.

Context {lib : Library}.

Lemma to_dict_with_url w r :
  to_dict (with_url w r) =
  to_dict (with_url None r) ++
  match w with
  | Some u => [("raw_source_url", VStr u)]
  | None => []
  end.
Proof.
  unfold to_dict.
  change (to_dict_data (with_url w r))
    with (removelast (to_dict_data r) ++ [("raw_source_url", of_opt w)]).
  change (to_dict_data (with_url None r))
    with (removelast (to_dict_data r) ++ [("raw_source_url", VNone)]).
  rewrite !filter_app. f_equal; [now rewrite app_nil_r|].
  now destruct w.
Qed.

Lemma to_dict_without_url r :
  ~ In "raw_source_url" (map fst (to_dict (with_url None r))).
Proof.
  unfold to_dict.
  change (to_dict_data (with_url None r))
    with (removelast (to_dict_data r) ++ [("raw_source_url", VNone)]).
  rewrite filter_app, app_nil_r. intros Hin.
  apply in_map_iff in Hin as ([k v] & Hk & Hin). simpl in Hk. subst k.
  apply filter_In in Hin as [Hin _].
  apply (in_map fst) in Hin.
  change (map fst (removelast (to_dict_data r)))
    with (removelast (map fst (to_dict_data r))) in Hin.
  rewrite to_dict_data_keys in Hin. simpl in Hin.
  intuition discriminate.
Qed.

Lemma extract_company_data_record html url :
  extract_company_data html url =
  (r <- extracted_record html url ;; Return (to_dict r)).
Proof.
  rewrite extract_company_data_passes. unfold extracted_record. cbv zeta.
  destruct (ld_pass _ _) as [r1|e]; [|reflexivity]. cbn [bind].
  destruct (_populate_funding_and_investors _ _) as [r5|e]; reflexivity.
Qed.

(** The passes do not read the URL: the record built for [w] is the record
    built for no URL, with [w] as its URL. *)
Lemma extracted_record_with_url html w :
  extracted_record html w =
  (r <- extracted_record html None ;; Return (with_url w r)).
Proof.
  unfold extracted_record. cbv zeta.
  change (CompanyRecord_init w) with (with_url w (CompanyRecord_init None)).
  rewrite ld_pass_with_url.
  destruct (ld_pass _ (CompanyRecord_init None)) as [r1|e]; [|reflexivity].
  cbn [bind]. unfold _populate_social_links.
  rewrite assign_all_with_url, populate_meta_fallbacks_with_url,
    populate_status_and_stage_with_url, populate_funding_with_url.
  destruct (_populate_funding_and_investors _ _) as [r5|e]; [|reflexivity].
  cbn [bind]. rewrite populate_locations_with_url.
  destruct (_populate_locations _ r5) as [r6|e]; reflexivity.
Qed.

Lemma with_url_twice w w' r : with_url w (with_url w' r) = with_url w r.
Proof. reflexivity. Qed.

(** C10.  Without a source URL the extraction returns exactly when it
    returns with one, the two mappings differ by the [raw_source_url] key
    only, and the mapping returned without a URL has no such key. *)
Theorem source_url_omitted_when_absent html :
  (forall u,
     extract_company_data html (Some u) =
     (d <- extract_company_data html None ;;
      Return (d ++ [("raw_source_url", VStr u)]))) /\
  (forall d,
     extract_company_data html None = Return d ->
     dict_lookup "raw_source_url" d = None /\
     ~ In "raw_source_url" (map fst d)).
Proof.
  assert (forall w,
            extract_company_data html w =
            (r <- extracted_record html None ;;
             Return (to_dict (with_url None r) ++
                     match w with
                     | Some u => [("raw_source_url", VStr u)]
                     | None => []
                     end))) as Hw.
  { intros w. rewrite extract_company_data_record,
      extracted_record_with_url.
    destruct (extracted_record html None) as [r|e]; [|reflexivity].
    cbn [bind]. now rewrite to_dict_with_url. }
  split.
  - intros u. rewrite (Hw (Some u)), (Hw None).
    destruct (extracted_record html None) as [r|e]; [|reflexivity].
    cbn [bind]. now rewrite app_nil_r.
  - intros d. rewrite (Hw None).
    destruct (extracted_record html None) as [r|e]; [|discriminate].
    cbn [bind]. rewrite app_nil_r. intros H. injection H as <-.
    pose proof (to_dict_without_url r) as Hnot. split; [|exact Hnot].
    destruct (dict_lookup "raw_source_url" (to_dict (with_url None r)))
      as [v|] eqn:E; [|reflexivity].
    exfalso. apply Hnot. clear Hnot.
    induction (to_dict (with_url None r)) as [|[k v'] l IH];
      [discriminate|].
    simpl in *. destruct (k =? "raw_source_url") eqn:Ek.
    + left. now apply String.eqb_eq.
    + right. now apply IH.
Qed.

End SourceUrl.

Lemma source_url_omitted_when_absent_witness :
  @extract_company_data Samples.sample_lib Samples.empty_page None
    = Return [("company_status", VStr "operational")] /\
  dict_lookup "raw_source_url" [("company_status", VStr "operational")]
    = None /\
  ~ In "raw_source_url" (map fst [("company_status", VStr "operational")]).
Proof.
  split; [vm_compute; reflexivity|].
  apply (@source_url_omitted_when_absent Samples.sample_lib
           Samples.empty_page).
  vm_compute. reflexivity.
Defined.

(** ** The store-level extractor refines the state-passing one *)

Section StoreFacts.

Lemma unchanged_below_refl base h : unchanged_below base h h.
Proof. now intros a _. Qed.

Lemma unchanged_below_trans base h1 h2 h3 :
  unchanged_below base h1 h2 -> unchanged_below base h2 h3 ->
  unchanged_below base h1 h3.
Proof. intros H12 H23 a Ha. now rewrite H23, H12. Qed.

Lemma map_put_nodup {A} (f : nat -> A) (c : A) (l : list nat) :
  forall i a,
  NoDup l -> nth_error l i = Some a ->
  map (fun a' => if Nat.eqb a' a then c else f a') l = list_set i c (map f l).
Proof.
  induction l as [|x l IH]; intros i a Hnd Hi; [now destruct i|].
  inversion Hnd as [|? ? Hx Hl]; subst.
  destruct i as [|i]; simpl in *.
  - injection Hi as ->. rewrite Nat.eqb_refl. f_equal.
    apply map_ext_in. intros y Hy.
    destruct (Nat.eqb y a) eqn:E; [|reflexivity].
    apply Nat.eqb_eq in E. now subst.
  - destruct (Nat.eqb x a) eqn:E.
    + apply Nat.eqb_eq in E. subst. apply nth_error_In in Hi. contradiction.
    + f_equal. now apply IH.
Qed.

Lemma map_new_fresh {A} (f : nat -> A) (c : A) n (l : list nat) :
  forall i,
  Forall (fun a => a < n) l -> i < length l ->
  map (fun a' => if Nat.eqb a' n then c else f a') (list_set i n l)
  = list_set i c (map f l).
Proof.
  assert (forall l, Forall (fun a => a < n) l ->
            map (fun a' => if Nat.eqb a' n then c else f a') l = map f l)
    as Hsame.
  { intros l0 Hl0. apply map_ext_in. intros y Hy.
    rewrite Forall_forall in Hl0. specialize (Hl0 y Hy).
    destruct (Nat.eqb y n) eqn:E; [|reflexivity].
    apply Nat.eqb_eq in E. lia. }
  induction l as [|x l IH]; intros i Hall Hi; simpl in Hi; [lia|].
  inversion Hall as [|? ? Hx Hl]; subst.
  destruct i as [|i]; simpl.
  - rewrite Nat.eqb_refl. f_equal. now apply Hsame.
  - destruct (Nat.eqb x n) eqn:E.
    + apply Nat.eqb_eq in E. lia.
    + f_equal. apply IH; [exact Hl | lia].
Qed.

Lemma list_set_nodup (n : nat) (l : list nat) : forall i,
  NoDup l -> ~ In n l -> NoDup (list_set i n l).
Proof.
  induction l as [|x l IH]; intros i Hnd Hn; [now destruct i|].
  inversion Hnd as [|? ? Hx Hl]; subst.
  assert (forall j y, In y (list_set j n l) -> y = n \/ In y l) as Hin.
  { clear. induction l as [|z l IH]; intros j y; [now destruct j|].
    destruct j as [|j]; simpl.
    - intros [<-|Hy]; auto.
    - intros [<-|Hy]; auto. destruct (IH j y Hy); auto. }
  destruct i as [|i]; simpl.
  - constructor; [|exact Hl]. intros Hin'. apply Hn. now right.
  - constructor.
    + intros Hx'. destruct (Hin i x Hx') as [->|Hx'']; [|contradiction].
      apply Hn. now left.
    + apply IH; [exact Hl|]. intros Hn'. apply Hn. now right.
Qed.

Lemma list_set_forall {A} (P : A -> Prop) x l : forall i,
  Forall P l -> P x -> Forall P (list_set i x l).
Proof.
  induction l as [|y l IH]; intros i Hl Hx; [now destruct i|].
  inversion Hl; subst. destruct i as [|i]; simpl; constructor; auto.
Qed.

(** What an object of a record holds. *)
Lemma models_get base h ro r i a c :
  models base h ro r ->
  nth_error (cells ro) i = Some a -> nth_error (contents r) i = Some c ->
  Store.cell_at h a = c.
Proof.
  intros (_ & Hmap & _ & _) Ha Hc. rewrite <- Hmap in Hc.
  rewrite nth_error_map, Ha in Hc. simpl in Hc. congruence.
Qed.

(** An object of a record changed in place. *)
Lemma models_put base h ro r i a c r' :
  models base h ro r ->
  nth_error (cells ro) i = Some a ->
  scalars r' = scalars r ->
  contents r' = list_set i c (contents r) ->
  models base (snd (Store.put a c h)) ro r' /\
  unchanged_below base h (snd (Store.put a c h)).
Proof.
  intros (Hs & Hmap & Hnd & Hall) Ha Hs' Hc. split.
  - repeat split.
    + congruence.
    + unfold Store.put. cbn [snd Store.cell_at].
      rewrite Hc, <- Hmap. now apply map_put_nodup.
    + exact Hnd.
    + exact Hall.
  - intros a' Ha'. simpl.
    destruct (Nat.eqb a' a) eqn:E; [|reflexivity].
    apply Nat.eqb_eq in E. subst a'.
    apply nth_error_In in Ha. rewrite Forall_forall in Hall.
    specialize (Hall a Ha). lia.
Qed.

(** A container attribute bound to a new object. *)
Lemma models_new base h ro r i c ro' r' :
  models base h ro r ->
  i < 10 ->
  scalars ro' = scalars ro ->
  cells ro' = list_set i (Store.next h) (cells ro) ->
  scalars r' = scalars r ->
  contents r' = list_set i c (contents r) ->
  models base (snd (Store.new c h)) ro' r' /\
  unchanged_below base h (snd (Store.new c h)).
Proof.
  intros (Hs & Hmap & Hnd & Hall) Hi Hso Hco Hsr Hcr.
  assert (Forall (fun a => a < Store.next h) (cells ro)) as Hlt.
  { eapply Forall_impl; [|exact Hall]. cbv beta. intros a Ha. lia. }
  assert (base <= Store.next h) as Hbase.
  { inversion Hall as [|a l Ha _]; subst. lia. }
  split.
  - repeat split.
    + congruence.
    + unfold Store.new. cbn [snd Store.cell_at].
      rewrite Hco, Hcr, <- Hmap. apply map_new_fresh; [exact Hlt|].
      exact Hi.
    + rewrite Hco. apply list_set_nodup; [exact Hnd|].
      intros Hin. rewrite Forall_forall in Hlt. specialize (Hlt _ Hin). lia.
    + rewrite Hco. unfold Store.new. cbn [snd Store.next].
      apply list_set_forall; [|lia].
      eapply Forall_impl; [|exact Hall]. cbv beta. intros a Ha. lia.
  - intros a Ha. simpl.
    destruct (Nat.eqb a (Store.next h)) eqn:E; [|reflexivity].
    apply Nat.eqb_eq in E. lia.
Qed.

(** A change of scalar attributes. *)
Lemma models_scalars base h ro r ro' r' :
  models base h ro r ->
  scalars ro' = scalars r' -> cells ro' = cells ro ->
  contents r' = contents r ->
  models base h ro' r'.
Proof.
  intros (Hs & Hmap & Hnd & Hall) Hs' Hc Hc'.
  repeat split; [exact Hs' | | |]; rewrite Hc; try rewrite Hc'; assumption.
Qed.

End StoreFacts.

Section Simulation.

Context {lib : Library}.

Lemma sim_ext base m m' f f' :
  (forall ro h, m ro h = m' ro h) -> (forall r, f r = f' r) ->
  sim base m f -> sim base m' f'.
Proof.
  intros Hm Hf H h ro r Hmod. destruct (H h ro r Hmod) as (h' & Hu & Hres).
  exists h'. split; [exact Hu|]. rewrite <- Hf.
  destruct (f r) as [r'|e].
  - destruct Hres as (ro' & Hrun & Hmod'). exists ro'. now rewrite <- Hm.
  - now rewrite <- Hm.
Qed.

Lemma sim_bind base m1 m2 f1 f2 :
  sim base m1 f1 -> sim base m2 f2 ->
  sim base (fun ro => Store.mbind (m1 ro) m2) (fun r => bind (f1 r) f2).
Proof.
  intros H1 H2 h ro r Hmod.
  destruct (H1 h ro r Hmod) as (h1 & Hu1 & Hres1).
  unfold Store.mbind. destruct (f1 r) as [r1|e]; cbn [bind].
  - destruct Hres1 as (ro1 & -> & Hmod1).
    destruct (H2 h1 ro1 r1 Hmod1) as (h2 & Hu2 & Hres2).
    exists h2. split; [eapply unchanged_below_trans; eauto | exact Hres2].
  - exists h1. split; [exact Hu1 | now rewrite Hres1].
Qed.

(** The same change of scalar attributes on both sides. *)
Lemma sim_scalars base (g : Store.RecordObj -> Store.RecordObj)
  (g' : CompanyRecord -> CompanyRecord) m f :
  (forall ro r, scalars ro = scalars r -> scalars (g ro) = scalars (g' r)) ->
  (forall ro, cells (g ro) = cells ro) ->
  (forall r, contents (g' r) = contents r) ->
  sim base m f ->
  sim base (fun ro => m (g ro)) (fun r => f (g' r)).
Proof.
  intros Hs Hc Hc' H h ro r Hmod. apply H.
  eapply models_scalars; eauto. apply Hs. apply Hmod.
Qed.

Lemma sim_ret base : sim base Store.ret Return.
Proof.
  intros h ro r Hmod. exists h. split; [apply unchanged_below_refl|].
  now exists ro.
Qed.

Lemma sim_for_all_in {A} base (items : list A) body step :
  Forall (fun x => sim base (body x) (fun r => Return (step r x))) items ->
  sim base (Store.for_all items body)
    (fun r => Return (fold_left step items r)).
Proof.
  induction 1 as [|x items Hx _ IH]; simpl.
  - apply sim_ret.
  - eapply sim_ext; [| |apply (sim_bind _ _ _ _ _ Hx IH)]; reflexivity.
Qed.

Lemma sim_for_all {A} base (items : list A) body step :
  (forall x, sim base (body x) (fun r => Return (step r x))) ->
  sim base (Store.for_all items body)
    (fun r => Return (fold_left step items r)).
Proof.
  intros Hbody. apply sim_for_all_in. apply Forall_forall. auto.
Qed.

(** [record.social_links.setdefault(key, v)] *)
Lemma sim_setdefault base key v :
  sim base
    (fun ro =>
       Store.mbind (Store.setdefault (social_links ro) key v)
         (fun _ => Store.ret ro))
    (fun r =>
       Return (set_social_links (dict_setdefault key v (social_links r)) r)).
Proof.
  intros h ro r Hmod.
  pose proof (models_get _ _ _ _ 1 _ _ Hmod eq_refl eq_refl) as Hget.
  destruct (models_put _ _ _ _ 1 (social_links ro)
              (Store.Links (dict_setdefault key v (social_links r)))
              (set_social_links (dict_setdefault key v (social_links r)) r)
              Hmod eq_refl eq_refl eq_refl) as [Hmod' Hu].
  eexists. split; [exact Hu|]. exists ro. split; [|exact Hmod'].
  unfold Store.mbind, Store.setdefault, Store.get_links, Store.ret.
  unfold Store.mbind. rewrite Hget. reflexivity.
Qed.

Lemma sim_assign_social_link base href :
  sim base (Store._assign_social_link href)
    (fun r => Return (_assign_social_link href r)).
Proof.
  unfold Store._assign_social_link, _assign_social_link. cbv zeta.
  repeat match goal with
         | |- context [if ?c then _ else _] => destruct c
         end;
    try apply sim_ret;
    try apply sim_setdefault.
  - apply (sim_scalars base (set_linkedin_url (Some href))
             (set_linkedin_url (Some href))
             (fun ro =>
                Store.mbind (Store.setdefault (social_links ro) "linkedin" href)
                  (fun _ => Store.ret ro))
             (fun r =>
                Return (set_social_links
                          (dict_setdefault "linkedin" href (social_links r))
                          r)));
      [intros ro r H; unfold scalars in *; cbn in *; congruence
      |reflexivity|reflexivity|apply sim_setdefault].
  - apply (sim_scalars base (set_twitter_url (Some href))
             (set_twitter_url (Some href))
             (fun ro =>
                Store.mbind (Store.setdefault (social_links ro) "twitter" href)
                  (fun _ => Store.ret ro))
             (fun r =>
                Return (set_social_links
                          (dict_setdefault "twitter" href (social_links r))
                          r)));
      [intros ro r H; unfold scalars in *; cbn in *; congruence
      |reflexivity|reflexivity|apply sim_setdefault].
  - apply (sim_scalars base (set_instagram_url (Some href))
             (set_instagram_url (Some href))
             (fun ro =>
                Store.mbind
                  (Store.setdefault (social_links ro) "instagram" href)
                  (fun _ => Store.ret ro))
             (fun r =>
                Return (set_social_links
                          (dict_setdefault "instagram" href (social_links r))
                          r)));
      [intros ro r H; unfold scalars in *; cbn in *; congruence
      |reflexivity|reflexivity|apply sim_setdefault].
Qed.

Lemma sim_assign_all base hrefs :
  sim base (Store.assign_all hrefs) (fun r => Return (assign_all hrefs r)).
Proof.
  unfold Store.assign_all, assign_all.
  apply (sim_for_all base hrefs Store._assign_social_link
           (fun record href => _assign_social_link href record)).
  apply sim_assign_social_link.
Qed.

(** [record.funding_rounds.append(x)], and the same for the investors and
    the locations. *)
Lemma sim_append_round base x :
  sim base
    (fun ro =>
       Store.mbind (Store.append (funding_rounds ro) x)
         (fun _ => Store.ret ro))
    (fun r => Return (set_funding_rounds (funding_rounds r ++ [x]) r)).
Proof.
  intros h ro r Hmod.
  pose proof (models_get _ _ _ _ 0 _ _ Hmod eq_refl eq_refl) as Hget.
  destruct (models_put _ _ _ _ 0 (funding_rounds ro)
              (Store.Dicts (funding_rounds r ++ [x]))
              (set_funding_rounds (funding_rounds r ++ [x]) r)
              Hmod eq_refl eq_refl eq_refl) as [Hmod' Hu].
  eexists. split; [exact Hu|]. exists ro. split; [|exact Hmod'].
  unfold Store.mbind, Store.append, Store.get_dicts, Store.ret.
  unfold Store.mbind. rewrite Hget. reflexivity.
Qed.

Lemma sim_append_investor base x :
  sim base
    (fun ro =>
       Store.mbind (Store.append (investors ro) x) (fun _ => Store.ret ro))
    (fun r => Return (set_investors (investors r ++ [x]) r)).
Proof.
  intros h ro r Hmod.
  pose proof (models_get _ _ _ _ 2 _ _ Hmod eq_refl eq_refl) as Hget.
  destruct (models_put _ _ _ _ 2 (investors ro)
              (Store.Dicts (investors r ++ [x]))
              (set_investors (investors r ++ [x]) r)
              Hmod eq_refl eq_refl eq_refl) as [Hmod' Hu].
  eexists. split; [exact Hu|]. exists ro. split; [|exact Hmod'].
  unfold Store.mbind, Store.append, Store.get_dicts, Store.ret.
  unfold Store.mbind. rewrite Hget. reflexivity.
Qed.

Lemma sim_append_location base x :
  sim base
    (fun ro =>
       Store.mbind (Store.append (hq_locations ro) x)
         (fun _ => Store.ret ro))
    (fun r => Return (set_hq_locations (hq_locations r ++ [x]) r)).
Proof.
  intros h ro r Hmod.
  pose proof (models_get _ _ _ _ 5 _ _ Hmod eq_refl eq_refl) as Hget.
  destruct (models_put _ _ _ _ 5 (hq_locations ro)
              (Store.Dicts (hq_locations r ++ [x]))
              (set_hq_locations (hq_locations r ++ [x]) r)
              Hmod eq_refl eq_refl eq_refl) as [Hmod' Hu].
  eexists. split; [exact Hu|]. exists ro. split; [|exact Hmod'].
  unfold Store.mbind, Store.append, Store.get_dicts, Store.ret.
  unfold Store.mbind. rewrite Hget. reflexivity.
Qed.

Lemma sim_append_rounds base frs :
  sim base (Store.append_rounds frs)
    (fun r => Return (append_rounds frs r)).
Proof.
  unfold Store.append_rounds, append_rounds.
  apply (sim_for_all base frs _
           (fun record fr =>
              match fr with
              | VDict fr =>
                  set_funding_rounds
                    (funding_rounds record ++ [clean_round fr]) record
              | _ => record
              end)).
  intros [| | | | |fr]; try apply sim_ret. apply sim_append_round.
Qed.

Lemma sim_append_investors base invs :
  sim base (Store.append_investors invs)
    (fun r => Return (append_investors invs r)).
Proof.
  unfold Store.append_investors, append_investors.
  apply (sim_for_all base invs _
           (fun record inv =>
              match inv with
              | VDict inv =>
                  set_investors (investors record ++ [clean_investor inv])
                    record
              | _ => record
              end)).
  intros [| | | | |inv]; try apply sim_ret. apply sim_append_investor.
Qed.

Lemma mbind_cong {A B} (m : Store.M A) (k k' : A -> Store.M B) h :
  (forall a h', k a h' = k' a h') ->
  Store.mbind m k h = Store.mbind m k' h.
Proof.
  intros Hk. unfold Store.mbind. destruct (m h) as [[a|e] h'];
    [apply Hk | reflexivity].
Qed.

(** The store-level walks, as loops over the children. *)
Lemma store_walk_funding_dict items ro h :
  Store._walk_for_funding_and_investors (VDict items) ro h =
  Store.mbind
    (match dict_lookup "funding_rounds" items with
     | Some (VList frs) => Store.append_rounds frs ro
     | _ => Store.ret ro
     end)
    (fun ro =>
       Store.mbind
         (match dict_lookup "investors" items with
          | Some (VList invs) => Store.append_investors invs ro
          | _ => Store.ret ro
          end)
         (Store.for_all items
            (fun kv ro =>
               Store._walk_for_funding_and_investors (snd kv) ro))) h.
Proof.
  cbn [Store._walk_for_funding_and_investors].
  apply mbind_cong. intros ro1 h1. apply mbind_cong. clear.
  induction items as [|[k v] kvs IH]; intros ro h; [reflexivity|].
  cbn [Store.for_all snd]. apply mbind_cong. exact IH.
Qed.

Lemma store_walk_funding_list items ro h :
  Store._walk_for_funding_and_investors (VList items) ro h =
  Store.for_all items
    (fun v ro => Store._walk_for_funding_and_investors v ro) ro h.
Proof.
  cbn [Store._walk_for_funding_and_investors].
  revert ro h.
  induction items as [|v vs IH]; intros ro h; [reflexivity|].
  cbn [Store.for_all]. apply mbind_cong. exact IH.
Qed.

Lemma sim_walk_funding base node :
  sim base (Store._walk_for_funding_and_investors node)
    (fun r => Return (_walk_for_funding_and_investors node r)).
Proof.
  induction node as [| | | |items IH|items IH] using value_nested_ind;
    try apply sim_ret.
  - eapply sim_ext;
      [intros ro h; symmetry; apply store_walk_funding_list
      |intros r; rewrite walk_funding_list; reflexivity
      |].
    apply sim_for_all_in. exact IH.
  - eapply sim_ext;
      [intros ro h; symmetry; apply store_walk_funding_dict
      |intros r; rewrite walk_funding_dict; reflexivity
      |].
    eapply sim_ext; [reflexivity|intros r; reflexivity|].
    apply (sim_bind base _ _
             (fun r =>
                Return
                  match dict_lookup "funding_rounds" items with
                  | Some (VList frs) => append_rounds frs r
                  | _ => r
                  end)
             (fun r =>
                Return
                  (fold_left
                     (fun r kv => _walk_for_funding_and_investors (snd kv) r)
                     items
                     match dict_lookup "investors" items with
                     | Some (VList invs) => append_investors invs r
                     | _ => r
                     end))).
    + destruct (dict_lookup "funding_rounds" items) as [[| | | |frs|]|];
        try apply sim_ret. apply sim_append_rounds.
    + apply (sim_bind base _ _
               (fun r =>
                  Return
                    match dict_lookup "investors" items with
                    | Some (VList invs) => append_investors invs r
                    | _ => r
                    end)
               (fun r =>
                  Return
                    (fold_left
                       (fun r kv =>
                          _walk_for_funding_and_investors (snd kv) r)
                       items r))).
      * destruct (dict_lookup "investors" items) as [[| | | |invs|]|];
          try apply sim_ret. apply sim_append_investors.
      * apply sim_for_all_in. exact IH.
Qed.

Lemma store_walk_locations_dict items ro h :
  Store._walk_for_locations (VDict items) ro h =
  Store.mbind
    (match dict_get "address" items with
     | VDict addr =>
         match location_of addr with
         | Some loc =>
             Store.mbind (Store.append (hq_locations ro) loc)
               (fun _ => Store.ret ro)
         | None => Store.ret ro
         end
     | _ => Store.ret ro
     end)
    (Store.for_all items
       (fun kv ro => Store._walk_for_locations (snd kv) ro)) h.
Proof.
  cbn [Store._walk_for_locations].
  apply mbind_cong. clear.
  induction items as [|[k v] kvs IH]; intros ro h; [reflexivity|].
  cbn [Store.for_all snd]. apply mbind_cong. exact IH.
Qed.

Lemma store_walk_locations_list items ro h :
  Store._walk_for_locations (VList items) ro h =
  Store.for_all items (fun v ro => Store._walk_for_locations v ro) ro h.
Proof.
  cbn [Store._walk_for_locations].
  revert ro h.
  induction items as [|v vs IH]; intros ro h; [reflexivity|].
  cbn [Store.for_all]. apply mbind_cong. exact IH.
Qed.

Lemma sim_walk_locations base node :
  sim base (Store._walk_for_locations node)
    (fun r => Return (_walk_for_locations node r)).
Proof.
  induction node as [| | | |items IH|items IH] using value_nested_ind;
    try apply sim_ret.
  - eapply sim_ext;
      [intros ro h; symmetry; apply store_walk_locations_list
      |intros r; rewrite walk_locations_list; reflexivity
      |].
    apply sim_for_all_in. exact IH.
  - eapply sim_ext;
      [intros ro h; symmetry; apply store_walk_locations_dict
      |intros r; rewrite walk_locations_dict; reflexivity
      |].
    apply (sim_bind base _ _
             (fun r =>
                Return
                  match dict_get "address" items with
                  | VDict addr =>
                      match location_of addr with
                      | Some loc =>
                          set_hq_locations (hq_locations r ++ [loc]) r
                      | None => r
                      end
                  | _ => r
                  end)
             (fun r =>
                Return
                  (fold_left (fun r kv => _walk_for_locations (snd kv) r)
                     items r))).
    + destruct (dict_get "address" items) as [| | | | |addr];
        try apply sim_ret.
      destruct (location_of addr) as [loc|];
        [apply sim_append_location | apply sim_ret].
    + apply sim_for_all_in. exact IH.
Qed.

Lemma sim_harvest_funding_script base script :
  sim base (Store.harvest_funding_script script)
    (fun r => Return (harvest_funding_script r script)).
Proof.
  unfold Store.harvest_funding_script, harvest_funding_script. cbv zeta.
  destruct (tag_text script =? EmptyString); [apply sim_ret|].
  destruct (negb (PyStr.contains "funding" (tag_text script))
            && negb (PyStr.contains "investor" (tag_text script)));
    [apply sim_ret|].
  destruct (json_loads (tag_text script)) as [data|e];
    [apply sim_walk_funding | apply sim_ret].
Qed.

Lemma sim_harvest_location_script base script :
  sim base (Store.harvest_location_script script)
    (fun r => Return (harvest_location_script r script)).
Proof.
  unfold Store.harvest_location_script, harvest_location_script. cbv zeta.
  destruct ((tag_text script =? EmptyString)
            || negb (PyStr.contains "address" (tag_text script)));
    [apply sim_ret|].
  destruct (json_loads (tag_text script)) as [data|e];
    [apply sim_walk_locations | apply sim_ret].
Qed.

(** The deduplicating loops: the list is read, and the kept entries go to a
    new list that the attribute is then bound to. *)
Lemma sim_dedup_rounds base :
  sim base
    (fun ro =>
       Store.mbind (Store.get_dicts (funding_rounds ro)) (fun harvested =>
       Store.mbind (Store.lift (for_each harvested dedup_round ([], [])))
         (fun rounds =>
       Store.mbind (Store.new (Store.Dicts (snd rounds)))
         (fun unique_rounds =>
       Store.ret (set_funding_rounds unique_rounds ro)))))
    (fun r =>
       rounds <- for_each (funding_rounds r) dedup_round ([], []) ;;
       Return (set_funding_rounds (snd rounds) r)).
Proof.
  intros h ro r Hmod.
  pose proof (models_get _ _ _ _ 0 _ _ Hmod eq_refl eq_refl) as Hget.
  unfold Store.mbind, Store.get_dicts, Store.lift, Store.ret.
  rewrite Hget.
  destruct (for_each (funding_rounds r) dedup_round ([], []))
    as [rounds|e]; cbn [bind].
  - destruct (models_new _ _ _ _ 0 (Store.Dicts (snd rounds))
                (set_funding_rounds (Store.next h) ro)
                (set_funding_rounds (snd rounds) r)
                Hmod ltac:(lia) eq_refl eq_refl eq_refl eq_refl)
      as [Hmod' Hu].
    eexists. split; [exact Hu|]. eexists. split; [reflexivity|exact Hmod'].
  - exists h. split; [apply unchanged_below_refl | reflexivity].
Qed.

Lemma sim_dedup_investors base :
  sim base
    (fun ro =>
       Store.mbind (Store.get_dicts (investors ro)) (fun harvested =>
       Store.mbind (Store.lift (for_each harvested dedup_investor ([], [])))
         (fun invs =>
       Store.mbind (Store.new (Store.Dicts (snd invs)))
         (fun unique_investors =>
       Store.ret (set_investors unique_investors ro)))))
    (fun r =>
       invs <- for_each (investors r) dedup_investor ([], []) ;;
       Return (set_investors (snd invs) r)).
Proof.
  intros h ro r Hmod.
  pose proof (models_get _ _ _ _ 2 _ _ Hmod eq_refl eq_refl) as Hget.
  unfold Store.mbind, Store.get_dicts, Store.lift, Store.ret.
  rewrite Hget.
  destruct (for_each (investors r) dedup_investor ([], []))
    as [invs|e]; cbn [bind].
  - destruct (models_new _ _ _ _ 2 (Store.Dicts (snd invs))
                (set_investors (Store.next h) ro)
                (set_investors (snd invs) r)
                Hmod ltac:(lia) eq_refl eq_refl eq_refl eq_refl)
      as [Hmod' Hu].
    eexists. split; [exact Hu|]. eexists. split; [reflexivity|exact Hmod'].
  - exists h. split; [apply unchanged_below_refl | reflexivity].
Qed.

Lemma sim_dedup_locations base :
  sim base
    (fun ro =>
       Store.mbind (Store.get_dicts (hq_locations ro)) (fun harvested =>
       Store.mbind (Store.lift (for_each harvested dedup_location ([], [])))
         (fun locs =>
       Store.mbind (Store.new (Store.Dicts (snd locs)))
         (fun unique_locations =>
       Store.ret (set_hq_locations unique_locations ro)))))
    (fun r =>
       locs <- for_each (hq_locations r) dedup_location ([], []) ;;
       Return (set_hq_locations (snd locs) r)).
Proof.
  intros h ro r Hmod.
  pose proof (models_get _ _ _ _ 5 _ _ Hmod eq_refl eq_refl) as Hget.
  unfold Store.mbind, Store.get_dicts, Store.lift, Store.ret.
  rewrite Hget.
  destruct (for_each (hq_locations r) dedup_location ([], []))
    as [locs|e]; cbn [bind].
  - destruct (models_new _ _ _ _ 5 (Store.Dicts (snd locs))
                (set_hq_locations (Store.next h) ro)
                (set_hq_locations (snd locs) r)
                Hmod ltac:(lia) eq_refl eq_refl eq_refl eq_refl)
      as [Hmod' Hu].
    eexists. split; [exact Hu|]. eexists. split; [reflexivity|exact Hmod'].
  - exists h. split; [apply unchanged_below_refl | reflexivity].
Qed.

Lemma mbind_assoc {A B C} (m : Store.M A) (k : A -> Store.M B)
  (k' : B -> Store.M C) h :
  Store.mbind (Store.mbind m k) k' h =
  Store.mbind m (fun a => Store.mbind (k a) k') h.
Proof.
  unfold Store.mbind. destruct (m h) as [[a|e] h']; reflexivity.
Qed.

Lemma sim_populate_funding base soup :
  sim base (Store._populate_funding_and_investors soup)
    (_populate_funding_and_investors soup).
Proof.
  eapply sim_ext;
    [| |apply (sim_bind base _ _ _ _
                 (sim_for_all base
                    (find_all soup "script" (fun _ => true))
                    Store.harvest_funding_script harvest_funding_script
                    (sim_harvest_funding_script base))
                 (sim_bind base _ _ _ _ (sim_dedup_rounds base)
                    (sim_dedup_investors base)))].
  - intros ro h. unfold Store._populate_funding_and_investors.
    apply mbind_cong. intros ro1 h1. rewrite mbind_assoc.
    apply mbind_cong. intros harvested h2. rewrite mbind_assoc.
    apply mbind_cong. intros rounds h3. rewrite mbind_assoc.
    apply mbind_cong. intros a h4. reflexivity.
  - intros r. unfold _populate_funding_and_investors, harvest_funding.
    cbn [bind].
    destruct (for_each _ dedup_round _) as [rounds|e]; reflexivity.
Qed.

Lemma sim_populate_locations base soup :
  sim base (Store._populate_locations soup) (_populate_locations soup).
Proof.
  eapply sim_ext;
    [| |apply (sim_bind base _ _ _ _
                 (sim_for_all base
                    (find_all soup "script" (fun _ => true))
                    Store.harvest_location_script harvest_location_script
                    (sim_harvest_location_script base))
                 (sim_dedup_locations base))].
  - intros ro h. reflexivity.
  - intros r. reflexivity.
Qed.

Ltac break_matches :=
  repeat match goal with
         | |- context [match ?x with _ => _ end] => destruct x
         end.

(** The innermost case analysis of the goal. *)
Ltac break_inner :=
  match goal with
  | |- context [match ?x with _ => _ end] =>
      lazymatch x with
      | context [match _ with _ => _ end] => fail
      | _ => destruct x
      end
  end.

Ltac same_scalars :=
  let ro := fresh "ro" in
  let r := fresh "r" in
  let H := fresh "H" in
  intros ro r H; destruct ro, r; unfold scalars in *; cbn in H;
  injection H; intros; subst; cbn; repeat (break_inner; cbn); reflexivity.

Lemma sim_populate_meta_fallbacks base soup :
  sim base (fun ro => Store.ret (_populate_meta_fallbacks soup ro))
    (fun r => Return (_populate_meta_fallbacks soup r)).
Proof.
  apply (sim_scalars base (_populate_meta_fallbacks soup)
           (_populate_meta_fallbacks soup) Store.ret Return);
    [|intros ro|intros r|apply sim_ret].
  - unfold _populate_meta_fallbacks. same_scalars.
  - unfold _populate_meta_fallbacks. break_matches; reflexivity.
  - unfold _populate_meta_fallbacks. break_matches; reflexivity.
Qed.

Lemma sim_populate_status_and_stage base soup :
  sim base (fun ro => Store.ret (_populate_status_and_stage soup ro))
    (fun r => Return (_populate_status_and_stage soup r)).
Proof.
  apply (sim_scalars base (_populate_status_and_stage soup)
           (_populate_status_and_stage soup) Store.ret Return);
    [|intros ro|intros r|apply sim_ret].
  - unfold _populate_status_and_stage. same_scalars.
  - unfold _populate_status_and_stage. break_matches; reflexivity.
  - unfold _populate_status_and_stage. break_matches; reflexivity.
Qed.

Lemma sim_ld_industries base found :
  sim base
    (fun ro =>
       match found with
       | [] => Store.ret ro
       | _ =>
           Store.mbind (Store.get_strs (industries ro)) (fun old =>
           Store.mbind (Store.new (Store.Strs (PyStr.sorted_set (old ++ found))))
             (fun merged => Store.ret (set_industries merged ro)))
       end)
    (fun r =>
       Return
         match found with
         | [] => r
         | _ => set_industries (PyStr.sorted_set (industries r ++ found)) r
         end).
Proof.
  destruct found as [|x found]; [apply sim_ret|].
  intros h ro r Hmod.
  pose proof (models_get _ _ _ _ 3 _ _ Hmod eq_refl eq_refl) as Hget.
  unfold Store.mbind, Store.get_strs, Store.ret. rewrite Hget.
  destruct (models_new _ _ _ _ 3
              (Store.Strs (PyStr.sorted_set (industries r ++ x :: found)))
              (set_industries (Store.next h) ro)
              (set_industries
                 (PyStr.sorted_set (industries r ++ x :: found)) r)
              Hmod ltac:(lia) eq_refl eq_refl eq_refl eq_refl)
    as [Hmod' Hu].
  eexists. split; [exact Hu|]. eexists. split; [reflexivity|exact Hmod'].
Qed.

Lemma sim_ld_employees base ld :
  sim base
    (fun ro =>
       Store.mbind (Store.lift (ld_employees ld))
         (fun employees => Store.ret (with_employees employees ro)))
    (fun r =>
       employees <- ld_employees ld ;; Return (with_employees employees r)).
Proof.
  intros h ro r Hmod. exists h. split; [apply unchanged_below_refl|].
  unfold Store.mbind, Store.lift, Store.ret.
  destruct (ld_employees ld) as [employees|e]; cbn [bind]; [|reflexivity].
  eexists. split; [reflexivity|].
  eapply models_scalars; [exact Hmod| | |].
  - destruct Hmod as (Hs & _). revert Hs. generalize ro r.
    unfold with_employees. same_scalars.
  - unfold with_employees. break_matches; reflexivity.
  - unfold with_employees. break_matches; reflexivity.
Qed.

Lemma sim_populate_from_ld_json base ld :
  sim base (Store._populate_from_ld_json ld) (_populate_from_ld_json ld).
Proof.
  pose proof (sim_bind base _ _ _ _
                (sim_ld_industries base (ld_industries ld))
                (sim_bind base _ _ _ _ (sim_ld_employees base ld)
                   (sim_assign_all base (ld_links ld)))) as Htail.
  assert (forall (ro : Store.RecordObj) (r : CompanyRecord),
             scalars ro = scalars r ->
             scalars (ld_about_and_website ld ro)
             = scalars (ld_about_and_website ld r)) as Hs
      by (unfold ld_about_and_website; same_scalars).
  assert (forall ro : Store.RecordObj,
             cells (ld_about_and_website ld ro) = cells ro) as Hc
      by (intros ro; unfold ld_about_and_website; cbv zeta;
          break_matches; reflexivity).
  assert (forall r : CompanyRecord,
             contents (ld_about_and_website ld r) = contents r) as Hc'
      by (intros r; unfold ld_about_and_website; cbv zeta;
          break_matches; reflexivity).
  pose proof (sim_scalars base _ _ _ _ Hs Hc Hc' Htail) as H.
  eapply sim_ext; [| |exact H].
  - intros ro h. unfold Store._populate_from_ld_json. cbv zeta.
    fold (ld_industries ld). fold (ld_links ld).
    apply mbind_cong. intros ro1 h1. rewrite mbind_assoc.
    apply mbind_cong. intros employees h2. reflexivity.
  - intros r. unfold _populate_from_ld_json. cbv zeta.
    fold (ld_industries ld). fold (ld_links ld). cbn [bind].
    destruct (ld_employees ld) as [employees|e]; reflexivity.
Qed.

(** A new record object stands for the initial record, and its containers
    are new objects. *)
Lemma store_new_record url h :
  exists ro h',
    Store.CompanyRecord_new url h = (Return ro, h') /\
    models (Store.next h) h' ro (CompanyRecord_init url) /\
    unchanged_below (Store.next h) h h'.
Proof.
  eexists. eexists. split; [reflexivity|].
  cbn [Store.new Store.next Store.cell_at].
  generalize (Store.next h) as n. intros n.
  assert (forall k, Nat.eqb n (S k + n) = false) as Hlt
      by (intros k; apply Nat.eqb_neq; lia).
  assert (forall k, Nat.eqb (S k + n) n = false) as Hgt
      by (intros k; apply Nat.eqb_neq; lia).
  split; [|intros a Ha; cbn [Store.cell_at];
           repeat match goal with
                  | |- context [Nat.eqb a ?m] =>
                      let E := fresh "E" in
                      destruct (Nat.eqb a m) eqn:E;
                      [apply Nat.eqb_eq in E; lia|clear E]
                  end; reflexivity].
  repeat split.
  - cbn [cells contents map CompanyRecord_init funding_rounds social_links
           investors industries team hq_locations kpi_summary
           nearby_companies related_companies news Store.cell_at].
    repeat match goal with
           | |- context [Nat.eqb ?a ?b] =>
               let E := fresh "E" in
               destruct (Nat.eqb a b) eqn:E;
               [apply Nat.eqb_eq in E; try lia
               |apply Nat.eqb_neq in E; try lia]
           end; reflexivity.
  - cbn [cells funding_rounds social_links investors industries team
           hq_locations kpi_summary nearby_companies related_companies news].
    repeat (constructor; [simpl; lia|]). constructor.
  - cbn [cells funding_rounds social_links investors industries team
           hq_locations kpi_summary nearby_companies related_companies news
           Store.next].
    repeat (constructor; [simpl; lia|]). constructor.
Qed.

(** Turning a record object into a mapping reads its containers. *)
Lemma store_to_dict base h ro r :
  models base h ro r -> Store.to_dict ro h = (Return (to_dict r), h).
Proof.
  intros Hmod.
  pose proof (models_get _ _ _ _ 0 _ _ Hmod eq_refl eq_refl) as H0.
  pose proof (models_get _ _ _ _ 1 _ _ Hmod eq_refl eq_refl) as H1.
  pose proof (models_get _ _ _ _ 2 _ _ Hmod eq_refl eq_refl) as H2.
  pose proof (models_get _ _ _ _ 3 _ _ Hmod eq_refl eq_refl) as H3.
  pose proof (models_get _ _ _ _ 4 _ _ Hmod eq_refl eq_refl) as H4.
  pose proof (models_get _ _ _ _ 5 _ _ Hmod eq_refl eq_refl) as H5.
  pose proof (models_get _ _ _ _ 6 _ _ Hmod eq_refl eq_refl) as H6.
  pose proof (models_get _ _ _ _ 7 _ _ Hmod eq_refl eq_refl) as H7.
  pose proof (models_get _ _ _ _ 8 _ _ Hmod eq_refl eq_refl) as H8.
  pose proof (models_get _ _ _ _ 9 _ _ Hmod eq_refl eq_refl) as H9.
  destruct Hmod as (Hs & _). unfold scalars in Hs.
  injection Hs as Ha Hb Hc Hd He Hf Hg Hh Hi Hj.
  unfold Store.to_dict, Store.mbind, Store.get_dicts, Store.get_links,
    Store.get_strs, Store.get_map, Store.ret.
  rewrite H0, H1, H2, H3, H4, H5, H6, H7, H8, H9.
  unfold to_dict, to_dict_data.
  now rewrite Ha, Hb, Hc, Hd, He, Hf, Hg, Hh, Hi, Hj.
Qed.

Lemma sim_passes base soup :
  sim base (store_passes soup)
    (fun r =>
       r1 <- ld_pass soup r ;;
       r5 <- _populate_funding_and_investors soup
               (_populate_status_and_stage soup
                  (_populate_meta_fallbacks soup
                     (_populate_social_links soup r1))) ;;
       _populate_locations soup r5).
Proof.
  assert (sim base
            (fun ro =>
               Store.mbind (Store.lift (_extract_ld_organization soup))
                 (fun ld_org =>
                    match ld_org with
                    | Some ld =>
                        if truthy (VDict ld)
                        then Store._populate_from_ld_json ld ro
                        else Store.ret ro
                    | None => Store.ret ro
                    end))
            (ld_pass soup)) as Hld.
  { intros h ro r Hmod. unfold ld_pass, Store.mbind, Store.lift.
    destruct (_extract_ld_organization soup) as [[ld|]|e]; cbn [bind].
    - destruct (truthy (VDict ld)).
      + apply sim_populate_from_ld_json, Hmod.
      + apply (sim_ret base), Hmod.
    - apply (sim_ret base), Hmod.
    - exists h. split; [apply unchanged_below_refl | reflexivity]. }
  pose proof (sim_bind base _ _ _ _
                (sim_populate_meta_fallbacks base soup)
                (sim_populate_status_and_stage base soup)) as Hms.
  pose proof (sim_bind base _ _ _ _ Hld
                (sim_bind base _ _ _ _
                   (sim_assign_all base (anchor_hrefs soup))
                   (sim_bind base _ _ _ _ Hms
                      (sim_bind base _ _ _ _
                         (sim_populate_funding base soup)
                         (sim_populate_locations base soup))))) as H.
  eapply sim_ext; [| |exact H].
  - intros ro h. unfold store_passes. cbv beta. rewrite mbind_assoc.
    apply mbind_cong. intros ld_org h1.
    apply mbind_cong. intros ro1 h2. unfold Store._populate_social_links.
    apply mbind_cong. intros ro2 h3. rewrite mbind_assoc.
    reflexivity.
  - intros r. cbv beta. destruct (ld_pass soup r) as [r1|e]; cbn [bind];
      [|reflexivity].
    unfold _populate_social_links.
    destruct (_populate_funding_and_investors _ _); reflexivity.
Qed.

Lemma store_extract_company_data_passes html url h :
  Store.extract_company_data html url h =
  Store.mbind (Store.CompanyRecord_new url)
    (fun ro =>
       Store.mbind (store_passes (BeautifulSoup html) ro) Store.to_dict) h.
Proof.
  unfold Store.extract_company_data, store_passes. cbv zeta.
  apply mbind_cong. intros ro h0. rewrite mbind_assoc.
  apply mbind_cong. intros ld_org h1. rewrite mbind_assoc.
  apply mbind_cong. intros ro1 h2. rewrite mbind_assoc.
  apply mbind_cong. intros ro2 h3. rewrite mbind_assoc.
  apply mbind_cong. intros ro3 h4. reflexivity.
Qed.

(** The store-level extractor returns what the state-passing one returns,
    whatever the store holds, and leaves the objects of the store as they
    were. *)
Lemma store_extract_company_data html url h :
  fst (Store.extract_company_data html url h)
    = extract_company_data html url /\
  unchanged_below (Store.next h) h
    (snd (Store.extract_company_data html url h)).
Proof.
  rewrite extract_company_data_record. unfold extracted_record. cbv zeta.
  destruct (store_new_record url h) as (ro & h0 & Hnew & Hmod & Hu0).
  destruct (sim_passes (Store.next h) (BeautifulSoup html) h0 ro
              (CompanyRecord_init url) Hmod) as (h' & Hu & Hres).
  match type of Hres with
  | match ?f with _ => _ end => destruct f as [r'|e]
  end.
  - destruct Hres as (ro' & Hrun & Hmod').
    assert (Store.extract_company_data html url h
            = (Return (to_dict r'), h')) as ->.
    { rewrite store_extract_company_data_passes. unfold Store.mbind.
      rewrite Hnew, Hrun. apply (store_to_dict _ _ _ _ Hmod'). }
    cbn [fst snd bind].
    split; [reflexivity|]. exact (unchanged_below_trans _ _ _ _ Hu0 Hu).
  - assert (Store.extract_company_data html url h = (Raise e, h')) as ->.
    { rewrite store_extract_company_data_passes. unfold Store.mbind.
      now rewrite Hnew, Hres. }
    cbn [fst snd bind].
    split; [reflexivity|]. exact (unchanged_below_trans _ _ _ _ Hu0 Hu).
Qed.

End Simulation.

(** ** Determinism *)

Section Determinism.

Context {lib : Library}.

(** C8.  The record an invocation returns depends on the HTML and the source
    URL only: invocations that start from any two stores of objects return
    the same result, in particular a second invocation that starts from the
    store the first one left; and an invocation changes no object that
    existed before it. *)
Theorem extraction_depends_on_its_inputs_only html url (h1 h2 : Store.heap) :
  fst (Store.extract_company_data html url h1)
    = fst (Store.extract_company_data html url h2) /\
  fst (Store.extract_company_data html url
         (snd (Store.extract_company_data html url h1)))
    = fst (Store.extract_company_data html url h1) /\
  (forall a, a < Store.next h1 ->
     Store.cell_at (snd (Store.extract_company_data html url h1)) a
     = Store.cell_at h1 a).
Proof.
  destruct (store_extract_company_data html url h1) as [E1 U1].
  destruct (store_extract_company_data html url h2) as [E2 _].
  destruct (store_extract_company_data html url
              (snd (Store.extract_company_data html url h1))) as [E3 _].
  repeat split.
  - congruence.
  - congruence.
  - exact U1.
Qed.

End Determinism.

(** * More about the extractor *)

(** ** What the walkers find *)

Section WalkerFacts.

Context {lib : Library}.

Lemma append_rounds_funding frs : forall r x,
  In x (funding_rounds (append_rounds frs r)) <->
  In x (funding_rounds r) \/ exists fr, In (VDict fr) frs /\ x = clean_round fr.
Proof.
  unfold append_rounds.
  induction frs as [|fr frs IH]; intros r x; cbn [fold_left].
  - split; [auto|]. intros [H|(fr & [] & _)]. exact H.
  - rewrite IH. split.
    + intros [H|(fr' & Hin & ->)].
      * destruct fr; try (left; exact H). cbn in H. apply in_app_iff in H.
        destruct H as [H|[<-|[]]]; [now left|].
        right. eexists. split; [left; reflexivity|reflexivity].
      * right. exists fr'. split; [now right|reflexivity].
    + intros [H|(fr' & [->|Hin] & ->)].
      * left. destruct fr; try exact H. cbn. apply in_app_iff. now left.
      * left. cbn. apply in_app_iff. right. now left.
      * right. now exists fr'.
Qed.

Lemma append_investors_investors invs : forall r x,
  In x (investors (append_investors invs r)) <->
  In x (investors r) \/
  exists inv, In (VDict inv) invs /\ x = clean_investor inv.
Proof.
  unfold append_investors.
  induction invs as [|inv invs IH]; intros r x; cbn [fold_left].
  - split; [auto|]. intros [H|(fr & [] & _)]. exact H.
  - rewrite IH. split.
    + intros [H|(inv' & Hin & ->)].
      * destruct inv; try (left; exact H). cbn in H. apply in_app_iff in H.
        destruct H as [H|[<-|[]]]; [now left|].
        right. eexists. split; [left; reflexivity|reflexivity].
      * right. exists inv'. split; [now right|reflexivity].
    + intros [H|(inv' & [->|Hin] & ->)].
      * left. destruct inv; try exact H. cbn. apply in_app_iff. now left.
      * left. cbn. apply in_app_iff. right. now left.
      * right. now exists inv'.
Qed.

Lemma append_rounds_investors frs r :
  investors (append_rounds frs r) = investors r.
Proof.
  destruct (append_rounds_adds frs) as (f & ->). cbn. now rewrite app_nil_r.
Qed.

Lemma append_investors_funding invs r :
  funding_rounds (append_investors invs r) = funding_rounds r.
Proof.
  destruct (append_investors_adds invs) as (f & ->). cbn.
  now rewrite app_nil_r.
Qed.

Lemma fold_walk_in {A} (sel : CompanyRecord -> list dict)
  (walk : A -> CompanyRecord -> CompanyRecord) (found : A -> dict -> Prop)
  items :
  Forall (fun a => forall r x,
            In x (sel (walk a r)) <-> In x (sel r) \/ found a x) items ->
  forall r x,
    In x (sel (fold_left (fun r a => walk a r) items r)) <->
    In x (sel r) \/ exists a, In a items /\ found a x.
Proof.
  induction 1 as [|a items Ha _ IH]; intros r x; cbn [fold_left].
  - split; [auto|]. intros [H|(a & [] & _)]. exact H.
  - rewrite IH, Ha. split.
    + intros [[H|H]|(a' & Hin & H)]; [now left| |].
      * right. exists a. split; [now left|exact H].
      * right. exists a'. split; [now right|exact H].
    + intros [H|(a' & [->|Hin] & H)]; [now left; left|now left; right|].
      right. now exists a'.
Qed.

Lemma walk_funding_finds node : forall r x,
  (In x (funding_rounds (_walk_for_funding_and_investors node r)) <->
   In x (funding_rounds r) \/ round_in node x) /\
  (In x (investors (_walk_for_funding_and_investors node r)) <->
   In x (investors r) \/ investor_in node x).
Proof.
  induction node as [| | | |items IH|items IH] using value_nested_ind;
    intros r x.
  1-4: split; (split; [auto|]);
    (intros [H|(d & y & Hin & _)]; [exact H|inversion Hin]).
  - rewrite walk_funding_list.
    pose proof (fold_walk_in funding_rounds _walk_for_funding_and_investors
                  round_in items) as Hf.
    pose proof (fold_walk_in investors _walk_for_funding_and_investors
                  investor_in items) as Hi.
    rewrite Hf, Hi by (eapply Forall_impl; [|exact IH]; intros a Ha r' x';
                       apply Ha).
    split; (split; intros [H|H]; [now left| |now left|]).
    + destruct H as (a & Hin & d & y & Hd & Hy). right.
      exists d, y. split; [|exact Hy]. eapply inside_list; eauto.
    + destruct H as (d & y & Hd & Hy). inversion Hd; subst.
      right. eexists. split; [eassumption|]. now exists d, y.
    + destruct H as (a & Hin & d & y & Hd & Hy). right.
      exists d, y. split; [|exact Hy]. eapply inside_list; eauto.
    + destruct H as (d & y & Hd & Hy). inversion Hd; subst.
      right. eexists. split; [eassumption|]. now exists d, y.
  - rewrite walk_funding_dict.
    pose proof (fold_walk_in funding_rounds
                  (fun kv => _walk_for_funding_and_investors (snd kv))
                  (fun kv => round_in (snd kv)) items) as Hf.
    pose proof (fold_walk_in investors
                  (fun kv => _walk_for_funding_and_investors (snd kv))
                  (fun kv => investor_in (snd kv)) items) as Hi.
    cbv beta in Hf, Hi.
    rewrite Hf, Hi by (eapply Forall_impl; [|exact IH]; intros a Ha r' x';
                       apply Ha).
    clear Hf Hi. cbv zeta.
    split.
    + (* rounds *)
      assert (In x (funding_rounds
                (match dict_lookup "investors" items with
                 | Some (VList invs) =>
                     append_investors invs
                       (match dict_lookup "funding_rounds" items with
                        | Some (VList frs) => append_rounds frs r
                        | _ => r
                        end)
                 | _ => match dict_lookup "funding_rounds" items with
                        | Some (VList frs) => append_rounds frs r
                        | _ => r
                        end
                 end)) <->
              In x (funding_rounds r) \/
              exists fr, listed_under "funding_rounds" items fr /\
                         x = clean_round fr) as Hhere.
      { assert (In x (funding_rounds
                        (match dict_lookup "funding_rounds" items with
                         | Some (VList frs) => append_rounds frs r
                         | _ => r
                         end)) <->
                In x (funding_rounds r) \/
                exists fr, listed_under "funding_rounds" items fr /\
                           x = clean_round fr) as H0.
        { unfold listed_under.
          destruct (dict_lookup "funding_rounds" items) as [[| | | |frs|]|];
            try (split; [auto|];
                 intros [H|(fr & (l & Hl & _) & _)];
                 [exact H|discriminate]).
          rewrite append_rounds_funding. split.
          - intros [H|(fr & Hin & ->)]; [now left|]. right. exists fr.
            split; [|reflexivity]. now exists frs.
          - intros [H|(fr & (l & Hl & Hin) & ->)]; [now left|].
            injection Hl as <-. right. now exists fr. }
        destruct (dict_lookup "investors" items) as [[| | | |invs|]|];
          try exact H0.
        now rewrite append_investors_funding. }
      rewrite Hhere. clear Hhere. split.
      * intros [[H|(fr & Hl & ->)]|(kv & Hin & d & y & Hd & Hy)].
        -- now left.
        -- right. exists items, fr. split; [constructor|]. now split.
        -- right. exists d, y. split; [|exact Hy]. destruct kv as [k v].
           eapply inside_dict; eauto.
      * intros [H|(d & y & Hd & Hl & ->)]; [now left; left|].
        inversion Hd; subst.
        -- left. right. now exists y.
        -- right. exists (k, v). split; [assumption|]. now exists d, y.
    + (* investors *)
      assert (In x (investors
                (match dict_lookup "investors" items with
                 | Some (VList invs) =>
                     append_investors invs
                       (match dict_lookup "funding_rounds" items with
                        | Some (VList frs) => append_rounds frs r
                        | _ => r
                        end)
                 | _ => match dict_lookup "funding_rounds" items with
                        | Some (VList frs) => append_rounds frs r
                        | _ => r
                        end
                 end)) <->
              In x (investors r) \/
              exists inv, listed_under "investors" items inv /\
                          x = clean_investor inv) as Hhere.
      { assert (investors
                  (match dict_lookup "funding_rounds" items with
                   | Some (VList frs) => append_rounds frs r
                   | _ => r
                   end) = investors r) as H0.
        { destruct (dict_lookup "funding_rounds" items) as [[| | | |frs|]|];
            try reflexivity. apply append_rounds_investors. }
        unfold listed_under.
        destruct (dict_lookup "investors" items) as [[| | | |invs|]|];
          try (rewrite H0; split; [auto|];
               intros [H|(fr & (l & Hl & _) & _)];
               [exact H|discriminate]).
        rewrite append_investors_investors, H0. split.
        - intros [H|(inv & Hin & ->)]; [now left|]. right. exists inv.
          split; [|reflexivity]. now exists invs.
        - intros [H|(inv & (l & Hl & Hin) & ->)]; [now left|].
          injection Hl as <-. right. now exists inv. }
      rewrite Hhere. clear Hhere. split.
      * intros [[H|(fr & Hl & ->)]|(kv & Hin & d & y & Hd & Hy)].
        -- now left.
        -- right. exists items, fr. split; [constructor|]. now split.
        -- right. exists d, y. split; [|exact Hy]. destruct kv as [k v].
           eapply inside_dict; eauto.
      * intros [H|(d & y & Hd & Hl & ->)]; [now left; left|].
        inversion Hd; subst.
        -- left. right. now exists y.
        -- right. exists (k, v). split; [assumption|]. now exists d, y.
Qed.

End WalkerFacts.

Lemma subseq_In {A} (l1 l2 : list A) :
  subseq l1 l2 -> forall x, In x l1 -> In x l2.
Proof.
  induction 1 as [|y l1 l2 _ IH|y l1 l2 _ IH]; intros x Hx.
  - exact Hx.
  - right. now apply IH.
  - destruct Hx as [->|Hx]; [now left|right; now apply IH].
Qed.

Section PassFrames.

Context {lib : Library}.

Lemma walk_locations_finds node : forall r x,
  In x (hq_locations (_walk_for_locations node r)) <->
  In x (hq_locations r) \/ location_in node x.
Proof.
  induction node as [| | | |items IH|items IH] using value_nested_ind;
    intros r x.
  1-4: split; [auto|];
    (intros [H|(d & y & Hin & _)]; [exact H|inversion Hin]).
  - rewrite walk_locations_list.
    rewrite (fold_walk_in hq_locations _walk_for_locations location_in items)
      by exact IH.
    split; (intros [H|H]; [now left|]).
    + destruct H as (a & Hin & d & y & Hd & Hy). right.
      exists d, y. split; [|exact Hy]. eapply inside_list; eauto.
    + destruct H as (d & y & Hd & Hy). inversion Hd; subst.
      right. eexists. split; [eassumption|]. now exists d, y.
  - rewrite walk_locations_dict.
    pose proof (fold_walk_in hq_locations
                  (fun kv => _walk_for_locations (snd kv))
                  (fun kv => location_in (snd kv)) items) as Hf.
    cbv beta in Hf. rewrite Hf by exact IH. clear Hf.
    assert (In x (hq_locations
                    (match dict_get "address" items with
                     | VDict addr =>
                         match location_of addr with
                         | Some loc =>
                             set_hq_locations (hq_locations r ++ [loc]) r
                         | None => r
                         end
                     | _ => r
                     end)) <->
            In x (hq_locations r) \/
            exists addr, dict_get "address" items = VDict addr /\
                         location_of addr = Some x) as Hhere.
    { destruct (dict_get "address" items) as [| | | | |addr];
        try (split; [auto|]; intros [H|(a & Ha & _)];
             [exact H|discriminate]).
      destruct (location_of addr) as [loc|] eqn:El.
      - cbn. rewrite in_app_iff. split.
        + intros [H|[<-|[]]]; [now left|]. right. now exists addr.
        + intros [H|(a & Ha & Hl)]; [now left|]. injection Ha as <-.
          right. left. congruence.
      - split; [auto|]. intros [H|(a & Ha & Hl)]; [exact H|].
        injection Ha as <-. congruence. }
    rewrite Hhere. clear Hhere. split.
    + intros [[H|(addr & Ha & Hl)]|(kv & Hin & d & y & Hd & Hy)].
      * now left.
      * right. exists items, addr. split; [constructor|]. now split.
      * right. exists d, y. split; [|exact Hy]. destruct kv as [k v].
        eapply inside_dict; eauto.
    + intros [H|(d & y & Hd & Ha & Hl)]; [now left; left|].
      inversion Hd; subst.
      * left. right. now exists y.
      * right. exists (k, v). split; [assumption|]. now exists d, y.
Qed.

(** *** What a pass leaves alone: a projection that the setters a pass
    uses do not change is not changed by the pass *)

Lemma assign_all_frame {A} (f : CompanyRecord -> A) hrefs :
  (forall v r, f (set_social_links v r) = f r) ->
  (forall v r, f (set_linkedin_url v r) = f r) ->
  (forall v r, f (set_twitter_url v r) = f r) ->
  (forall v r, f (set_instagram_url v r) = f r) ->
  forall r, f (assign_all hrefs r) = f r.
Proof.
  intros H1 H2 H3 H4. unfold assign_all.
  induction hrefs as [|href hrefs IH]; intros r; cbn [fold_left];
    [reflexivity|].
  rewrite IH. unfold _assign_social_link.
  repeat match goal with
         | |- context [if ?c then _ else _] => destruct c
         end; now rewrite ?H1, ?H2, ?H3, ?H4.
Qed.

Lemma populate_from_ld_json_frame {A} (f : CompanyRecord -> A) ld r r' :
  (forall v r, f (set_about v r) = f r) ->
  (forall v r, f (set_website_url v r) = f r) ->
  (forall v r, f (set_industries v r) = f r) ->
  (forall v r, f (set_employees v r) = f r) ->
  (forall v r, f (set_social_links v r) = f r) ->
  (forall v r, f (set_linkedin_url v r) = f r) ->
  (forall v r, f (set_twitter_url v r) = f r) ->
  (forall v r, f (set_instagram_url v r) = f r) ->
  _populate_from_ld_json ld r = Return r' -> f r' = f r.
Proof.
  intros H1 H2 H3 H4 H5 H6 H7 H8. unfold _populate_from_ld_json.
  destruct (ld_employees ld) as [employees|e]; [|discriminate].
  cbn [bind]. intros H. injection H as <-.
  rewrite assign_all_frame by assumption.
  repeat match goal with
         | |- context [match ?x with _ => _ end] => destruct x
         end; now rewrite ?H4, ?H3, ?H2, ?H1.
Qed.

Lemma ld_pass_frame {A} (f : CompanyRecord -> A) soup r r' :
  (forall v r, f (set_about v r) = f r) ->
  (forall v r, f (set_website_url v r) = f r) ->
  (forall v r, f (set_industries v r) = f r) ->
  (forall v r, f (set_employees v r) = f r) ->
  (forall v r, f (set_social_links v r) = f r) ->
  (forall v r, f (set_linkedin_url v r) = f r) ->
  (forall v r, f (set_twitter_url v r) = f r) ->
  (forall v r, f (set_instagram_url v r) = f r) ->
  ld_pass soup r = Return r' -> f r' = f r.
Proof.
  intros H1 H2 H3 H4 H5 H6 H7 H8. unfold ld_pass.
  destruct (_extract_ld_organization soup) as [[ld|]|e]; cbn [bind];
    try discriminate.
  - destruct (truthy (VDict ld)).
    + now apply populate_from_ld_json_frame.
    + intros H. now injection H as <-.
  - intros H. now injection H as <-.
Qed.

Lemma populate_meta_fallbacks_frame {A} (f : CompanyRecord -> A) soup r :
  (forall v r, f (set_about v r) = f r) ->
  (forall v r, f (set_website_url v r) = f r) ->
  f (_populate_meta_fallbacks soup r) = f r.
Proof.
  intros H1 H2. unfold _populate_meta_fallbacks.
  repeat match goal with
         | |- context [match ?x with _ => _ end] => destruct x
         end; now rewrite ?H2, ?H1.
Qed.

Lemma populate_status_and_stage_frame {A} (f : CompanyRecord -> A) soup r :
  (forall v r, f (set_company_status v r) = f r) ->
  (forall v r, f (set_growth_stage v r) = f r) ->
  f (_populate_status_and_stage soup r) = f r.
Proof.
  intros H1 H2. unfold _populate_status_and_stage.
  repeat match goal with
         | |- context [match ?x with _ => _ end] => destruct x
         end; now rewrite ?H2, ?H1.
Qed.

Lemma populate_funding_frame {A} (f : CompanyRecord -> A) soup r r' :
  (forall v r, f (set_funding_rounds v r) = f r) ->
  (forall v r, f (set_investors v r) = f r) ->
  _populate_funding_and_investors soup r = Return r' -> f r' = f r.
Proof.
  intros H1 H2. unfold _populate_funding_and_investors.
  destruct (harvest_funding_adds soup) as (rs & ivs & ->).
  destruct (for_each _ dedup_round _) as [rounds|e]; [|discriminate].
  cbn [bind].
  destruct (for_each _ dedup_investor _) as [invs|e]; [|discriminate].
  cbn [bind]. intros H. injection H as <-.
  unfold add_harvest. now rewrite H2, H1, H2, H1.
Qed.

Lemma populate_locations_frame {A} (f : CompanyRecord -> A) soup r r' :
  (forall v r, f (set_hq_locations v r) = f r) ->
  _populate_locations soup r = Return r' -> f r' = f r.
Proof.
  intros H1. unfold _populate_locations.
  destruct (harvest_locations_adds soup) as (ls & ->).
  destruct (for_each _ dedup_location _) as [locs|e]; [|discriminate].
  cbn [bind]. intros H. injection H as <-.
  unfold add_locations. now rewrite H1, H1.
Qed.

End PassFrames.

(** ** The script blocks a scan reads *)

Section ScriptBlocks.

Context {lib : Library}.

Lemma populate_locations_result soup r r' :
  _populate_locations soup r = Return r' ->
  first_occurrences location_key_of [] (hq_locations (harvest_locations soup r))
    = Return (hq_locations r').
Proof.
  unfold _populate_locations.
  rewrite (for_each_ext _ _ _ dedup_location_step).
  destruct (for_each _ (dedup_step location_key_of) _) as [locs|e] eqn:El;
    [|discriminate].
  cbn [bind]. intros H. injection H as <-.
  now apply for_each_dedup_result in El.
Qed.

Lemma harvest_locations_by_script soup r :
  hq_locations (harvest_locations soup r) =
  hq_locations r ++
  flat_map (fun script =>
              hq_locations
                (harvest_location_script (CompanyRecord_init None) script))
    (find_all soup "script" (fun _ => true)).
Proof.
  unfold harvest_locations. revert r.
  induction (find_all soup "script" (fun _ => true)) as [|script scripts IH];
    intros r; simpl.
  - now rewrite !app_nil_r.
  - rewrite IH.
    assert (exists ls, forall r,
               harvest_location_script r script = add_locations ls r)
      as (ls & H).
    { unfold harvest_location_script.
      destruct (_ || _); [exists []; intros; now rewrite add_locations_nil|].
      destruct (json_loads (tag_text script)) as [data|e].
      - apply walk_locations_adds.
      - exists []; intros; now rewrite add_locations_nil. }
    rewrite !H. simpl. now rewrite !app_assoc.
Qed.

(** The scripts a scan reads, and what it finds in them. *)
Lemma harvested_rounds soup r x :
  In x (funding_rounds (harvest_funding soup r)) <->
  In x (funding_rounds r) \/
  exists script data,
    In script (find_all soup "script" (fun _ => true)) /\
    PyStr.contains "funding" (tag_text script)
      || PyStr.contains "investor" (tag_text script) = true /\
    json_loads (tag_text script) = Return data /\
    round_in data x.
Proof.
  destruct (harvest_funding_by_script soup r) as [-> _].
  rewrite in_app_iff, in_flat_map.
  assert (forall script,
            In x (rounds_in_script script) <->
            PyStr.contains "funding" (tag_text script)
              || PyStr.contains "investor" (tag_text script) = true /\
            exists data, json_loads (tag_text script) = Return data /\
                         round_in data x) as Hs.
  { intros script. unfold rounds_in_script, harvest_funding_script.
    destruct (tag_text script =? EmptyString) eqn:Ee.
    { apply String.eqb_eq in Ee. rewrite Ee. cbn.
      split; [intros []|]. intros [H _]. discriminate. }
    destruct (PyStr.contains "funding" (tag_text script)),
             (PyStr.contains "investor" (tag_text script)); cbn [negb andb orb];
      try (destruct (json_loads (tag_text script)) as [data|e];
           [ destruct (walk_funding_finds data (CompanyRecord_init None) x)
               as [-> _]; cbn [funding_rounds CompanyRecord_init In];
             split;
             [ intros [[]|H]; split; [reflexivity|now exists data]
             | intros (_ & d' & Hd & H); injection Hd as <-; now right ]
           | cbn; split; [intros []|]; intros (_ & d' & Hd & _);
             discriminate ]).
    cbn. split; [intros []|]. intros [H _]. discriminate. }
  split.
  - intros [H|(script & Hin & H)]; [now left|]. right.
    apply Hs in H. destruct H as (Hf & data & Hd & H). now exists script, data.
  - intros [H|(script & data & Hin & Hf & Hd & H)]; [now left|]. right.
    exists script. split; [exact Hin|]. apply Hs. split; [exact Hf|].
    now exists data.
Qed.

Lemma harvested_investors soup r x :
  In x (investors (harvest_funding soup r)) <->
  In x (investors r) \/
  exists script data,
    In script (find_all soup "script" (fun _ => true)) /\
    PyStr.contains "funding" (tag_text script)
      || PyStr.contains "investor" (tag_text script) = true /\
    json_loads (tag_text script) = Return data /\
    investor_in data x.
Proof.
  destruct (harvest_funding_by_script soup r) as [_ ->].
  rewrite in_app_iff, in_flat_map.
  assert (forall script,
            In x (investors_in_script script) <->
            PyStr.contains "funding" (tag_text script)
              || PyStr.contains "investor" (tag_text script) = true /\
            exists data, json_loads (tag_text script) = Return data /\
                         investor_in data x) as Hs.
  { intros script. unfold investors_in_script, harvest_funding_script.
    destruct (tag_text script =? EmptyString) eqn:Ee.
    { apply String.eqb_eq in Ee. rewrite Ee. cbn.
      split; [intros []|]. intros [H _]. discriminate. }
    destruct (PyStr.contains "funding" (tag_text script)),
             (PyStr.contains "investor" (tag_text script)); cbn [negb andb orb];
      try (destruct (json_loads (tag_text script)) as [data|e];
           [ destruct (walk_funding_finds data (CompanyRecord_init None) x)
               as [_ ->]; cbn [investors CompanyRecord_init In];
             split;
             [ intros [[]|H]; split; [reflexivity|now exists data]
             | intros (_ & d' & Hd & H); injection Hd as <-; now right ]
           | cbn; split; [intros []|]; intros (_ & d' & Hd & _);
             discriminate ]).
    cbn. split; [intros []|]. intros [H _]. discriminate. }
  split.
  - intros [H|(script & Hin & H)]; [now left|]. right.
    apply Hs in H. destruct H as (Hf & data & Hd & H). now exists script, data.
  - intros [H|(script & data & Hin & Hf & Hd & H)]; [now left|]. right.
    exists script. split; [exact Hin|]. apply Hs. split; [exact Hf|].
    now exists data.
Qed.

Lemma harvested_locations soup r x :
  In x (hq_locations (harvest_locations soup r)) <->
  In x (hq_locations r) \/
  exists script data,
    In script (find_all soup "script" (fun _ => true)) /\
    PyStr.contains "address" (tag_text script) = true /\
    json_loads (tag_text script) = Return data /\
    location_in data x.
Proof.
  rewrite harvest_locations_by_script, in_app_iff, in_flat_map.
  assert (forall script,
            In x (hq_locations
                    (harvest_location_script (CompanyRecord_init None)
                       script)) <->
            PyStr.contains "address" (tag_text script) = true /\
            exists data, json_loads (tag_text script) = Return data /\
                         location_in data x) as Hs.
  { intros script. unfold harvest_location_script.
    destruct (tag_text script =? EmptyString) eqn:Ee.
    { apply String.eqb_eq in Ee. rewrite Ee. cbn.
      split; [intros []|]. intros [H _]. discriminate. }
    destruct (PyStr.contains "address" (tag_text script)); cbn [negb orb].
    - destruct (json_loads (tag_text script)) as [data|e].
      + rewrite walk_locations_finds. cbn [hq_locations CompanyRecord_init In].
        split.
        * intros [[]|H]. split; [reflexivity|now exists data].
        * intros (_ & d' & Hd & H). injection Hd as <-. now right.
      + cbn. split; [intros []|]. intros (_ & d' & Hd & _). discriminate.
    - cbn. split; [intros []|]. intros [H _]. discriminate. }
  split.
  - intros [H|(script & Hin & H)]; [now left|]. right.
    apply Hs in H. destruct H as (Hf & data & Hd & H). now exists script, data.
  - intros [H|(script & data & Hin & Hf & Hd & H)]; [now left|]. right.
    exists script. split; [exact Hin|]. apply Hs. split; [exact Hf|].
    now exists data.
Qed.

End ScriptBlocks.

(** ** The sequences of the returned mapping *)

Section ReturnedSequences.

Context {lib : Library}.

Ltac frame := intros; reflexivity.

Lemma extract_company_data_sequences html url d :
  extract_company_data html url = Return d ->
  let soup := BeautifulSoup html in
  exists r4 r5 r6,
    funding_rounds r4 = [] /\ investors r4 = [] /\ hq_locations r4 = [] /\
    _populate_funding_and_investors soup r4 = Return r5 /\
    hq_locations r5 = [] /\
    _populate_locations soup r5 = Return r6 /\
    funding_rounds r6 = funding_rounds r5 /\
    investors r6 = investors r5 /\
    d = to_dict r6.
Proof.
  intros H soup.
  destruct (extract_company_data_stages _ _ _ H) as (r1 & r5 & r6 & H1 & H5 & H6 & ->).
  fold soup in H1, H5, H6.
  exists (_populate_status_and_stage soup
            (_populate_meta_fallbacks soup (_populate_social_links soup r1))),
    r5, r6.
  assert (forall {A} (f : CompanyRecord -> A),
            (forall v r, f (set_about v r) = f r) ->
            (forall v r, f (set_website_url v r) = f r) ->
            (forall v r, f (set_industries v r) = f r) ->
            (forall v r, f (set_employees v r) = f r) ->
            (forall v r, f (set_social_links v r) = f r) ->
            (forall v r, f (set_linkedin_url v r) = f r) ->
            (forall v r, f (set_twitter_url v r) = f r) ->
            (forall v r, f (set_instagram_url v r) = f r) ->
            (forall v r, f (set_company_status v r) = f r) ->
            (forall v r, f (set_growth_stage v r) = f r) ->
            f (_populate_status_and_stage soup
                 (_populate_meta_fallbacks soup
                    (_populate_social_links soup r1)))
            = f (CompanyRecord_init url)) as Hearly.
  { intros A f F1 F2 F3 F4 F5 F6 F7 F8 F9 F10.
    rewrite populate_status_and_stage_frame,
      populate_meta_fallbacks_frame by assumption.
    unfold _populate_social_links. rewrite assign_all_frame by assumption.
    eapply ld_pass_frame; eauto. }
  repeat split.
  - now rewrite (Hearly _ funding_rounds).
  - now rewrite (Hearly _ investors).
  - now rewrite (Hearly _ hq_locations).
  - exact H5.
  - rewrite (populate_funding_frame hq_locations _ _ _ ltac:(frame) ltac:(frame) H5).
    now rewrite (Hearly _ hq_locations).
  - exact H6.
  - apply (populate_locations_frame funding_rounds _ _ _ ltac:(frame) H6).
  - apply (populate_locations_frame investors _ _ _ ltac:(frame) H6).
Qed.

Lemma in_map_VDict x l : In (VDict x) (map VDict l) <-> In x l.
Proof.
  rewrite in_map_iff. split.
  - intros (y & Hy & Hin). now injection Hy as <-.
  - intros H. now exists x.
Qed.

Lemma listed_in_sequence key (l : list dict) (d : dict) x :
  dict_lookup key d =
    (if is_none_or_empty (VList (map VDict l)) then None
     else Some (VList (map VDict l))) ->
  listed_under key d x <-> In x l.
Proof.
  intros H. unfold listed_under. rewrite H. destruct l as [|y l].
  - cbn. split; [intros (l' & Hl & _); discriminate|intros []].
  - cbn [is_none_or_empty map]. split.
    + intros (l' & Hl & Hin). injection Hl as <-.
      change (In (VDict x) (map VDict (y :: l))) in Hin.
      now apply in_map_VDict in Hin.
    + intros Hin. eexists. split; [reflexivity|].
      change (In (VDict x) (map VDict (y :: l))). now apply in_map_VDict.
Qed.

Lemma to_dict_funding_rounds r x :
  listed_under "funding_rounds" (to_dict r) x <-> In x (funding_rounds r).
Proof. apply listed_in_sequence. now rewrite to_dict_lookup. Qed.

Lemma to_dict_investors r x :
  listed_under "investors" (to_dict r) x <-> In x (investors r).
Proof. apply listed_in_sequence. now rewrite to_dict_lookup. Qed.

Lemma to_dict_hq_locations r x :
  listed_under "hq_locations" (to_dict r) x <-> In x (hq_locations r).
Proof. apply listed_in_sequence. now rewrite to_dict_lookup. Qed.

Lemma round_key_of_defined fr k :
  round_key_of fr = Return k -> exists key, round_key_of fr = Return (Some key).
Proof.
  unfold round_key_of, rmap.
  destruct (hash_tuple (round_key fr)); cbn; [eauto|discriminate].
Qed.

Lemma location_key_of_defined loc k :
  location_key_of loc = Return k ->
  exists key, location_key_of loc = Return (Some key).
Proof.
  unfold location_key_of, rmap.
  destruct (hash_tuple (location_key loc)); cbn; [eauto|discriminate].
Qed.

Lemma investor_key_of_defined inv k :
  investor_key_of inv = Return k -> truthy (dict_get "name" inv) = true ->
  exists key, investor_key_of inv = Return (Some key).
Proof.
  unfold investor_key_of, rmap. intros H Ht. rewrite Ht in *. cbn in *.
  destruct (py_hash (dict_get "name" inv)); cbn in *; [eauto|discriminate].
Qed.

Lemma investor_key_of_named inv key :
  investor_key_of inv = Return (Some key) ->
  truthy (dict_get "name" inv) = true.
Proof.
  unfold investor_key_of.
  destruct (truthy (dict_get "name" inv)); [reflexivity|discriminate].
Qed.

(** X1.  The funding rounds of the returned mapping are what the script
    blocks hold: each of them is the cleaned form of a round listed under
    [funding_rounds] of a dict at some depth of a script block whose text
    names "funding" or "investor" and parses; and every such round agrees
    on year, round, amount and currency, compared as Python compares them,
    with one of the returned rounds. *)
Theorem returned_rounds_come_from_scripts html url d :
  extract_company_data html url = Return d ->
  let soup := BeautifulSoup html in
  (forall x, listed_under "funding_rounds" d x ->
     exists script data, funding_script soup script data /\ round_in data x) /\
  (forall script data x,
     funding_script soup script data -> round_in data x ->
     exists y, listed_under "funding_rounds" d y /\
               same_round y x = true).
Proof.
  intros H soup.
  destruct (extract_company_data_sequences _ _ _ H)
    as (r4 & r5 & r6 & Hf4 & Hi4 & Hl4 & H5 & Hl5 & H6 & Hf6 & Hi6 & ->).
  fold soup in H5, H6.
  destruct (populate_funding_result _ _ _ H5) as [Hfo _].
  split.
  - intros x Hx. apply to_dict_funding_rounds in Hx. rewrite Hf6 in Hx.
    apply (subseq_In _ _ (first_occurrences_subseq _ _ _ _ Hfo)) in Hx.
    apply harvested_rounds in Hx. rewrite Hf4 in Hx.
    destruct Hx as [[]|(script & data & Hs & Hc & Hd & Hx)].
    exists script, data. now repeat split.
  - intros script data x (Hs & Hc & Hd) Hx.
    assert (In x (funding_rounds (harvest_funding soup r4))) as Hin.
    { apply harvested_rounds. right. now exists script, data. }
    destruct (first_occurrences_defined _ _ _ _ Hfo x Hin) as [k Hk].
    destruct (round_key_of_defined _ _ Hk) as [key Hkey].
    destruct (first_occurrences_covers _ _ _ _ Hfo x key Hin Hkey)
      as [[]|(y & Hy & Hyk)].
    exists y. split.
    + apply to_dict_funding_rounds. now rewrite Hf6.
    + now apply (round_key_same _ _ _ _ Hyk Hkey).
Qed.

(** X2.  The investors of the returned mapping are what the script blocks
    hold: each of them has a truthy name and is the cleaned form of an
    investor listed under [investors] of a dict at some depth of a script
    block whose text names "funding" or "investor" and parses; and every
    such investor with a truthy name has the name, compared as Python
    compares it, of one of the returned investors. *)
Theorem returned_investors_come_from_scripts html url d :
  extract_company_data html url = Return d ->
  let soup := BeautifulSoup html in
  (forall x, listed_under "investors" d x ->
     truthy (dict_get "name" x) = true /\
     exists script data,
       funding_script soup script data /\ investor_in data x) /\
  (forall script data x,
     funding_script soup script data -> investor_in data x ->
     truthy (dict_get "name" x) = true ->
     exists y, listed_under "investors" d y /\
               same_name y x = true).
Proof.
  intros H soup.
  destruct (extract_company_data_sequences _ _ _ H)
    as (r4 & r5 & r6 & Hf4 & Hi4 & Hl4 & H5 & Hl5 & H6 & Hf6 & Hi6 & ->).
  fold soup in H5, H6.
  destruct (populate_funding_result _ _ _ H5) as [_ Hfo].
  split.
  - intros x Hx. apply to_dict_investors in Hx. rewrite Hi6 in Hx. split.
    + destruct (first_occurrences_keyed _ _ _ _ Hfo x Hx) as (k & Hk & _).
      eapply investor_key_of_named, Hk.
    + apply (subseq_In _ _ (first_occurrences_subseq _ _ _ _ Hfo)) in Hx.
      apply harvested_investors in Hx. rewrite Hi4 in Hx.
      destruct Hx as [[]|(script & data & Hs & Hc & Hd & Hx)].
      exists script, data. now repeat split.
  - intros script data x (Hs & Hc & Hd) Hx Ht.
    assert (In x (investors (harvest_funding soup r4))) as Hin.
    { apply harvested_investors. right. now exists script, data. }
    destruct (first_occurrences_defined _ _ _ _ Hfo x Hin) as [k Hk].
    destruct (investor_key_of_defined _ _ Hk Ht) as [key Hkey].
    destruct (first_occurrences_covers _ _ _ _ Hfo x key Hin Hkey)
      as [[]|(y & Hy & Hyk)].
    exists y. split.
    + apply to_dict_investors. now rewrite Hi6.
    + now apply (investor_key_same _ _ _ _ Hyk Hkey).
Qed.

(** X3.  The locations of the returned mapping are what the script blocks
    hold: each of them is the location of a dict, at some depth of a script
    block whose text names "address" and parses, whose [address] is a dict
    with a truthy address or country; and every such location agrees on
    address and country, compared as Python compares them, with one of the
    returned locations. *)
Theorem returned_locations_come_from_scripts html url d :
  extract_company_data html url = Return d ->
  let soup := BeautifulSoup html in
  (forall x, listed_under "hq_locations" d x ->
     exists script data,
       address_script soup script data /\ location_in data x) /\
  (forall script data x,
     address_script soup script data -> location_in data x ->
     exists y, listed_under "hq_locations" d y /\
               same_location y x = true).
Proof.
  intros H soup.
  destruct (extract_company_data_sequences _ _ _ H)
    as (r4 & r5 & r6 & Hf4 & Hi4 & Hl4 & H5 & Hl5 & H6 & Hf6 & Hi6 & ->).
  fold soup in H5, H6.
  pose proof (populate_locations_result _ _ _ H6) as Hfo.
  split.
  - intros x Hx. apply to_dict_hq_locations in Hx.
    apply (subseq_In _ _ (first_occurrences_subseq _ _ _ _ Hfo)) in Hx.
    apply harvested_locations in Hx. rewrite Hl5 in Hx.
    destruct Hx as [[]|(script & data & Hs & Hc & Hd & Hx)].
    exists script, data. now repeat split.
  - intros script data x (Hs & Hc & Hd) Hx.
    assert (In x (hq_locations (harvest_locations soup r5))) as Hin.
    { apply harvested_locations. right. now exists script, data. }
    destruct (first_occurrences_defined _ _ _ _ Hfo x Hin) as [k Hk].
    destruct (location_key_of_defined _ _ Hk) as [key Hkey].
    destruct (first_occurrences_covers _ _ _ _ Hfo x key Hin Hkey)
      as [[]|(y & Hy & Hyk)].
    exists y. split.
    + now apply to_dict_hq_locations.
    + now apply (location_key_same _ _ _ _ Hyk Hkey).
Qed.

End ReturnedSequences.

Lemma returned_rounds_come_from_scripts_witness :
  @extract_company_data DedupSamples.dedup_lib DedupSamples.rounds_page None
    = Return rounds_mapping /\
  (forall x, listed_under "funding_rounds" rounds_mapping x ->
     exists script data,
       @funding_script DedupSamples.dedup_lib DedupSamples.rounds_soup
         script data
       /\ round_in data x) /\
  (forall script data x,
     @funding_script DedupSamples.dedup_lib DedupSamples.rounds_soup
       script data ->
     round_in data x ->
     exists y, listed_under "funding_rounds" rounds_mapping y /\
               same_round y x = true).
Proof.
  split; [vm_compute; reflexivity|].
  apply (@returned_rounds_come_from_scripts DedupSamples.dedup_lib
           DedupSamples.rounds_page None rounds_mapping).
  vm_compute. reflexivity.
Defined.

Lemma returned_investors_come_from_scripts_witness :
  @extract_company_data DedupSamples.dedup_lib DedupSamples.rounds_page None
    = Return rounds_mapping /\
  (forall x, listed_under "investors" rounds_mapping x ->
     truthy (dict_get "name" x) = true /\
     exists script data,
       @funding_script DedupSamples.dedup_lib DedupSamples.rounds_soup
         script data
       /\ investor_in data x) /\
  (forall script data x,
     @funding_script DedupSamples.dedup_lib DedupSamples.rounds_soup
       script data ->
     investor_in data x ->
     truthy (dict_get "name" x) = true ->
     exists y, listed_under "investors" rounds_mapping y /\
               same_name y x = true).
Proof.
  split; [vm_compute; reflexivity|].
  apply (@returned_investors_come_from_scripts DedupSamples.dedup_lib
           DedupSamples.rounds_page None rounds_mapping).
  vm_compute. reflexivity.
Defined.

Lemma returned_locations_come_from_scripts_witness :
  @extract_company_data DedupSamples.dedup_lib DedupSamples.offices_page None
    = Return offices_mapping /\
  (forall x, listed_under "hq_locations" offices_mapping x ->
     exists script data,
       @address_script DedupSamples.dedup_lib DedupSamples.offices_soup
         script data
       /\ location_in data x) /\
  (forall script data x,
     @address_script DedupSamples.dedup_lib DedupSamples.offices_soup
       script data ->
     location_in data x ->
     exists y, listed_under "hq_locations" offices_mapping y /\
               same_location y x = true).
Proof.
  split; [vm_compute; reflexivity|].
  apply (@returned_locations_come_from_scripts DedupSamples.dedup_lib
           DedupSamples.offices_page None offices_mapping).
  vm_compute. reflexivity.
Defined.

Lemma lookup_In {A} key (d : list (string * A)) v :
  dict_lookup key d = Some v -> In (key, v) d.
Proof.
  induction d as [|[k w] d IH]; [discriminate|]. cbn.
  destruct (k =? key) eqn:E.
  - apply String.eqb_eq in E. intros H. injection H as <-. left. now subst.
  - intros H. right. now apply IH.
Qed.

Lemma inside_trans d d' node :
  inside d node -> inside d' (VDict d) -> inside d' node.
Proof.
  induction 1 as [|k v items Hin _ IH|v items Hin _ IH]; intros H.
  - exact H.
  - eapply inside_dict; eauto.
  - eapply inside_list; eauto.
Qed.

Section ReturnedEntries.

Context {lib : Library}.

(** X4.  The walk reaches every dict at any depth of a payload: a round
    listed under [funding_rounds] of such a dict is appended, cleaned, to
    the rounds of the record, and an investor listed under [investors] of
    that round is appended, cleaned, to the investors of the company. *)
Theorem round_investors_are_company_investors node d fr inv r :
  inside d node ->
  listed_under "funding_rounds" d fr ->
  listed_under "investors" fr inv ->
  In (clean_round fr) (funding_rounds (_walk_for_funding_and_investors node r))
  /\
  In (clean_investor inv) (investors (_walk_for_funding_and_investors node r)).
Proof.
  intros Hd Hfr Hinv.
  destruct (walk_funding_finds node r (clean_round fr)) as [Hr _].
  destruct (walk_funding_finds node r (clean_investor inv)) as [_ Hi].
  split.
  - apply Hr. right. now exists d, fr.
  - apply Hi. right. exists fr, inv. split; [|now split].
    apply (inside_trans _ _ _ Hd).
    destruct Hfr as (l & Hl & Hin).
    eapply inside_dict; [apply (lookup_In _ _ _ Hl)|].
    eapply inside_list; [exact Hin|constructor].
Qed.

(** X5.  When the location pass returns, the locations it leaves are the
    harvested ones without duplicates of the (address, country) key: they
    are a subsequence of the harvested locations, so order is preserved; no
    two of them have the same key; every harvested location has its key
    among them; and the first location with a given key is the one kept.
    The key is the pair of the two fields, compared as Python compares
    them: the two fields of every harvested location are hashable, no two
    kept locations agree on both, every harvested location agrees on both
    with a kept one, and a harvested location that no earlier one agrees
    with on both is kept. *)
Theorem locations_deduplicated soup r r' :
  _populate_locations soup r = Return r' ->
  let harvested := hq_locations (harvest_locations soup r) in
  let kept := hq_locations r' in
  subseq kept harvested /\
  NoDup (map location_key_of kept) /\
  (forall loc, In loc harvested ->
     exists loc', In loc' kept /\ location_key_of loc' = location_key_of loc) /\
  (forall l1 loc l2, harvested = l1 ++ loc :: l2 ->
     (forall x, In x l1 -> location_key_of x <> location_key_of loc) ->
     In loc kept) /\
  (forall loc, In loc harvested ->
     hashable (dict_get "address" loc) && hashable (dict_get "country" loc)
     = true) /\
  (forall l1 x l2 y l3, kept = l1 ++ x :: l2 ++ y :: l3 ->
     same_location x y = false) /\
  (forall loc, In loc harvested ->
     exists loc', In loc' kept /\ same_location loc' loc = true) /\
  (forall l1 loc l2, harvested = l1 ++ loc :: l2 ->
     (forall x, In x l1 -> same_location x loc = false) ->
     In loc kept).
Proof.
  intros H harvested kept.
  pose proof (populate_locations_result _ _ _ H) as Hfo.
  fold harvested kept in Hfo.
  assert (forall loc, In loc harvested ->
            exists k, location_key_of loc = Return (Some k)) as Hkey.
  { intros loc Hin.
    destruct (first_occurrences_defined _ _ _ _ Hfo loc Hin) as [k Hk].
    eapply location_key_of_defined, Hk. }
  split; [eapply first_occurrences_subseq, Hfo|].
  split; [eapply first_occurrences_nodup, Hfo|].
  split.
  { intros loc Hin. destruct (Hkey loc Hin) as [k Hk].
    destruct (first_occurrences_covers _ _ _ _ Hfo loc k Hin Hk)
      as [[]|(y & Hy & Hyk)].
    exists y. split; [exact Hy|]. unfold has_key in Hyk. congruence. }
  split.
  { intros l1 loc l2 Hsplit Hfirst.
    assert (In loc harvested) as Hin by (rewrite Hsplit; apply in_elt).
    destruct (Hkey loc Hin) as [k Hk].
    rewrite Hsplit in Hfo.
    eapply first_occurrences_first; eauto.
    intros y Hy Hyk. apply (Hfirst y Hy). unfold has_key in Hyk. congruence. }
  split.
  { intros loc Hin. destruct (Hkey loc Hin) as [k Hk].
    destruct (location_key_of_fields _ _ Hk) as (h1 & h2 & _ & H1 & H2).
    now rewrite (py_hash_hashable _ _ H1), (py_hash_hashable _ _ H2). }
  split;
    [eapply first_occurrences_apart; [apply location_key_same|exact Hfo]|].
  split.
  - intros loc Hin. destruct (Hkey loc Hin) as [k Hk].
    eapply first_occurrences_covers_same;
      [apply location_key_same|exact Hfo|exact Hin|exact Hk].
  - intros l1 loc l2 Hsplit Hfirst.
    assert (In loc harvested) as Hin by (rewrite Hsplit; apply in_elt).
    destruct (Hkey loc Hin) as [k Hk].
    rewrite Hsplit in Hfo.
    eapply first_occurrences_first_same;
      [apply location_key_same|exact Hfo|exact Hk|exact Hfirst].
Qed.

Lemma location_of_shape addr loc :
  location_of addr = Some loc ->
  map fst loc = ["address"; "country"] /\
  truthy (dict_get "address" loc) || truthy (dict_get "country" loc) = true.
Proof.
  unfold location_of.
  destruct (truthy _ || truthy _) eqn:E; [|discriminate].
  intros H. injection H as <-. split; [reflexivity|exact E].
Qed.

(** X6.  The entries of the three sequences of the returned mapping have
    the keys the cleaning gives them, in order: a round has year, round,
    amount, currency and investors, and its investors are a truthy value or
    the empty list, never missing; an investor has name, type and path, and
    a truthy name; a location has address and country, one of them
    truthy. *)
Theorem returned_entries_are_normalized html url d :
  extract_company_data html url = Return d ->
  (forall x, listed_under "funding_rounds" d x ->
     map fst x = ["year"; "round"; "amount"; "currency"; "investors"] /\
     (dict_get "investors" x = VList [] \/
      truthy (dict_get "investors" x) = true)) /\
  (forall x, listed_under "investors" d x ->
     map fst x = ["name"; "type"; "path"] /\
     truthy (dict_get "name" x) = true) /\
  (forall x, listed_under "hq_locations" d x ->
     map fst x = ["address"; "country"] /\
     truthy (dict_get "address" x) || truthy (dict_get "country" x) = true).
Proof.
  intros H.
  destruct (extract_company_data_sequences _ _ _ H)
    as (r4 & r5 & r6 & Hf4 & Hi4 & Hl4 & H5 & Hl5 & H6 & Hf6 & Hi6 & ->).
  destruct (populate_funding_result _ _ _ H5) as [Hfr Hfi].
  pose proof (populate_locations_result _ _ _ H6) as Hfl.
  split; [|split].
  - intros x Hx. apply to_dict_funding_rounds in Hx. rewrite Hf6 in Hx.
    apply (subseq_In _ _ (first_occurrences_subseq _ _ _ _ Hfr)) in Hx.
    apply harvested_rounds in Hx. rewrite Hf4 in Hx.
    destruct Hx as [[]|(_ & _ & _ & _ & _ & _ & fr & _ & _ & ->)].
    split; [reflexivity|].
    change (dict_get "investors" (clean_round fr))
      with (py_or (dict_get "investors" fr) (VList [])).
    unfold py_or. destruct (truthy (dict_get "investors" fr)) eqn:E; auto.
  - intros x Hx. apply to_dict_investors in Hx. rewrite Hi6 in Hx. split.
    + apply (subseq_In _ _ (first_occurrences_subseq _ _ _ _ Hfi)) in Hx.
      apply harvested_investors in Hx. rewrite Hi4 in Hx.
      now destruct Hx as [[]|(_ & _ & _ & _ & _ & _ & inv & _ & _ & ->)].
    + destruct (first_occurrences_keyed _ _ _ _ Hfi x Hx) as (k & Hk & _).
      eapply investor_key_of_named, Hk.
  - intros x Hx. apply to_dict_hq_locations in Hx.
    apply (subseq_In _ _ (first_occurrences_subseq _ _ _ _ Hfl)) in Hx.
    apply harvested_locations in Hx. rewrite Hl5 in Hx.
    destruct Hx as [[]|(_ & _ & _ & _ & _ & _ & addr & _ & _ & Hl)].
    eapply location_of_shape, Hl.
Qed.

(** X8.  The returned status is "operational" exactly when the lower-cased
    text of the page contains none of "closed", "defunct", "acquired" and
    "ipo"; and the mapping has no growth stage exactly when the text
    contains none of the stage keywords. *)
Theorem status_defaults_to_operational html url d :
  extract_company_data html url = Return d ->
  let text := PyStr.lower (soup_text (BeautifulSoup html)) in
  (dict_lookup "company_status" d = Some (VStr "operational") <->
   forall key, In key ["closed"; "defunct"; "acquired"; "ipo"] ->
     PyStr.contains key text = false) /\
  (dict_lookup "growth_stage" d = None <->
   forall key, In key (map fst stage_keywords) ->
     PyStr.contains key text = false).
Proof.
  intros H text.
  destruct (extract_company_data_status _ _ _ H) as [-> ->]. fold text.
  split.
  - unfold status_of_text. split.
    + intros Hs key Hin.
      destruct (PyStr.contains "closed" text) eqn:E1; [discriminate|].
      destruct (PyStr.contains "defunct" text) eqn:E2; [discriminate|].
      destruct (PyStr.contains "acquired" text) eqn:E3; [discriminate|].
      destruct (PyStr.contains "ipo" text) eqn:E4; [discriminate|].
      cbn in Hin. intuition (subst; assumption).
    + intros Hall.
      rewrite (Hall "closed"), (Hall "defunct"), (Hall "acquired"),
        (Hall "ipo") by (cbn; auto 6).
      reflexivity.
  - assert (forall pairs,
              first_stage text pairs = None <->
              forall key, In key (map fst pairs) ->
                PyStr.contains key text = false) as Hfs.
    { induction pairs as [|[key stage] pairs IH]; cbn.
      - split; [intros _ key []|reflexivity].
      - destruct (PyStr.contains key text) eqn:E.
        + split; [discriminate|]. intros Hall.
          rewrite (Hall key) in E by now left. discriminate.
        + rewrite IH. split.
          * intros Hall k [<-|Hin]; [exact E|now apply Hall].
          * intros Hall k Hin. apply Hall. now right. }
    rewrite <- Hfs.
    destruct (first_stage text stage_keywords); split;
      (discriminate || reflexivity).
Qed.

(** X9.  No pass writes the attributes [similarweb_traffic], [team],
    [kpi_summary], [nearby_companies], [related_companies] and [news]: the
    returned mapping never has these keys. *)
Theorem unfilled_fields_are_never_returned html url d key :
  extract_company_data html url = Return d ->
  In key unfilled_fields ->
  dict_lookup key d = None.
Proof.
  intros H Hin.
  destruct (extract_company_data_stages _ _ _ H)
    as (r1 & r5 & r6 & H1 & H5 & H6 & ->).
  set (soup := BeautifulSoup html) in *.
  set (f := fun r : CompanyRecord =>
              (similarweb_traffic r, team r, kpi_summary r,
               nearby_companies r, related_companies r, news r)).
  assert (f r6 = f (CompanyRecord_init url)) as Hf.
  { rewrite (populate_locations_frame f _ _ _ ltac:(reflexivity) H6).
    rewrite (populate_funding_frame f _ _ _ ltac:(reflexivity)
               ltac:(reflexivity) H5).
    rewrite populate_status_and_stage_frame,
      populate_meta_fallbacks_frame by reflexivity.
    unfold _populate_social_links. rewrite assign_all_frame by reflexivity.
    eapply ld_pass_frame; eauto; reflexivity. }
  unfold f in Hf. cbn in Hf. injection Hf as E1 E2 E3 E4 E5 E6.
  rewrite to_dict_lookup. unfold to_dict_data.
  rewrite E1, E2, E3, E4, E5, E6.
  cbn in Hin.
  destruct Hin as [<-|[<-|[<-|[<-|[<-|[<-|[]]]]]]]; reflexivity.
Qed.

End ReturnedEntries.

Lemma round_investors_are_company_investors_witness :
  let round := [("year", VInt 2021); ("round", VStr "A");
                ("investors",
                 VList [VDict [("name", VStr "Acme Capital")]])] in
  let walked := _walk_for_funding_and_investors ProfileSamples.funded_data
                  (CompanyRecord_init None) in
  In (clean_round round) (funding_rounds walked) /\
  In (clean_investor [("name", VStr "Acme Capital")]) (investors walked).
Proof.
  cbv zeta.
  eapply (round_investors_are_company_investors ProfileSamples.funded_data).
  - apply inside_here.
  - eexists. split; [reflexivity|]. left. reflexivity.
  - eexists. split; [reflexivity|]. left. reflexivity.
Defined.

Lemma locations_deduplicated_witness :
  let main_st := [("address", VStr "1 Main St"); ("country", VStr "US")] in
  let high_st := [("address", VStr "2 High St"); ("country", VStr "UK")] in
  hq_locations
    (@harvest_locations DedupSamples.dedup_lib DedupSamples.offices_soup
       (CompanyRecord_init None))
  = [main_st; high_st; main_st] /\
  @_populate_locations DedupSamples.dedup_lib DedupSamples.offices_soup
    (CompanyRecord_init None) = Return offices_record /\
  hq_locations offices_record = [main_st; high_st] /\
  same_location main_st high_st = false /\
  (forall l1 x l2 y l3,
     hq_locations offices_record = l1 ++ x :: l2 ++ y :: l3 ->
     same_location x y = false) /\
  (forall loc,
     In loc (hq_locations
               (@harvest_locations DedupSamples.dedup_lib
                  DedupSamples.offices_soup (CompanyRecord_init None))) ->
     exists loc', In loc' (hq_locations offices_record) /\
                  same_location loc' loc = true).
Proof.
  cbv zeta.
  split; [vm_compute; reflexivity|]. split; [vm_compute; reflexivity|].
  split; [reflexivity|]. split; [reflexivity|].
  pose proof (@locations_deduplicated DedupSamples.dedup_lib
                DedupSamples.offices_soup (CompanyRecord_init None)
                offices_record) as T.
  cbv zeta in T.
  destruct T as (_ & _ & _ & _ & _ & Hapart & Hcover & _);
    [vm_compute; reflexivity|].
  split; [exact Hapart|exact Hcover].
Defined.

Lemma returned_entries_are_normalized_witness :
  @extract_company_data ProfileSamples.profile_lib ProfileSamples.acme_page
    (Some "https://dealroom.example/acme") = Return acme_mapping /\
  forall x, listed_under "investors" acme_mapping x ->
    map fst x = ["name"; "type"; "path"] /\
    truthy (dict_get "name" x) = true.
Proof.
  split; [vm_compute; reflexivity|].
  apply (@returned_entries_are_normalized ProfileSamples.profile_lib
           ProfileSamples.acme_page (Some "https://dealroom.example/acme")
           acme_mapping).
  vm_compute. reflexivity.
Defined.

Lemma status_defaults_to_operational_witness :
  @extract_company_data Samples.sample_lib Samples.empty_page None
    = Return [("company_status", VStr "operational")] /\
  (dict_lookup "company_status" [("company_status", VStr "operational")]
     = Some (VStr "operational") <->
   forall key, In key ["closed"; "defunct"; "acquired"; "ipo"] ->
     PyStr.contains key (PyStr.lower "No data Empty page") = false).
Proof.
  split; [vm_compute; reflexivity|].
  apply (@status_defaults_to_operational Samples.sample_lib
           Samples.empty_page None).
  vm_compute. reflexivity.
Defined.

Lemma unfilled_fields_are_never_returned_witness :
  @extract_company_data ProfileSamples.profile_lib ProfileSamples.acme_page
    (Some "https://dealroom.example/acme") = Return acme_mapping /\
  In "team" unfilled_fields /\
  dict_lookup "team" acme_mapping = None.
Proof.
  split; [vm_compute; reflexivity|]. split; [right; left; reflexivity|].
  apply (@unfilled_fields_are_never_returned ProfileSamples.profile_lib
           ProfileSamples.acme_page (Some "https://dealroom.example/acme")).
  - vm_compute. reflexivity.
  - right. left. reflexivity.
Defined.

(** ** Entries that cannot be hashed *)

Lemma py_hash_raises v e : py_hash v = Raise e -> e = TypeError.
Proof. destruct v; cbn; intros H; try discriminate; now injection H. Qed.

Lemma hash_tuple_raises vs e : hash_tuple vs = Raise e -> e = TypeError.
Proof.
  induction vs as [|v vs IH]; cbn; [discriminate|].
  destruct (py_hash v) eqn:E; cbn.
  - destruct (hash_tuple vs); cbn; [discriminate|].
    intros H. injection H as <-. now apply IH.
  - intros H. injection H as <-. eapply py_hash_raises, E.
Qed.

Lemma for_each_dedup_raises key_of l : forall st e,
  for_each l (dedup_step key_of) st = Raise e ->
  exists x, In x l /\ key_of x = Raise e.
Proof.
  induction l as [|x l IH]; intros st e; cbn; [discriminate|].
  unfold dedup_step at 1.
  destruct (key_of x) as [[key|]|e'] eqn:E; cbn [bind].
  - destruct (seen_mem key (fst st)); cbn [bind]; intros H;
      apply IH in H; destruct H as (y & Hy & Hk); exists y; auto.
  - intros H. apply IH in H. destruct H as (y & Hy & Hk). exists y; auto.
  - intros H. injection H as <-. exists x. auto.
Qed.

Lemma for_each_dedup_raise_intro key_of l x e0 : forall st,
  In x l -> key_of x = Raise e0 ->
  exists e, for_each l (dedup_step key_of) st = Raise e.
Proof.
  induction l as [|y l IH]; intros st Hin Hk; [destruct Hin|].
  cbn. unfold dedup_step at 1.
  destruct (key_of y) as [[key|]|e'] eqn:E; cbn [bind].
  - destruct Hin as [->|Hin]; [congruence|].
    destruct (seen_mem key (fst st)); cbn [bind]; now apply IH.
  - destruct Hin as [->|Hin]; [congruence|]. now apply IH.
  - eauto.
Qed.

Section RaisedExceptions.

Context {lib : Library}.

Lemma round_key_of_raises x e :
  round_key_of x = Raise e <-> hash_tuple (round_key x) = Raise e.
Proof.
  unfold round_key_of, rmap.
  destruct (hash_tuple (round_key x)); cbn; split; congruence.
Qed.

Lemma location_key_of_raises x e :
  location_key_of x = Raise e <-> hash_tuple (location_key x) = Raise e.
Proof.
  unfold location_key_of, rmap.
  destruct (hash_tuple (location_key x)); cbn; split; congruence.
Qed.

Lemma investor_key_of_raises x e :
  investor_key_of x = Raise e <->
  truthy (dict_get "name" x) = true /\ py_hash (dict_get "name" x) = Raise e.
Proof.
  unfold investor_key_of, rmap.
  destruct (truthy (dict_get "name" x)); cbn.
  - destruct (py_hash (dict_get "name" x)); cbn; split.
    + discriminate.
    + intros [_ H]. discriminate.
    + intros H. split; [reflexivity|congruence].
    + intros [_ H]. congruence.
  - split; [discriminate|]. intros [H _]. discriminate.
Qed.

(** What makes each of the two script passes raise. *)
Lemma populate_funding_raises soup r e :
  _populate_funding_and_investors soup r = Raise e <->
  e = TypeError /\
  ((exists x, In x (funding_rounds (harvest_funding soup r)) /\
              hash_tuple (round_key x) = Raise TypeError) \/
   (exists x, In x (investors (harvest_funding soup r)) /\
              truthy (dict_get "name" x) = true /\
              py_hash (dict_get "name" x) = Raise TypeError)).
Proof.
  unfold _populate_funding_and_investors.
  rewrite (for_each_ext _ _ _ dedup_round_step).
  destruct (for_each _ (dedup_step round_key_of) _) as [rounds|e1] eqn:Er;
    cbn [bind].
  - rewrite (for_each_ext _ _ _ dedup_investor_step).
    change (investors (set_funding_rounds (snd rounds)
                         (harvest_funding soup r)))
      with (investors (harvest_funding soup r)).
    destruct (for_each _ (dedup_step investor_key_of) _) as [invs|e2] eqn:Ei;
      cbn [bind].
    + split; [discriminate|]. intros (-> & [(x & Hin & Hx)|(x & Hin & Ht & Hx)]).
      * apply round_key_of_raises in Hx.
        destruct (for_each_dedup_raise_intro _ _ _ _ ([], []) Hin Hx)
          as (e' & He'). congruence.
      * assert (investor_key_of x = Raise TypeError) as Hk
            by now apply investor_key_of_raises.
        destruct (for_each_dedup_raise_intro _ _ _ _ ([], []) Hin Hk)
          as (e' & He'). congruence.
    + split.
      * intros H. injection H as <-.
        apply for_each_dedup_raises in Ei. destruct Ei as (x & Hin & Hk).
        apply investor_key_of_raises in Hk. destruct Hk as (Ht & Hk).
        pose proof (py_hash_raises _ _ Hk) as ->.
        split; [reflexivity|]. right. now exists x.
      * intros (-> & _).
        apply for_each_dedup_raises in Ei. destruct Ei as (x & Hin & Hk).
        apply investor_key_of_raises in Hk. destruct Hk as (Ht & Hk).
        now rewrite (py_hash_raises _ _ Hk).
  - apply for_each_dedup_raises in Er. destruct Er as (x & Hin & Hk).
    apply round_key_of_raises in Hk.
    pose proof (hash_tuple_raises _ _ Hk) as ->. split.
    + intros H. injection H as <-. split; [reflexivity|]. left. now exists x.
    + now intros (-> & _).
Qed.

Lemma populate_locations_raises soup r e :
  _populate_locations soup r = Raise e <->
  e = TypeError /\
  exists x, In x (hq_locations (harvest_locations soup r)) /\
            hash_tuple (location_key x) = Raise TypeError.
Proof.
  unfold _populate_locations.
  rewrite (for_each_ext _ _ _ dedup_location_step).
  destruct (for_each _ (dedup_step location_key_of) _) as [locs|e1] eqn:El;
    cbn [bind].
  - split; [discriminate|]. intros (-> & x & Hin & Hx).
    apply location_key_of_raises in Hx.
    destruct (for_each_dedup_raise_intro _ _ _ _ ([], []) Hin Hx)
      as (e' & He'). congruence.
  - apply for_each_dedup_raises in El. destruct El as (x & Hin & Hk).
    apply location_key_of_raises in Hk.
    pose proof (hash_tuple_raises _ _ Hk) as ->. split.
    + intros H. injection H as <-. split; [reflexivity|]. now exists x.
    + now intros (-> & _).
Qed.

Lemma first_org_found candidates obj :
  first_org candidates = Return (Some obj) ->
  In obj candidates /\ is_org obj = Return true.
Proof.
  induction candidates as [|c rest IH]; cbn; [discriminate|].
  destruct (is_org c) as [[|]|e'] eqn:E; cbn [bind].
  - intros H. injection H as <-. split; [now left|exact E].
  - intros H. destruct (IH H). split; [now right|assumption].
  - discriminate.
Qed.

Lemma first_org_none candidates :
  first_org candidates = Return None ->
  forall obj, In obj candidates -> is_org obj = Return false.
Proof.
  induction candidates as [|c rest IH]; cbn; [intros _ obj []|].
  destruct (is_org c) as [[|]|e'] eqn:E; cbn [bind]; try discriminate.
  intros H obj [<-|Hin]; [exact E|now apply IH].
Qed.

(** X11.  Once the structured metadata is read, the extraction raises
    [TypeError] exactly when a script block that is scanned holds a round,
    an investor with a truthy name, or a location with a key component that
    cannot be hashed (a list or a dict); and it returns a mapping exactly
    when there is none. *)
Theorem unhashable_key_aborts_the_extraction html url r1 :
  ld_pass (BeautifulSoup html) (CompanyRecord_init url) = Return r1 ->
  (extract_company_data html url = Raise TypeError <->
   unhashable_key (BeautifulSoup html)) /\
  ((exists d, extract_company_data html url = Return d) <->
   ~ unhashable_key (BeautifulSoup html)).
Proof.
  intros H1. set (soup := BeautifulSoup html) in *.
  set (r4 := _populate_status_and_stage soup
               (_populate_meta_fallbacks soup
                  (_populate_social_links soup r1))).
  assert (funding_rounds r4 = [] /\ investors r4 = [] /\ hq_locations r4 = [])
    as (Hf4 & Hi4 & Hl4).
  { unfold r4.
    rewrite !populate_status_and_stage_frame,
      !populate_meta_fallbacks_frame by reflexivity.
    unfold _populate_social_links. rewrite !assign_all_frame by reflexivity.
    rewrite (ld_pass_frame funding_rounds _ _ _ ltac:(reflexivity)
               ltac:(reflexivity) ltac:(reflexivity) ltac:(reflexivity)
               ltac:(reflexivity) ltac:(reflexivity) ltac:(reflexivity)
               ltac:(reflexivity) H1).
    rewrite (ld_pass_frame investors _ _ _ ltac:(reflexivity)
               ltac:(reflexivity) ltac:(reflexivity) ltac:(reflexivity)
               ltac:(reflexivity) ltac:(reflexivity) ltac:(reflexivity)
               ltac:(reflexivity) H1).
    rewrite (ld_pass_frame hq_locations _ _ _ ltac:(reflexivity)
               ltac:(reflexivity) ltac:(reflexivity) ltac:(reflexivity)
               ltac:(reflexivity) ltac:(reflexivity) ltac:(reflexivity)
               ltac:(reflexivity) H1).
    now repeat split. }
  assert (extract_company_data html url = Raise TypeError <->
          unhashable_key soup) as Hiff.
  { rewrite extract_company_data_passes. cbv zeta. fold soup.
    rewrite H1. cbn [bind]. fold r4. unfold unhashable_key.
    destruct (_populate_funding_and_investors soup r4) as [r5|e5] eqn:E5;
      cbn [bind].
    - assert (hq_locations r5 = []) as Hl5.
      { rewrite (populate_funding_frame hq_locations _ _ _
                   ltac:(reflexivity) ltac:(reflexivity) E5). exact Hl4. }
      assert (forall e, _populate_funding_and_investors soup r4 <> Raise e)
        as Hno by (intros e; rewrite E5; discriminate).
      destruct (_populate_locations soup r5) as [r6|e6] eqn:E6; cbn [bind].
      + split; [discriminate|].
        intros [(script & data & x & Hs & Hx & Hh)
               |[(script & data & x & Hs & Hx & Ht & Hh)
                |(script & data & x & Hs & Hx & Hh)]].
        * exfalso. apply (Hno TypeError). apply populate_funding_raises.
          split; [reflexivity|]. left. exists x. split; [|exact Hh].
          apply harvested_rounds. right. destruct Hs as (? & ? & ?).
          now exists script, data.
        * exfalso. apply (Hno TypeError). apply populate_funding_raises.
          split; [reflexivity|]. right. exists x. split; [|now split].
          apply harvested_investors. right. destruct Hs as (? & ? & ?).
          now exists script, data.
        * exfalso.
          assert (_populate_locations soup r5 = Raise TypeError) as Hr.
          { apply populate_locations_raises. split; [reflexivity|].
            exists x. split; [|exact Hh].
            apply harvested_locations. right. destruct Hs as (? & ? & ?).
            now exists script, data. }
          congruence.
      + apply populate_locations_raises in E6.
        destruct E6 as (-> & x & Hin & Hh). split; [|reflexivity].
        intros _. right. right.
        apply harvested_locations in Hin. rewrite Hl5 in Hin.
        destruct Hin as [[]|(script & data & Hs & Hc & Hd & Hx)].
        exists script, data, x. now repeat split.
    - apply populate_funding_raises in E5.
      destruct E5 as (-> & Hcase). split; [|reflexivity]. intros _.
      destruct Hcase as [(x & Hin & Hh)|(x & Hin & Ht & Hh)].
      + left. apply harvested_rounds in Hin. rewrite Hf4 in Hin.
        destruct Hin as [[]|(script & data & Hs & Hc & Hd & Hx)].
        exists script, data, x. now repeat split.
      + right. left. apply harvested_investors in Hin. rewrite Hi4 in Hin.
        destruct Hin as [[]|(script & data & Hs & Hc & Hd & Hx)].
        exists script, data, x. now repeat split. }
  split; [exact Hiff|]. split.
  - intros (d & Hd) Hu. apply Hiff in Hu. congruence.
  - intros Hn.
    destruct (extract_company_data html url) as [d|e] eqn:E; [eauto|].
    exfalso. apply Hn, Hiff. f_equal.
    revert E. rewrite extract_company_data_passes. cbv zeta. fold soup.
    rewrite H1. cbn [bind]. fold r4.
    destruct (_populate_funding_and_investors soup r4) as [r5|e5] eqn:E5;
      cbn [bind].
    + destruct (_populate_locations soup r5) as [r6|e6] eqn:E6; cbn [bind];
        [discriminate|].
      intros H. injection H as <-.
      now apply populate_locations_raises in E6.
    + intros H. injection H as <-.
      now apply populate_funding_raises in E5.
Qed.

End RaisedExceptions.

Lemma unhashable_key_aborts_the_extraction_witness :
  @ld_pass ProfileSamples.profile_lib ProfileSamples.range_soup
    (CompanyRecord_init None) = Return (CompanyRecord_init None) /\
  @extract_company_data ProfileSamples.profile_lib ProfileSamples.range_page
    None = Raise TypeError /\
  @unhashable_key ProfileSamples.profile_lib ProfileSamples.range_soup.
Proof.
  split; [vm_compute; reflexivity|]. split; [vm_compute; reflexivity|].
  apply (@unhashable_key_aborts_the_extraction ProfileSamples.profile_lib
           ProfileSamples.range_page None (CompanyRecord_init None)).
  - vm_compute. reflexivity.
  - vm_compute. reflexivity.
Defined.

(** ** The structured metadata *)

Lemma ascii_lt_trans a b c :
  Ascii.compare a b = Lt -> Ascii.compare b c = Lt -> Ascii.compare a c = Lt.
Proof.
  unfold Ascii.compare. rewrite !N.compare_lt_iff. apply N.lt_trans.
Qed.

Lemma str_lt_trans a : forall b c, str_lt a b -> str_lt b c -> str_lt a c.
Proof.
  unfold str_lt.
  induction a as [|x a IH]; intros [|y b] [|z c]; cbn; try discriminate;
    try reflexivity.
  destruct (Ascii.compare x y) eqn:Exy; try discriminate.
  - apply Ascii.compare_eq_iff in Exy. subst y.
    destruct (Ascii.compare x z) eqn:Exz; try discriminate; try reflexivity.
    apply IH.
  - intros _. destruct (Ascii.compare y z) eqn:Eyz; try discriminate.
    + apply Ascii.compare_eq_iff in Eyz. subst z. now rewrite Exy.
    + intros _. now rewrite (ascii_lt_trans _ _ _ Exy Eyz).
Qed.

Lemma insert_sorted_In s l x :
  In x (PyStr.insert_sorted s l) <-> x = s \/ In x l.
Proof.
  induction l as [|y l IH]; cbn.
  - intuition.
  - destruct (String.compare s y) eqn:E; cbn.
    + apply String.compare_eq_iff in E. subst y. intuition.
    + intuition.
    + rewrite IH. intuition.
Qed.

Lemma insert_sorted_increasing s l :
  increasing l -> increasing (PyStr.insert_sorted s l).
Proof.
  induction l as [|y l IH]; cbn.
  - intros _. split; constructor.
  - intros [Hy Hl]. destruct (String.compare s y) eqn:E; cbn.
    + now split.
    + split; [|now split]. constructor; [exact E|].
      eapply Forall_impl; [|exact Hy]. intros z Hz.
      eapply str_lt_trans; [exact E|exact Hz].
    + split; [|now apply IH].
      apply Forall_forall. intros z Hz. apply insert_sorted_In in Hz.
      destruct Hz as [->|Hz].
      * unfold str_lt. rewrite String.compare_antisym, E. reflexivity.
      * rewrite Forall_forall in Hy. now apply Hy.
Qed.

Lemma sorted_set_In l x : In x (PyStr.sorted_set l) <-> In x l.
Proof.
  unfold PyStr.sorted_set. induction l as [|y l IH]; cbn; [reflexivity|].
  rewrite insert_sorted_In, IH. intuition.
Qed.

Lemma sorted_set_increasing l : increasing (PyStr.sorted_set l).
Proof.
  unfold PyStr.sorted_set. induction l as [|y l IH]; cbn; [exact I|].
  now apply insert_sorted_increasing.
Qed.

Lemma filter_nil_weaken {A} (p q : A -> bool) l :
  (forall x, q x = true -> p x = true) ->
  filter p l = [] -> filter q l = [].
Proof.
  intros Hpq. induction l as [|x l IH]; cbn; [reflexivity|].
  destruct (p x) eqn:Ep; [discriminate|]. intros H.
  destruct (q x) eqn:Eq; [|now apply IH].
  apply Hpq in Eq. congruence.
Qed.

Lemma candidates_of_In data obj :
  In obj (candidates_of data) <->
  data = VDict obj \/ exists l, data = VList l /\ In (VDict obj) l.
Proof.
  destruct data as [| | | |l|d]; cbn;
    try (split; [intros []|intros [H|(l' & H & _)]; discriminate]).
  - rewrite in_flat_map. split.
    + intros (x & Hin & Hx). right. exists l. split; [reflexivity|].
      destruct x; try (now destruct Hx). destruct Hx as [<-|[]]. exact Hin.
    + intros [H|(l' & H & Hin)]; [discriminate|]. injection H as <-.
      exists (VDict obj). split; [exact Hin|now left].
  - split.
    + intros [<-|[]]. now left.
    + intros [H|(l' & H & _)]; [|discriminate]. injection H as <-. now left.
Qed.

Section StructuredMetadata.

Context {lib : Library}.

(** X12.  The organization the locator returns is a dict of an accepted
    type that is the payload of a JSON-LD script block or an entry of the
    list that is the payload, never a nested object; when the locator
    returns none, every such dict of every JSON-LD script block that parses
    was tested and has no accepted type. *)
Theorem located_organization_is_a_top_level_object soup res :
  _extract_ld_organization soup = Return res ->
  match res with
  | Some obj =>
      is_org obj = Return true /\
      exists script data,
        In script (ld_scripts soup) /\
        tag_text script <> EmptyString /\
        json_loads (tag_text script) = Return data /\
        (data = VDict obj \/ exists l, data = VList l /\ In (VDict obj) l)
  | None =>
      forall script data obj,
        In script (ld_scripts soup) ->
        tag_text script <> EmptyString ->
        json_loads (tag_text script) = Return data ->
        (data = VDict obj \/ exists l, data = VList l /\ In (VDict obj) l) ->
        is_org obj = Return false
  end.
Proof.
  unfold _extract_ld_organization. fold (ld_scripts soup).
  induction (ld_scripts soup) as [|script rest IH]; cbn [ld_scan].
  - intros H. injection H as <-. intros script data obj [].
  - assert (ld_scan rest = Return res ->
            (forall data, tag_text script <> EmptyString ->
               json_loads (tag_text script) = Return data ->
               first_org (candidates_of data) = Return None) ->
            match res with
            | Some obj =>
                is_org obj = Return true /\
                exists script' data,
                  In script' (script :: rest) /\
                  tag_text script' <> EmptyString /\
                  json_loads (tag_text script') = Return data /\
                  (data = VDict obj \/
                   exists l, data = VList l /\ In (VDict obj) l)
            | None =>
                forall script' data obj,
                  In script' (script :: rest) ->
                  tag_text script' <> EmptyString ->
                  json_loads (tag_text script') = Return data ->
                  (data = VDict obj \/
                   exists l, data = VList l /\ In (VDict obj) l) ->
                  is_org obj = Return false
            end) as Hrest.
    { intros H Hhere. specialize (IH H). destruct res as [obj|].
      - destruct IH as (Ho & s & data & Hin & Hs). split; [exact Ho|].
        exists s, data. split; [now right|exact Hs].
      - intros s data obj [<-|Hin] Hne Hj Hd.
        + eapply first_org_none; [eapply Hhere; eauto|].
          now apply candidates_of_In.
        + eapply IH; eauto. }
    destruct (tag_text script =? EmptyString) eqn:Ee.
    + apply String.eqb_eq in Ee. intros H. apply Hrest; [exact H|].
      intros data Hne. now elim Hne.
    + apply String.eqb_neq in Ee.
      destruct (json_loads (tag_text script)) as [data|[]] eqn:Ej;
        try discriminate;
        try (intros H; apply Hrest; [exact H|intros; discriminate]).
      destruct (first_org (candidates_of data)) as [[obj|]|e] eqn:Ef;
        cbn [bind]; try discriminate.
      * intros H. injection H as <-.
        destruct (first_org_found _ _ Ef) as (Hin & Ho). split; [exact Ho|].
        exists script, data. split; [now left|]. split; [exact Ee|].
        split; [exact Ej|]. now apply candidates_of_In.
      * intros H. apply Hrest; [exact H|]. intros data' _ Hd. congruence.
Qed.

(** X13.  When the organization gives no truthy [numberOfEmployees] and its
    [employee] is anything but a dict (a list of persons, a string or
    null), the extraction raises [AttributeError]. *)
Theorem employee_that_is_no_object_raises html url ld v :
  _extract_ld_organization (BeautifulSoup html) = Return (Some ld) ->
  truthy (dict_get "numberOfEmployees" ld) = false ->
  dict_lookup "employee" ld = Some v ->
  (forall employee, v <> VDict employee) ->
  extract_company_data html url = Raise AttributeError.
Proof.
  intros Hld Hn Hv Hnd. unfold extract_company_data. rewrite Hld. cbn [bind].
  assert (truthy (VDict ld) = true) as -> by (destruct ld; [discriminate|reflexivity]).
  unfold _populate_from_ld_json, ld_employees. rewrite Hn, Hv.
  destruct v; try reflexivity. now elim (Hnd items).
Qed.

(** X14.  A page without script elements is always extracted: the
    extractor returns a mapping, and the mapping has no funding rounds, no
    investors, no locations, no industries and no employees. *)
Theorem page_without_scripts_is_always_extracted html url :
  find_all (BeautifulSoup html) "script" (fun _ => true) = [] ->
  exists d,
    extract_company_data html url = Return d /\
    forall key,
      In key ["funding_rounds"; "investors"; "hq_locations"; "industries";
              "employees"] ->
      dict_lookup key d = None.
Proof.
  intros Hs. set (soup := BeautifulSoup html) in *.
  assert (ld_scripts soup = []) as Hld.
  { unfold ld_scripts, find_all in *.
    eapply filter_nil_weaken; [|exact Hs]. intros tag H.
    apply andb_true_iff in H. destruct H as [-> _]. reflexivity. }
  rewrite extract_company_data_passes. cbv zeta. fold soup.
  unfold ld_pass, _extract_ld_organization. fold (ld_scripts soup).
  rewrite Hld. cbn [ld_scan bind].
  set (r4 := _populate_status_and_stage soup
               (_populate_meta_fallbacks soup
                  (_populate_social_links soup (CompanyRecord_init url)))).
  set (f := fun r : CompanyRecord =>
              (funding_rounds r, investors r, hq_locations r, industries r,
               employees r)).
  assert (f r4 = f (CompanyRecord_init url)) as Hf.
  { unfold r4.
    rewrite populate_status_and_stage_frame,
      populate_meta_fallbacks_frame by reflexivity.
    unfold _populate_social_links. now rewrite assign_all_frame. }
  unfold f in Hf. cbn in Hf. injection Hf as E1 E2 E3 E4 E5.
  unfold _populate_funding_and_investors, harvest_funding. rewrite Hs.
  cbn [fold_left]. rewrite E1. cbn [for_each bind snd].
  change (investors (set_funding_rounds [] r4)) with (investors r4).
  rewrite E2. cbn [for_each bind snd].
  unfold _populate_locations, harvest_locations. rewrite Hs.
  cbn [fold_left].
  change (hq_locations (set_investors [] (set_funding_rounds [] r4)))
    with (hq_locations r4).
  rewrite E3. cbn [for_each bind snd].
  eexists. split; [reflexivity|]. intros key Hin.
  rewrite to_dict_lookup. unfold to_dict_data. cbn in Hin.
  destruct Hin as [<-|[<-|[<-|[<-|[<-|[]]]]]]; cbn; rewrite ?E4, ?E5;
    reflexivity.
Qed.

(** X15.  The industries of the returned mapping are the industries of the
    structured metadata in increasing order, each once: the key is absent
    when there are none. *)
Theorem industries_are_sorted_without_duplicates html url d :
  extract_company_data html url = Return d ->
  exists l,
    dict_lookup "industries" d =
      match l with
      | [] => None
      | _ => Some (VList (map VStr l))
      end /\
    increasing l /\
    forall s, In s l <->
              match located (BeautifulSoup html) with
              | Some ld => In s (ld_industries ld)
              | None => False
              end.
Proof.
  intros H.
  destruct (extract_company_data_stages _ _ _ H)
    as (r1 & r5 & r6 & H1 & H5 & H6 & ->).
  set (soup := BeautifulSoup html) in *.
  assert (industries r6 = industries r1) as Hi.
  { rewrite (populate_locations_frame industries _ _ _ ltac:(reflexivity) H6).
    rewrite (populate_funding_frame industries _ _ _ ltac:(reflexivity)
               ltac:(reflexivity) H5).
    rewrite populate_status_and_stage_frame,
      populate_meta_fallbacks_frame by reflexivity.
    unfold _populate_social_links. now rewrite assign_all_frame. }
  exists (industries r6). split; [|rewrite Hi; clear Hi H5 H6].
  { rewrite to_dict_lookup. cbn. now destruct (industries r6). }
  revert H1. unfold ld_pass, located.
  destruct (_extract_ld_organization soup) as [[ld|]|e]; cbn [bind];
    try discriminate.
  2:{ intros H1. injection H1 as <-. cbn. split; [exact I|tauto]. }
  destruct (truthy (VDict ld)).
  2:{ intros H1. injection H1 as <-. cbn. split; [exact I|tauto]. }
  intros H1.
  assert (industries r1 =
          match ld_industries ld with
          | [] => []
          | _ => PyStr.sorted_set (ld_industries ld)
          end) as ->.
  { revert H1. unfold _populate_from_ld_json.
    destruct (ld_employees ld) as [v|e]; [|discriminate]. cbn [bind].
    intros H1. injection H1 as <-.
    rewrite assign_all_frame by reflexivity.
    fold (ld_industries ld).
    destruct (ld_industries ld) as [|s l]; destruct v;
      repeat match goal with
             | |- context [match ?x with _ => _ end] => destruct x
             end; reflexivity. }
  destruct (ld_industries ld) as [|s l] eqn:El.
  - split; [exact I|reflexivity].
  - split; [apply sorted_set_increasing|]. intros x. apply sorted_set_In.
Qed.

End StructuredMetadata.

Lemma located_organization_is_a_top_level_object_witness :
  let obj := [("@type", VStr "Company");
              ("description", VStr "Acme makes anvils")] in
  @_extract_ld_organization Samples.sample_lib Samples.company_str_soup
    = Return (Some obj) /\
  @is_org obj = Return true.
Proof.
  cbv zeta. split; [vm_compute; reflexivity|].
  apply (@located_organization_is_a_top_level_object Samples.sample_lib
           Samples.company_str_soup (Some _)).
  vm_compute. reflexivity.
Defined.

Lemma employee_that_is_no_object_raises_witness :
  @_extract_ld_organization ProfileSamples.profile_lib
    ProfileSamples.staff_soup
    = Return (Some [ ("@type", VStr "Organization");
                     ("employee", VList [VDict [("name", VStr "Jo")]]) ]) /\
  @extract_company_data ProfileSamples.profile_lib ProfileSamples.staff_page
    None = Raise AttributeError.
Proof.
  split; [vm_compute; reflexivity|].
  eapply (@employee_that_is_no_object_raises ProfileSamples.profile_lib
            ProfileSamples.staff_page None).
  - vm_compute. reflexivity.
  - reflexivity.
  - reflexivity.
  - discriminate.
Defined.

Lemma page_without_scripts_is_always_extracted_witness :
  find_all (@BeautifulSoup Samples.sample_lib Samples.empty_page) "script"
    (fun _ => true) = [] /\
  exists d,
    @extract_company_data Samples.sample_lib Samples.empty_page None
      = Return d /\
    forall key,
      In key ["funding_rounds"; "investors"; "hq_locations"; "industries";
              "employees"] ->
      dict_lookup key d = None.
Proof.
  split; [vm_compute; reflexivity|].
  apply (@page_without_scripts_is_always_extracted Samples.sample_lib
           Samples.empty_page None).
  vm_compute. reflexivity.
Defined.

Lemma industries_are_sorted_without_duplicates_witness :
  @extract_company_data ProfileSamples.profile_lib ProfileSamples.acme_page
    (Some "https://dealroom.example/acme") = Return acme_mapping /\
  dict_lookup "industries" acme_mapping
    = Some (VList [VStr "anvils"; VStr "robotics"]) /\
  exists l,
    dict_lookup "industries" acme_mapping =
      match l with
      | [] => None
      | _ => Some (VList (map VStr l))
      end /\
    increasing l /\
    forall s, In s l <->
              match @located ProfileSamples.profile_lib
                      ProfileSamples.acme_soup with
              | Some ld => In s (@ld_industries ProfileSamples.profile_lib ld)
              | None => False
              end.
Proof.
  split; [vm_compute; reflexivity|]. split; [reflexivity|].
  apply (@industries_are_sorted_without_duplicates ProfileSamples.profile_lib
           ProfileSamples.acme_page (Some "https://dealroom.example/acme")).
  vm_compute. reflexivity.
Defined.

(** ** Links, description and website *)

Lemma lookup_map_values {A B} (f : A -> B) key (d : list (string * A)) :
  dict_lookup key (map (fun kv => (fst kv, f (snd kv))) d) =
  option_map f (dict_lookup key d).
Proof.
  induction d as [|[k v] d IH]; cbn; [reflexivity|].
  destruct (k =? key); [reflexivity|exact IH].
Qed.

Lemma find_in_app {A} (p : A -> bool) l1 l2 :
  List.find p (l1 ++ l2) =
  match List.find p l1 with Some x => Some x | None => List.find p l2 end.
Proof.
  induction l1 as [|x l1 IH]; cbn; [reflexivity|].
  destruct (p x); [reflexivity|exact IH].
Qed.

(** Case analysis on the innermost scrutinee of the goal, repeated. *)
Ltac case_innermost :=
  repeat (match goal with
          | |- context [match ?x with _ => _ end] =>
              lazymatch x with
              | context [match _ with _ => _ end] => fail
              | _ => destruct x
              end
          end; cbn).

Section ProfileFields.

Context {lib : Library}.

Lemma assign_social_link_lookup href p r :
  dict_lookup p (social_links (_assign_social_link href r)) =
  match dict_lookup p (social_links r) with
  | Some first => Some first
  | None => if is_platform p href then Some href else None
  end.
Proof.
  unfold _assign_social_link, is_platform, platform_of.
  repeat match goal with
         | |- context [if ?c then _ else _] =>
             lazymatch c with
             | context [PyStr.contains] => destruct c
             end
         end; cbn [social_links set_social_links set_linkedin_url
                   set_twitter_url set_instagram_url];
    rewrite ?lookup_setdefault;
    destruct (dict_lookup p (social_links r)); reflexivity.
Qed.

Lemma assign_social_link_singular href r :
  linkedin_url (_assign_social_link href r) =
    (if is_platform "linkedin" href then Some href else linkedin_url r) /\
  twitter_url (_assign_social_link href r) =
    (if is_platform "twitter" href then Some href else twitter_url r) /\
  instagram_url (_assign_social_link href r) =
    (if is_platform "instagram" href then Some href else instagram_url r).
Proof.
  unfold _assign_social_link, is_platform, platform_of.
  repeat match goal with
         | |- context [if ?c then _ else _] =>
             lazymatch c with
             | context [PyStr.contains] => destruct c
             end
         end; cbn; auto.
Qed.

Lemma assign_all_lookup hrefs p : forall r,
  dict_lookup p (social_links (assign_all hrefs r)) =
  match dict_lookup p (social_links r) with
  | Some first => Some first
  | None => List.find (is_platform p) hrefs
  end.
Proof.
  unfold assign_all.
  induction hrefs as [|href hrefs IH]; intros r; cbn [fold_left List.find].
  - now destruct (dict_lookup p (social_links r)).
  - rewrite IH, assign_social_link_lookup.
    destruct (dict_lookup p (social_links r)); [reflexivity|].
    now destruct (is_platform p href).
Qed.

Lemma assign_all_singular hrefs r :
  linkedin_url (assign_all hrefs r) =
    match List.find (is_platform "linkedin") (rev hrefs) with
    | Some href => Some href
    | None => linkedin_url r
    end /\
  twitter_url (assign_all hrefs r) =
    match List.find (is_platform "twitter") (rev hrefs) with
    | Some href => Some href
    | None => twitter_url r
    end /\
  instagram_url (assign_all hrefs r) =
    match List.find (is_platform "instagram") (rev hrefs) with
    | Some href => Some href
    | None => instagram_url r
    end.
Proof.
  induction hrefs as [|href hrefs IH] using rev_ind.
  - now repeat split.
  - rewrite assign_all_snoc, rev_app_distr. cbn [rev app List.find].
    destruct (assign_social_link_singular href (assign_all hrefs r))
      as (-> & -> & ->).
    destruct IH as (-> & -> & ->).
    repeat split;
      match goal with
      | |- context [is_platform ?p href] => destruct (is_platform p href)
      end; reflexivity.
Qed.

Lemma assign_all_app l1 l2 r :
  assign_all (l1 ++ l2) r = assign_all l2 (assign_all l1 r).
Proof. unfold assign_all. apply fold_left_app. Qed.

(** What the first pass leaves, field by field. *)
Lemma ld_pass_fields soup url r1 :
  ld_pass soup (CompanyRecord_init url) = Return r1 ->
  exists r0,
    r1 = assign_all (match located soup with
                     | Some ld => ld_links ld
                     | None => []
                     end) r0 /\
    social_links r0 = [] /\ linkedin_url r0 = None /\
    twitter_url r0 = None /\ instagram_url r0 = None /\
    about r0 = match located soup with
               | Some ld => py_or (dict_get "description" ld) VNone
               | None => VNone
               end /\
    website_url r0 = match located soup with
                     | Some ld => ld_website ld
                     | None => None
                     end.
Proof.
  unfold ld_pass, located.
  destruct (_extract_ld_organization soup) as [[ld|]|e]; cbn [bind];
    try discriminate.
  2:{ intros H. injection H as <-. exists (CompanyRecord_init url).
      now repeat split. }
  destruct (truthy (VDict ld)).
  2:{ intros H. injection H as <-. exists (CompanyRecord_init url).
      now repeat split. }
  unfold _populate_from_ld_json.
  destruct (ld_employees ld) as [v|e]; [|discriminate]. cbn [bind].
  intros H. injection H as <-. fold (ld_links ld).
  eexists. split; [reflexivity|].
  unfold ld_website.
  repeat split; case_innermost; reflexivity.
Qed.

(** The description and the website after the fallback pass. *)
Lemma populate_meta_fallbacks_about soup (r : CompanyRecord) :
  about (_populate_meta_fallbacks soup r) =
  if truthy (about r) then about r
  else match meta_description soup with
       | Some tag =>
           match tag_get_truthy "content" tag with
           | Some content => VStr (PyStr.strip content)
           | None => about r
           end
       | None => about r
       end.
Proof.
  unfold _populate_meta_fallbacks, meta_description.
  destruct (truthy (about r)); case_innermost; reflexivity.
Qed.

Lemma populate_meta_fallbacks_website soup (r : CompanyRecord) :
  website_url (_populate_meta_fallbacks soup r) =
  if truthy (of_opt (website_url r)) then website_url r
  else match meta_website soup with
       | Some s => Some s
       | None => website_url r
       end.
Proof.
  unfold _populate_meta_fallbacks, meta_website.
  assert (forall a (r : CompanyRecord),
            website_url (set_about a r) = website_url r) as Hw
      by reflexivity.
  case_innermost; reflexivity.
Qed.

(** The record the passes leave, in the fields the two first passes and
    the fallbacks write. *)
Lemma extracted_profile html url d :
  extract_company_data html url = Return d ->
  let soup := BeautifulSoup html in
  exists r0 r6,
    d = to_dict r6 /\
    social_links r6 = social_links (assign_all (page_links soup) r0) /\
    linkedin_url r6 = linkedin_url (assign_all (page_links soup) r0) /\
    twitter_url r6 = twitter_url (assign_all (page_links soup) r0) /\
    instagram_url r6 = instagram_url (assign_all (page_links soup) r0) /\
    about r6 = about (_populate_meta_fallbacks soup r0) /\
    website_url r6 = website_url (_populate_meta_fallbacks soup r0) /\
    social_links r0 = [] /\ linkedin_url r0 = None /\
    twitter_url r0 = None /\ instagram_url r0 = None /\
    about r0 = match located soup with
               | Some ld => py_or (dict_get "description" ld) VNone
               | None => VNone
               end /\
    website_url r0 = match located soup with
                     | Some ld => ld_website ld
                     | None => None
                     end.
Proof.
  intros H soup.
  destruct (extract_company_data_stages _ _ _ H)
    as (r1 & r5 & r6 & H1 & H5 & H6 & ->).
  fold soup in H1, H5, H6.
  destruct (ld_pass_fields _ _ _ H1)
    as (r0 & -> & Hs & Hl & Ht & Hi & Ha & Hw).
  exists r0, r6. split; [reflexivity|].
  assert (forall {A} (f : CompanyRecord -> A),
            (forall v r, f (set_company_status v r) = f r) ->
            (forall v r, f (set_growth_stage v r) = f r) ->
            (forall v r, f (set_funding_rounds v r) = f r) ->
            (forall v r, f (set_investors v r) = f r) ->
            (forall v r, f (set_hq_locations v r) = f r) ->
            f r6 =
            f (_populate_meta_fallbacks soup
                 (_populate_social_links soup
                    (assign_all match located soup with
                                | Some ld => ld_links ld
                                | None => []
                                end r0)))) as Hlate.
  { intros A f F1 F2 F3 F4 F5.
    rewrite (populate_locations_frame f _ _ _ F5 H6).
    rewrite (populate_funding_frame f _ _ _ F3 F4 H5).
    now rewrite populate_status_and_stage_frame. }
  unfold _populate_social_links in Hlate.
  rewrite <- assign_all_app in Hlate. fold (page_links soup) in Hlate.
  repeat split; try assumption.
  - rewrite (Hlate _ social_links) by reflexivity.
    now apply populate_meta_fallbacks_frame.
  - rewrite (Hlate _ linkedin_url) by reflexivity.
    now apply populate_meta_fallbacks_frame.
  - rewrite (Hlate _ twitter_url) by reflexivity.
    now apply populate_meta_fallbacks_frame.
  - rewrite (Hlate _ instagram_url) by reflexivity.
    now apply populate_meta_fallbacks_frame.
  - rewrite (Hlate _ about) by reflexivity.
    rewrite !populate_meta_fallbacks_about.
    now rewrite !(assign_all_frame about) by reflexivity.
  - rewrite (Hlate _ website_url) by reflexivity.
    rewrite !populate_meta_fallbacks_website.
    now rewrite !(assign_all_frame website_url) by reflexivity.
Qed.

Lemma to_dict_opt_field key (o : option string) r :
  dict_lookup key (to_dict_data r) = Some (of_opt o) ->
  dict_lookup key (to_dict r) = option_map VStr o.
Proof.
  intros H. rewrite to_dict_lookup, H. now destruct o.
Qed.

(** X16.  The links of the page are those of [sameAs] in the structured
    metadata followed by the anchors of the page.  When they are ASCII
    strings, [social_links] of the returned mapping holds for each platform
    the first link of that platform, and [linkedin_url], [twitter_url] and
    [instagram_url] hold the last one. *)
Theorem social_links_take_the_first_link html url d :
  extract_company_data html url = Return d ->
  let links := page_links (BeautifulSoup html) in
  Forall (fun href => ascii_only href = true) links ->
  (forall p,
     nested_lookup "social_links" p d =
     option_map VStr (List.find (is_platform p) links)) /\
  dict_lookup "linkedin_url" d =
    option_map VStr (List.find (is_platform "linkedin") (rev links)) /\
  dict_lookup "twitter_url" d =
    option_map VStr (List.find (is_platform "twitter") (rev links)) /\
  dict_lookup "instagram_url" d =
    option_map VStr (List.find (is_platform "instagram") (rev links)).
Proof.
  intros H links _.
  destruct (extracted_profile _ _ _ H)
    as (r0 & r6 & -> & Hs & Hl & Ht & Hi & _ & _ & Hs0 & Hl0 & Ht0 & Hi0 & _).
  fold links in Hs, Hl, Ht, Hi.
  destruct (assign_all_singular links r0) as (El & Et & Ei).
  rewrite Hl0 in El. rewrite Ht0 in Et. rewrite Hi0 in Ei.
  split; [|split; [|split]].
  - intros p. unfold nested_lookup. rewrite to_dict_lookup. cbn.
    pose proof (assign_all_lookup links p r0) as Hp.
    rewrite Hs0 in Hp. cbn in Hp. rewrite <- Hs in Hp.
    destruct (social_links r6) as [|kv kvs] eqn:E.
    + cbn. now rewrite <- Hp.
    + cbn [map is_none_or_empty]. rewrite <- Hp.
      change (dict_lookup p (map (fun kv => (fst kv, VStr (snd kv)))
                               (kv :: kvs))
              = option_map VStr (dict_lookup p (kv :: kvs))).
      apply lookup_map_values.
  - rewrite (to_dict_opt_field _ (linkedin_url r6)) by reflexivity.
    rewrite Hl, El.
    now destruct (List.find (is_platform "linkedin") (rev links)).
  - rewrite (to_dict_opt_field _ (twitter_url r6)) by reflexivity.
    rewrite Ht, Et.
    now destruct (List.find (is_platform "twitter") (rev links)).
  - rewrite (to_dict_opt_field _ (instagram_url r6)) by reflexivity.
    rewrite Hi, Ei.
    now destruct (List.find (is_platform "instagram") (rev links)).
Qed.

(** X17.  The returned description is the truthy [description] of the
    structured metadata when there is one; otherwise it is the content,
    an ASCII string, of the [description] meta element without the white
    space around it, or that of the [og:description] one when the page has
    no [description] meta element at all: a [description] element without
    content hides the [og:description] one. *)
Theorem about_prefers_the_structured_description html url d :
  extract_company_data html url = Return d ->
  let soup := BeautifulSoup html in
  (forall tag content,
     meta_description soup = Some tag ->
     tag_get "content" tag = Some content ->
     ascii_only content = true) ->
  let fallback :=
    match meta_description soup with
    | Some tag =>
        option_map (fun content => VStr (PyStr.strip content))
          (tag_get_truthy "content" tag)
    | None => None
    end in
  dict_lookup "about" d =
  match located soup with
  | Some ld =>
      if truthy (dict_get "description" ld)
      then Some (dict_get "description" ld)
      else fallback
  | None => fallback
  end.
Proof.
  intros H soup _ fallback.
  destruct (extracted_profile _ _ _ H)
    as (r0 & r6 & -> & _ & _ & _ & _ & Ha & _ & _ & _ & _ & _ & Ha0 & _).
  fold soup in Ha, Ha0.
  rewrite to_dict_lookup. cbn [to_dict_data dict_lookup String.eqb Ascii.eqb
                               Bool.eqb].
  rewrite Ha. clear Ha.
  assert (about (_populate_meta_fallbacks soup r0) =
          if truthy (about r0) then about r0
          else match fallback with Some v => v | None => about r0 end) as ->.
  { rewrite populate_meta_fallbacks_about. unfold fallback.
    destruct (truthy (about r0)); [reflexivity|].
    destruct (meta_description soup) as [tag|]; [|reflexivity].
    now destruct (tag_get_truthy "content" tag). }
  rewrite Ha0.
  assert (forall v, truthy v = true -> is_none_or_empty v = false) as Hne
      by (intros [| | | |[]|[]]; cbn; congruence).
  assert (match fallback with Some v => is_none_or_empty v = false
                         | None => True end) as Hfb.
  { unfold fallback. destruct (meta_description soup); [|exact I].
    now destruct (tag_get_truthy "content" t). }
  destruct (located soup) as [ld|].
  - unfold py_or.
    destruct (truthy (dict_get "description" ld)) eqn:Et.
    + rewrite Et. now rewrite (Hne _ Et).
    + cbn. destruct fallback; [now rewrite Hfb|reflexivity].
  - cbn. destruct fallback; [now rewrite Hfb|reflexivity].
Qed.

Lemma first_http_truthy candidates s :
  first_http candidates = Some s -> s <> EmptyString.
Proof.
  induction candidates as [|c rest IH]; cbn; [discriminate|].
  destruct c; try exact IH.
  destruct (PyStr.startswith s0 "http") eqn:E; [|exact IH].
  intros H. injection H as <-. intros ->. discriminate.
Qed.

Lemma ld_website_truthy ld s : ld_website ld = Some s -> s <> EmptyString.
Proof.
  unfold ld_website, py_or.
  destruct (truthy (if truthy (dict_get "url" ld) then dict_get "url" ld
                    else dict_get "sameAs" ld)) eqn:Et; [|discriminate].
  destruct (if truthy (dict_get "url" ld) then dict_get "url" ld
            else dict_get "sameAs" ld); try discriminate.
  - intros H. injection H as <-. intros ->. discriminate.
  - apply first_http_truthy.
Qed.

(** X18.  The returned website is the one the structured metadata gives
    ([url] or else [sameAs]: the string, or the first string of the list
    that starts with [http]); without it, the [href] of the canonical link,
    or else the content of the [og:url] meta element. *)
Theorem website_prefers_the_structured_url html url d :
  extract_company_data html url = Return d ->
  let soup := BeautifulSoup html in
  dict_lookup "website_url" d =
  option_map VStr
    match located soup with
    | Some ld =>
        match ld_website ld with
        | Some s => Some s
        | None => meta_website soup
        end
    | None => meta_website soup
    end.
Proof.
  intros H soup.
  destruct (extracted_profile _ _ _ H)
    as (r0 & r6 & -> & _ & _ & _ & _ & _ & Hw & _ & _ & _ & _ & _ & Hw0).
  fold soup in Hw, Hw0.
  rewrite (to_dict_opt_field _ (website_url r6)) by reflexivity.
  rewrite Hw. clear Hw. f_equal.
  rewrite populate_meta_fallbacks_website, Hw0.
  destruct (located soup) as [ld|].
  - destruct (ld_website ld) as [s|] eqn:E.
    + apply ld_website_truthy in E. cbn.
      destruct (s =? EmptyString) eqn:Es; [|reflexivity].
      apply String.eqb_eq in Es. contradiction.
    + cbn. now destruct (meta_website soup).
  - cbn. now destruct (meta_website soup).
Qed.

End ProfileFields.

Lemma social_links_take_the_first_link_witness :
  let links := [ "https://www.linkedin.com/company/acme";
                 "https://facebook.com/acme";
                 "https://www.linkedin.com/in/founder" ] in
  @extract_company_data ProfileSamples.profile_lib ProfileSamples.acme_page
    (Some "https://dealroom.example/acme") = Return acme_mapping /\
  @page_links ProfileSamples.profile_lib ProfileSamples.acme_soup = links /\
  Forall (fun href => ascii_only href = true) links /\
  (forall p,
     nested_lookup "social_links" p acme_mapping =
     option_map VStr (List.find (is_platform p) links)) /\
  dict_lookup "linkedin_url" acme_mapping
    = Some (VStr "https://www.linkedin.com/in/founder").
Proof.
  cbv zeta.
  split; [vm_compute; reflexivity|]. split; [vm_compute; reflexivity|].
  split; [repeat constructor|]. split; [|reflexivity].
  apply (@social_links_take_the_first_link ProfileSamples.profile_lib
           ProfileSamples.acme_page (Some "https://dealroom.example/acme")).
  - vm_compute. reflexivity.
  - vm_compute. repeat constructor.
Defined.

Lemma about_prefers_the_structured_description_witness :
  @extract_company_data ProfileSamples.profile_lib ProfileSamples.acme_page
    (Some "https://dealroom.example/acme") = Return acme_mapping /\
  ascii_only "  The anvil company  " = true /\
  dict_lookup "about" acme_mapping = Some (VStr "Acme makes anvils").
Proof.
  split; [vm_compute; reflexivity|]. split; [reflexivity|].
  rewrite (@about_prefers_the_structured_description
             ProfileSamples.profile_lib ProfileSamples.acme_page
             (Some "https://dealroom.example/acme") acme_mapping).
  - vm_compute. reflexivity.
  - vm_compute. reflexivity.
  - intros tag content Ht. vm_compute in Ht. injection Ht as <-.
    intros Hc. vm_compute in Hc. injection Hc as <-. reflexivity.
Defined.

Lemma website_prefers_the_structured_url_witness :
  @extract_company_data ProfileSamples.profile_lib ProfileSamples.acme_page
    (Some "https://dealroom.example/acme") = Return acme_mapping /\
  dict_lookup "website_url" acme_mapping
    = Some (VStr "https://acme.example").
Proof.
  split; [vm_compute; reflexivity|].
  rewrite (@website_prefers_the_structured_url
             ProfileSamples.profile_lib ProfileSamples.acme_page
             (Some "https://dealroom.example/acme") acme_mapping)
    by (vm_compute; reflexivity).
  vm_compute. reflexivity.
Defined.

(** * The fetcher and the driver: properties *)

Section FetcherFacts.

Context {Delay : Type} {web : Web Delay}.

Lemma attempts_log_app (self : DealroomCrawler Delay) url log k :
  (log ++ one_attempt self url) ++ attempts_log self url k =
  log ++ attempts_log self url (S k).
Proof. cbn [attempts_log]. now rewrite <- app_assoc. Qed.

(** One turn of the loop with a delay [time.sleep] accepts, and with one it
    refuses. *)
Lemma attempt_fetch_turn (self : DealroomCrawler Delay) url n log :
  sleep_accepts (sleep_between_requests (crawler self)) = true ->
  attempt_fetch self url (S n) log =
  match session_get log url (timeout (http self)) with
  | Response status_code text final_url =>
      if (400 <=? status_code)%Z
      then attempt_fetch self url n (log ++ one_attempt self url)
      else (Fetched (Some text) final_url, log ++ one_attempt self url)
  | RequestFailed => attempt_fetch self url n (log ++ one_attempt self url)
  end.
Proof.
  intros Hd. cbn [attempt_fetch]. unfold sleep. rewrite Hd.
  assert ((log ++ [Requested url (timeout (http self))]) ++
          [Slept (sleep_between_requests (crawler self))]
          = log ++ one_attempt self url) as ->
      by (unfold one_attempt; now rewrite <- app_assoc).
  destruct (session_get log url (timeout (http self)))
    as [|status_code text final_url]; [reflexivity|].
  now destruct (400 <=? status_code)%Z.
Qed.

Lemma attempt_fetch_refused (self : DealroomCrawler Delay) url n log :
  sleep_accepts (sleep_between_requests (crawler self)) = false ->
  attempt_fetch self url (S n) log =
  (FetchRaised, log ++ [Requested url (timeout (http self))]).
Proof.
  intros Hd. cbn [attempt_fetch]. unfold sleep. rewrite Hd.
  destruct (session_get log url (timeout (http self)))
    as [|status_code text final_url]; [reflexivity|].
  now destruct (400 <=? status_code)%Z.
Qed.

Lemma attempt_fetch_spec (self : DealroomCrawler Delay) url n : forall log,
  attempt_fetch_post self url n log (attempt_fetch self url n log).
Proof.
  unfold attempt_fetch_post.
  destruct (sleep_accepts (sleep_between_requests (crawler self))) eqn:Hd.
  2:{ intros log. destruct n; [reflexivity|].
      now apply attempt_fetch_refused. }
  induction n as [|n IH]; intros log.
  - cbn [attempt_fetch attempts_log]. rewrite app_nil_r.
    repeat split. intros j Hj. lia.
  - rewrite (attempt_fetch_turn _ _ _ _ Hd).
    assert (forall j, answer_at self url (log ++ one_attempt self url) j
                      = answer_at self url log (S j)) as Hshift.
    { intros j. unfold answer_at. now rewrite attempts_log_app. }
    assert (answer_at self url log 0
            = session_get log url (timeout (http self))) as H0
        by (unfold answer_at; cbn [attempts_log]; now rewrite app_nil_r).
    rewrite <- H0.
    assert (retried (answer_at self url log 0) ->
            match attempt_fetch self url n (log ++ one_attempt self url) with
            | (Fetched (Some text) final_url, log') =>
                exists k status_code,
                  k < S n /\
                  log' = log ++ attempts_log self url (S k) /\
                  (forall j, j < k -> retried (answer_at self url log j)) /\
                  answer_at self url log k
                    = Response status_code text final_url /\
                  (status_code < 400)%Z
            | (Fetched None final_url, log') =>
                final_url = url /\
                log' = log ++ attempts_log self url (S n) /\
                (forall j, j < S n -> retried (answer_at self url log j))
            | (FetchRaised, _) => False
            end) as Hretry.
    { intros Hbad. specialize (IH (log ++ one_attempt self url)).
      destruct (attempt_fetch self url n (log ++ one_attempt self url))
        as [[[text|] final_url|] log'].
      - destruct IH as (k & status_code & Hk & Hlog & Hall & Hans & Hst).
        exists (S k), status_code. repeat split.
        + lia.
        + rewrite Hlog. now rewrite attempts_log_app.
        + intros [|j] Hj; [exact Hbad|]. rewrite <- Hshift. apply Hall. lia.
        + now rewrite <- Hshift.
        + exact Hst.
      - destruct IH as (Hu & Hlog & Hall). repeat split.
        + exact Hu.
        + rewrite Hlog. now rewrite attempts_log_app.
        + intros [|j] Hj; [exact Hbad|]. rewrite <- Hshift. apply Hall. lia.
      - exact IH. }
    destruct (answer_at self url log 0) as [|status_code text final_url] eqn:E.
    + apply Hretry. exact I.
    + destruct (400 <=? status_code)%Z eqn:Est.
      * apply Hretry. cbn. now apply Z.leb_le.
      * exists 0, status_code.
        split; [lia|]. split; [reflexivity|]. split; [intros j Hj; lia|].
        split; [exact E|]. now apply Z.leb_gt.
Qed.

Lemma retried_not_good (o : outcome) status_code text final_url :
  retried o -> o = Response status_code text final_url ->
  (status_code < 400)%Z -> False.
Proof. intros Hr -> Hs. cbn in Hr. lia. Qed.

Lemma attempt_fetch_post_unique (self : DealroomCrawler Delay) url n log
  res1 res2 :
  attempt_fetch_post self url n log res1 ->
  attempt_fetch_post self url n log res2 ->
  res1 = res2.
Proof.
  unfold attempt_fetch_post.
  destruct (sleep_accepts (sleep_between_requests (crawler self)));
    [|congruence].
  destruct res1 as [[[text1|] u1|] log1], res2 as [[[text2|] u2|] log2];
    try contradiction.
  - intros (k1 & s1 & Hk1 & -> & Hall1 & Hans1 & Hs1)
           (k2 & s2 & Hk2 & -> & Hall2 & Hans2 & Hs2).
    assert (k1 = k2) as ->.
    { destruct (Nat.lt_trichotomy k1 k2) as [H|[H|H]]; [|exact H|].
      - exfalso. eapply retried_not_good; [apply (Hall2 k1 H)| |]; eauto.
      - exfalso. eapply retried_not_good; [apply (Hall1 k2 H)| |]; eauto. }
    rewrite Hans1 in Hans2. now injection Hans2 as -> -> ->.
  - intros (k1 & s1 & Hk1 & -> & Hall1 & Hans1 & Hs1) (-> & -> & Hall2).
    exfalso. eapply retried_not_good; [apply (Hall2 k1 Hk1)| |]; eauto.
  - intros (-> & -> & Hall1) (k2 & s2 & Hk2 & -> & Hall2 & Hans2 & Hs2).
    exfalso. eapply retried_not_good; [apply (Hall1 k2 Hk2)| |]; eauto.
  - intros (-> & -> & _) (-> & -> & _). reflexivity.
Qed.

Lemma attempt_fetch_iff (self : DealroomCrawler Delay) url n log res :
  attempt_fetch self url n log = res <-> attempt_fetch_post self url n log res.
Proof.
  split.
  - intros <-. apply attempt_fetch_spec.
  - intros H. eapply attempt_fetch_post_unique; [apply attempt_fetch_spec|exact H].
Qed.

(** X19.  A fetch raises when the URL cannot be built, and then it makes no
    request.  With a delay [time.sleep] accepts it never raises otherwise:
    it makes at most [max_retries] requests, all for the URL built from the
    identifier, each with the configured timeout and each followed by one
    sleep of the configured delay.  With a delay [time.sleep] refuses, it
    raises after its first request, without a completed sleep, and only
    returns, no page, when [max_retries] allows no request. *)
Theorem fetch_log_is_request_sleep_pairs (self : DealroomCrawler Delay)
  identifier log :
  match build_profile_url self identifier with
  | None => fetch_company_page self identifier log = (FetchRaised, log)
  | Some url =>
      if sleep_accepts (sleep_between_requests (crawler self)) then
        fst (fetch_company_page self identifier log) <> FetchRaised /\
        exists k,
          k <= Z.to_nat (max_retries (http self)) /\
          snd (fetch_company_page self identifier log)
            = log ++ attempts_log self url k
      else
        fetch_company_page self identifier log =
        match Z.to_nat (max_retries (http self)) with
        | O => (Fetched None url, log)
        | S _ => (FetchRaised, log ++ [Requested url (timeout (http self))])
        end
  end.
Proof.
  unfold fetch_company_page.
  destruct (build_profile_url self identifier) as [url|]; [|reflexivity].
  pose proof (attempt_fetch_spec self url
                (Z.to_nat (max_retries (http self))) log) as H.
  unfold attempt_fetch_post in H.
  destruct (sleep_accepts (sleep_between_requests (crawler self)));
    [|exact H].
  destruct (attempt_fetch self url _ log) as [[[text|] final_url|] log'];
    cbn [fst snd].
  - destruct H as (k & s & Hk & -> & _). split; [discriminate|].
    exists (S k). split; [lia|reflexivity].
  - destruct H as (_ & -> & _). split; [discriminate|].
    eexists. split; [|reflexivity]. lia.
  - contradiction.
Qed.

(** X20.  A fetch returns no page, with the URL it asked for, exactly when
    each of its [max_retries] attempts raised or was answered with a status
    of 400 or more, and [time.sleep] accepts the delay or [max_retries]
    allows no attempt; it has then made all its attempts (none when
    [max_retries] is not positive). *)
Theorem fetch_gives_up_after_max_retries (self : DealroomCrawler Delay)
  identifier log url log' :
  fetch_company_page self identifier log = (Fetched None url, log') <->
  build_profile_url self identifier = Some url /\
  (sleep_accepts (sleep_between_requests (crawler self)) = true \/
   Z.to_nat (max_retries (http self)) = 0) /\
  (forall j, j < Z.to_nat (max_retries (http self)) ->
     retried (answer_at self url log j)) /\
  log' = log ++ attempts_log self url (Z.to_nat (max_retries (http self))).
Proof.
  unfold fetch_company_page.
  destruct (build_profile_url self identifier) as [u|].
  2:{ split; [discriminate|]. intros (H & _). discriminate. }
  rewrite attempt_fetch_iff. unfold attempt_fetch_post.
  destruct (sleep_accepts (sleep_between_requests (crawler self))).
  - split.
    + intros (-> & -> & Hall). repeat split; auto.
    + intros (Hu & _ & Hall & ->). injection Hu as ->. repeat split; assumption.
  - destruct (Z.to_nat (max_retries (http self))) as [|n]; split.
    + intros H. injection H as -> ->. cbn [attempts_log].
      rewrite app_nil_r. repeat split; auto. intros j Hj. lia.
    + intros (Hu & _ & _ & ->). injection Hu as ->. cbn [attempts_log].
      now rewrite app_nil_r.
    + discriminate.
    + intros (_ & [H|H] & _); discriminate.
Qed.

(** X21.  A fetch returns a page exactly when [time.sleep] accepts the
    delay and, within [max_retries] attempts, an answer has a status under
    400: the page and the final URL are those of the first such answer,
    every attempt before it raised or had a status of 400 or more, and no
    attempt is made after it. *)
Theorem fetch_returns_first_good_answer (self : DealroomCrawler Delay)
  identifier log text final_url log' :
  fetch_company_page self identifier log
    = (Fetched (Some text) final_url, log') <->
  sleep_accepts (sleep_between_requests (crawler self)) = true /\
  exists url k status_code,
    build_profile_url self identifier = Some url /\
    k < Z.to_nat (max_retries (http self)) /\
    (forall j, j < k -> retried (answer_at self url log j)) /\
    answer_at self url log k = Response status_code text final_url /\
    (status_code < 400)%Z /\
    log' = log ++ attempts_log self url (S k).
Proof.
  unfold fetch_company_page.
  destruct (build_profile_url self identifier) as [u|].
  2:{ split; [discriminate|]. intros (_ & url & k & s & H & _).
      discriminate. }
  rewrite attempt_fetch_iff. unfold attempt_fetch_post.
  destruct (sleep_accepts (sleep_between_requests (crawler self))).
  - split.
    + intros (k & s & Hk & -> & Hall & Hans & Hs). split; [reflexivity|].
      exists u, k, s. repeat split; assumption.
    + intros (_ & url & k & s & Hu & Hk & Hall & Hans & Hs & ->).
      injection Hu as ->. exists k, s. repeat split; assumption.
  - split.
    + destruct (Z.to_nat (max_retries (http self))); discriminate.
    + intros (H & _). discriminate.
Qed.

End FetcherFacts.

Lemma lstrip_slashes_split s : exists a, s = (a ++ lstrip_slashes s)%string.
Proof.
  induction s as [|c s IH]; [now exists EmptyString|]. cbn.
  destruct (is_slash c).
  - destruct IH as (a & IH). exists (String c a). cbn. now rewrite <- IH.
  - now exists EmptyString.
Qed.

Lemma rstrip_slashes_split s : exists b, s = (rstrip_slashes s ++ b)%string.
Proof.
  induction s as [|c s IH]; [now exists EmptyString|]. cbn.
  destruct IH as (b & IH). destruct (rstrip_slashes s) as [|k kept].
  - destruct (is_slash c).
    + now exists (String c s).
    + exists s. reflexivity.
  - exists b. cbn. now rewrite IH at 1.
Qed.

Lemma lstrip_split s : exists a, s = (a ++ PyStr.lstrip s)%string.
Proof.
  induction s as [|c s IH]; [now exists EmptyString|]. cbn.
  destruct (PyStr.is_space c).
  - destruct IH as (a & IH). exists (String c a). cbn. now rewrite <- IH.
  - now exists EmptyString.
Qed.

Lemma rstrip_split s : exists b, s = (PyStr.rstrip s ++ b)%string.
Proof.
  induction s as [|c s IH]; [now exists EmptyString|]. cbn.
  destruct IH as (b & IH). destruct (PyStr.rstrip s) as [|k kept].
  - destruct (PyStr.is_space c).
    + now exists (String c s).
    + exists s. reflexivity.
  - exists b. cbn. now rewrite IH at 1.
Qed.

Lemma lstrip_slashes_head s t : lstrip_slashes s <> String "/" t.
Proof.
  induction s as [|c s IH]; [discriminate|]. cbn.
  destruct (is_slash c) eqn:E; [exact IH|].
  intros H. injection H as -> _. discriminate.
Qed.

Lemma rstrip_slashes_head s t :
  (forall t', s <> String "/" t') -> rstrip_slashes s <> String "/" t.
Proof.
  destruct s as [|c s]; [discriminate|]. intros Hs. cbn.
  destruct (rstrip_slashes s).
  - destruct (is_slash c) eqn:E; [discriminate|].
    intros H. injection H as ->. discriminate.
  - intros H. injection H as -> _. now apply (Hs s).
Qed.

Lemma append_empty_inv (a b : string) :
  (a ++ b)%string = EmptyString -> a = EmptyString /\ b = EmptyString.
Proof. destruct a; [now split|discriminate]. Qed.

Lemma rstrip_slashes_last s : forall t, rstrip_slashes s <> (t ++ "/")%string.
Proof.
  induction s as [|c s IH]; intros t.
  - destruct t; discriminate.
  - cbn. destruct (rstrip_slashes s) as [|k kept] eqn:E.
    + destruct (is_slash c) eqn:Ec.
      * destruct t; discriminate.
      * destruct t as [|c' t]; cbn.
        -- intros H. injection H as ->. discriminate.
        -- intros H. injection H as _ H. destruct t; discriminate.
    + destruct t as [|c' t]; cbn.
      * discriminate.
      * intros H. injection H as _ H. now apply (IH t).
Qed.

Section DriverFacts.

Context {Delay : Type} {web : Web Delay}.

(** X22.  For an identifier that is neither an http(s) URL nor a domain,
    the profile URL is the base URL, a slash and a slug; the slug is a piece
    of the identifier that neither starts nor ends with a slash. *)
Theorem profile_url_of_a_slug (self : DealroomCrawler Delay) identifier scheme :
  urlparse_scheme identifier = Some scheme ->
  str_in scheme ["http"; "https"] = false ->
  PyStr.contains "." identifier && negb (PyStr.contains " " identifier)
    = false ->
  exists slug before after,
    build_profile_url self identifier
      = Some (dealroom_base_url (crawler self) ++ "/" ++ slug)%string /\
    identifier = (before ++ slug ++ after)%string /\
    (forall t, slug <> String "/" t) /\
    (forall t, slug <> (t ++ "/")%string).
Proof.
  intros Hs Hh Hd. unfold build_profile_url. rewrite Hs, Hh, Hd.
  destruct (lstrip_split identifier) as (a1 & H1).
  destruct (rstrip_split (PyStr.lstrip identifier)) as (b1 & H2).
  fold (PyStr.strip identifier) in H2.
  destruct (lstrip_slashes_split (PyStr.strip identifier)) as (a2 & H3).
  destruct (rstrip_slashes_split (lstrip_slashes (PyStr.strip identifier)))
    as (b2 & H4).
  fold (strip_slashes (PyStr.strip identifier)) in H4.
  exists (strip_slashes (PyStr.strip identifier)), (a1 ++ a2)%string,
    (b2 ++ b1)%string.
  split; [reflexivity|]. split; [|split].
  - rewrite H1 at 1. rewrite H2 at 1. rewrite H3 at 1. rewrite H4 at 1.
    now rewrite !append_assoc.
  - intros t. apply rstrip_slashes_head. intros t'. apply lstrip_slashes_head.
  - apply rstrip_slashes_last.
Qed.

Lemma attempts_log_counts (self : DealroomCrawler Delay) url k :
  requests (attempts_log self url k) = k /\
  sleeps (attempts_log self url k) = k.
Proof.
  unfold requests, sleeps.
  induction k as [|k [IH1 IH2]]; [now split|].
  cbn. now rewrite IH1, IH2.
Qed.

(** What a fetch adds to the log: pairs of a request and a sleep, or, with a
    delay [time.sleep] refuses, at most one request. *)
Lemma fetch_company_page_log (self : DealroomCrawler Delay) identifier log :
  exists added,
    snd (fetch_company_page self identifier log) = log ++ added /\
    requests added <= Z.to_nat (max_retries (http self)) /\
    sleeps added =
      if sleep_accepts (sleep_between_requests (crawler self))
      then requests added else 0.
Proof.
  unfold fetch_company_page.
  destruct (build_profile_url self identifier) as [url|].
  2:{ exists []. cbn. rewrite app_nil_r. repeat split; [lia|].
      now destruct (sleep_accepts _). }
  pose proof (attempt_fetch_spec self url
                (Z.to_nat (max_retries (http self))) log) as H.
  unfold attempt_fetch_post in H.
  destruct (sleep_accepts (sleep_between_requests (crawler self))).
  - destruct (attempt_fetch self url _ log) as [[[text|] final_url|] log'];
      cbn [snd].
    + destruct H as (k & s & Hk & -> & _).
      exists (attempts_log self url (S k)).
      destruct (attempts_log_counts self url (S k)) as (-> & ->).
      repeat split. lia.
    + destruct H as (_ & -> & _).
      exists (attempts_log self url (Z.to_nat (max_retries (http self)))).
      destruct (attempts_log_counts self url
                  (Z.to_nat (max_retries (http self)))) as (-> & ->).
      repeat split. lia.
    + contradiction.
  - rewrite H. destruct (Z.to_nat (max_retries (http self))); cbn [snd].
    + exists []. cbn. rewrite app_nil_r. repeat split. lia.
    + eexists. split; [reflexivity|]. cbn. split; [lia|reflexivity].
Qed.

Context {lib : Library}.

Lemma process_single_company_log identifier (c : DealroomCrawler Delay) log :
  exists added,
    snd (process_single_company identifier c log) = log ++ added /\
    requests added <= Z.to_nat (max_retries (http c)) /\
    sleeps added =
      if sleep_accepts (sleep_between_requests (crawler c))
      then requests added else 0.
Proof.
  unfold process_single_company.
  destruct (PyStr.strip identifier =? EmptyString).
  - exists []. cbn. rewrite app_nil_r. repeat split; [lia|].
    now destruct (sleep_accepts _).
  - destruct (fetch_company_page_log c (PyStr.strip identifier) log)
      as (added & H & Hr & Hs).
    exists added. split; [|now split].
    destruct (fetch_company_page c (PyStr.strip identifier) log)
      as [[[html|] final_url|] log']; cbn [snd] in *; try exact H.
    destruct (extract_company_data html (Some final_url)); exact H.
Qed.

Lemma lookup_app_right {A} key (d1 d2 : list (string * A)) :
  ~ In key (map fst d1) ->
  dict_lookup key (d1 ++ d2) = dict_lookup key d2.
Proof.
  induction d1 as [|[k v] d1 IH]; intros Hn; [reflexivity|]. cbn.
  destruct (k =? key) eqn:E.
  - apply String.eqb_eq in E. exfalso. apply Hn. now left.
  - apply IH. intros H. apply Hn. now right.
Qed.

Lemma extract_names_its_source html u d :
  extract_company_data html (Some u) = Return d ->
  dict_lookup "raw_source_url" d = Some (VStr u).
Proof.
  rewrite extract_company_data_record, extracted_record_with_url.
  destruct (extracted_record html None) as [r|e]; [|discriminate].
  cbn [bind]. intros H. injection H as <-.
  rewrite to_dict_with_url, lookup_app_right by apply to_dict_without_url.
  reflexivity.
Qed.

Lemma extracted_mapping_not_empty html url d :
  extract_company_data html url = Return d -> truthy (VDict d) = true.
Proof.
  intros H. apply extract_company_data_status in H. destruct H as (H & _).
  destruct d; [discriminate|reflexivity].
Qed.

(** X23.  For an ASCII identifier, [process_single_company] returns a
    record exactly when the stripped identifier is not empty, its URL can be
    built, [time.sleep] accepts the delay, an answer within [max_retries]
    attempts has a status under 400, and the extractor returns that record
    for the page and the final URL of the first such answer. *)
Theorem processed_record_comes_from_first_good_answer identifier
  (c : DealroomCrawler Delay) log d log' :
  ascii_only identifier = true ->
  (process_single_company identifier c log = (Some d, log') <->
   sleep_accepts (sleep_between_requests (crawler c)) = true /\
   exists url k status_code html final_url,
     PyStr.strip identifier <> EmptyString /\
     build_profile_url c (PyStr.strip identifier) = Some url /\
     k < Z.to_nat (max_retries (http c)) /\
     (forall j, j < k -> retried (answer_at c url log j)) /\
     answer_at c url log k = Response status_code html final_url /\
     (status_code < 400)%Z /\
     extract_company_data html (Some final_url) = Return d /\
     log' = log ++ attempts_log c url (S k)).
Proof.
  intros _. unfold process_single_company, fetch_company_page.
  destruct (PyStr.strip identifier =? EmptyString) eqn:Eb.
  { apply String.eqb_eq in Eb. split; [discriminate|].
    intros (_ & url & k & s & html & final_url & H & _). now elim H. }
  apply String.eqb_neq in Eb.
  destruct (build_profile_url c (PyStr.strip identifier)) as [u|].
  2:{ split; [discriminate|].
      intros (_ & url & k & s & html & final_url & _ & H & _). discriminate. }
  pose proof (attempt_fetch_spec c u (Z.to_nat (max_retries (http c))) log)
    as Hspec.
  pose proof (attempt_fetch_iff c u (Z.to_nat (max_retries (http c))) log)
    as Hiff.
  unfold attempt_fetch_post in Hspec, Hiff.
  destruct (sleep_accepts (sleep_between_requests (crawler c))).
  - split.
    + destruct (attempt_fetch c u _ log) as [[[html|] final_url|] log1];
        try discriminate.
      destruct (extract_company_data html (Some final_url)) as [data|e] eqn:Ex;
        [|discriminate].
      intros H. injection H as -> ->.
      destruct Hspec as (k & s & Hk & -> & Hall & Hans & Hs).
      split; [reflexivity|].
      exists u, k, s, html, final_url. repeat split; assumption.
    + intros (_ & url & k & s & html & final_url & _ & Hu & Hk & Hall & Hans
              & Hs & Hex & ->).
      injection Hu as ->.
      assert (attempt_fetch c url (Z.to_nat (max_retries (http c))) log
              = (Fetched (Some html) final_url,
                 log ++ attempts_log c url (S k))) as ->.
      { apply Hiff. exists k, s. repeat split; assumption. }
      now rewrite Hex.
  - rewrite Hspec. split.
    + destruct (Z.to_nat (max_retries (http c))); discriminate.
    + intros (H & _). discriminate.
Qed.

(** X24.  The record [process_single_company] returns names, as its
    source, the URL of the answer the page came from, which after a redirect
    is not the URL that was asked for. *)
Theorem processed_record_names_the_answering_url identifier
  (c : DealroomCrawler Delay) log d log' :
  process_single_company identifier c log = (Some d, log') ->
  exists url k status_code html final_url,
    build_profile_url c (PyStr.strip identifier) = Some url /\
    answer_at c url log k = Response status_code html final_url /\
    dict_lookup "raw_source_url" d = Some (VStr final_url).
Proof.
  unfold process_single_company, fetch_company_page.
  destruct (PyStr.strip identifier =? EmptyString); [discriminate|].
  destruct (build_profile_url c (PyStr.strip identifier)) as [u|];
    [|discriminate].
  pose proof (attempt_fetch_spec c u (Z.to_nat (max_retries (http c))) log)
    as Hspec.
  unfold attempt_fetch_post in Hspec.
  destruct (attempt_fetch c u _ log) as [[[html|] final_url|] log1];
    try discriminate.
  destruct (extract_company_data html (Some final_url)) as [data|e] eqn:Ex;
    [|discriminate].
  intros H. injection H as -> ->.
  destruct (sleep_accepts (sleep_between_requests (crawler c))).
  - destruct Hspec as (k & s & Hk & -> & Hall & Hans & Hs).
    exists u, k, s, html, final_url. split; [reflexivity|].
    split; [exact Hans|]. now apply extract_names_its_source in Ex.
  - destruct (Z.to_nat (max_retries (http c))); discriminate.
Qed.

Lemma process_single_company_truthy identifier (c : DealroomCrawler Delay)
  log d log' :
  process_single_company identifier c log = (Some d, log') ->
  truthy (VDict d) = true.
Proof.
  unfold process_single_company.
  destruct (PyStr.strip identifier =? EmptyString); [discriminate|].
  destruct (fetch_company_page c _ log) as [[[html|] final_url|] log1];
    try discriminate.
  destruct (extract_company_data html (Some final_url)) as [data|e] eqn:Ex;
    [|discriminate].
  intros H. injection H as -> ->. eapply extracted_mapping_not_empty; eauto.
Qed.

(** X25.  The sequential loop appends, in the order of the identifiers,
    every record [process_single_company] returns: a returned record is
    never empty, so the truth test of the loop drops none. *)
Theorem main_sequential_keeps_every_record identifiers
  (c : DealroomCrawler Delay) : forall results log,
  fst (main_sequential identifiers c results log)
    = results ++ kept_records (processed identifiers c log).
Proof.
  induction identifiers as [|identifier rest IH]; intros results log.
  - cbn. now rewrite app_nil_r.
  - cbn [main_sequential processed].
    destruct (process_single_company identifier c log) as [record log1] eqn:E.
    rewrite IH. cbn [kept_records flat_map].
    destruct record as [d|]; [|reflexivity].
    apply process_single_company_truthy in E. rewrite E.
    now rewrite <- app_assoc.
Qed.

(** X26.  The sequential loop makes at most [max_retries] requests for each
    identifier.  With a delay [time.sleep] accepts, it sleeps once after
    every request; with one it refuses, no sleep is completed. *)
Theorem main_sequential_request_budget identifiers
  (c : DealroomCrawler Delay) : forall results log,
  exists added,
    snd (main_sequential identifiers c results log) = log ++ added /\
    requests added
      <= length identifiers * Z.to_nat (max_retries (http c)) /\
    sleeps added =
      if sleep_accepts (sleep_between_requests (crawler c))
      then requests added else 0.
Proof.
  induction identifiers as [|identifier rest IH]; intros results log.
  - exists []. cbn. rewrite app_nil_r.
    split; [reflexivity|]. split; [lia|].
    now destruct (sleep_accepts (sleep_between_requests (crawler c))).
  - cbn [main_sequential].
    destruct (process_single_company_log identifier c log)
      as (first & Hlog & Hr1 & Hs1).
    destruct (process_single_company identifier c log) as [record log1].
    cbn [snd] in Hlog. subst log1.
    match goal with
    | |- context [main_sequential rest c ?res ?l] =>
        destruct (IH res l) as (added & -> & Hreq & Hsl)
    end.
    exists (first ++ added).
    unfold requests, sleeps in *.
    rewrite !filter_app, !length_app, Hs1, Hsl.
    split; [now rewrite app_assoc|]. split; [cbn [length]; lia|].
    now destruct (sleep_accepts (sleep_between_requests (crawler c))).
Qed.

End DriverFacts.

(** X27.  A higher verbosity never selects a level that logs less. *)
Theorem more_verbosity_never_logs_less (v v' : Z) :
  (v <= v')%Z ->
  (level_number (setup_logging v') <= level_number (setup_logging v))%Z.
Proof.
  unfold setup_logging. intros H.
  destruct (v =? 1)%Z eqn:E1, (v' =? 1)%Z eqn:E2,
           (2 <=? v)%Z eqn:E3, (2 <=? v')%Z eqn:E4; cbn; lia.
Qed.

Lemma profile_url_of_a_slug_witness :
  @urlparse_scheme _ WebSamples.sample_web " /acme_1/ " = Some EmptyString /\
  exists slug before after,
    @build_profile_url _ WebSamples.sample_web WebSamples.sample_crawler
      " /acme_1/ "
      = Some ("https://app.dealroom.co/companies" ++ "/" ++ slug)%string /\
    " /acme_1/ " = (before ++ slug ++ after)%string /\
    (forall t, slug <> String "/" t) /\
    (forall t, slug <> (t ++ "/")%string).
Proof.
  split; [reflexivity|].
  apply (@profile_url_of_a_slug _ WebSamples.sample_web
           WebSamples.sample_crawler " /acme_1/ " EmptyString);
    reflexivity.
Defined.

Lemma processed_record_comes_from_first_good_answer_witness :
  let d := [ ("company_status", VStr "closed");
             ("raw_source_url",
              VStr "https://app.dealroom.co/companies/acme_1") ] in
  let url := "https://app.dealroom.co/companies/acme_1" in
  let log' := [ Requested url 10; Slept 500%Z; Requested url 10;
                Slept 500%Z ] in
  ascii_only " acme_1 " = true /\
  @process_single_company _ WebSamples.sample_web Samples.sample_lib
    " acme_1 " WebSamples.sample_crawler [] = (Some d, log') /\
  @process_single_company _ WebSamples.sample_web Samples.sample_lib
    " acme_1 " WebSamples.hasty_crawler [] = (None, [Requested url 10]) /\
  @sleep_accepts _ WebSamples.sample_web 500%Z = true /\
  exists url k status_code html final_url,
    PyStr.strip " acme_1 " <> EmptyString /\
    @build_profile_url _ WebSamples.sample_web WebSamples.sample_crawler
      (PyStr.strip " acme_1 ") = Some url /\
    k < Z.to_nat 2 /\
    (forall j, j < k ->
       retried (@answer_at _ WebSamples.sample_web WebSamples.sample_crawler
                  url [] j)) /\
    @answer_at _ WebSamples.sample_web WebSamples.sample_crawler url [] k
      = Response status_code html final_url /\
    (status_code < 400)%Z /\
    @extract_company_data Samples.sample_lib html (Some final_url)
      = Return d /\
    log' = [] ++ @attempts_log _ WebSamples.sample_crawler url (S k).
Proof.
  cbv zeta.
  split; [reflexivity|]. split; [vm_compute; reflexivity|].
  split; [vm_compute; reflexivity|].
  apply (@processed_record_comes_from_first_good_answer _
           WebSamples.sample_web Samples.sample_lib " acme_1 "
           WebSamples.sample_crawler []).
  - reflexivity.
  - vm_compute. reflexivity.
Defined.

Lemma processed_record_names_the_answering_url_witness :
  let d := [ ("company_status", VStr "closed");
             ("raw_source_url",
              VStr "https://app.dealroom.co/companies/acme_1") ] in
  let log' := [ Requested "https://app.dealroom.co/companies/acme_1" 10;
                Slept 500%Z;
                Requested "https://app.dealroom.co/companies/acme_1" 10;
                Slept 500%Z ] in
  @process_single_company _ WebSamples.sample_web Samples.sample_lib
    " acme_1 " WebSamples.sample_crawler [] = (Some d, log') /\
  exists url k status_code html final_url,
    @build_profile_url _ WebSamples.sample_web WebSamples.sample_crawler
      (PyStr.strip " acme_1 ") = Some url /\
    @answer_at _ WebSamples.sample_web WebSamples.sample_crawler url [] k
      = Response status_code html final_url /\
    dict_lookup "raw_source_url" d = Some (VStr final_url).
Proof.
  split; [vm_compute; reflexivity|].
  eapply (@processed_record_names_the_answering_url _ WebSamples.sample_web
            Samples.sample_lib " acme_1 " WebSamples.sample_crawler []).
  vm_compute. reflexivity.
Defined.

Lemma more_verbosity_never_logs_less_witness :
  (0 <= 2)%Z /\
  (level_number (setup_logging 2) <= level_number (setup_logging 0))%Z.
Proof.
  split; [lia|]. apply (more_verbosity_never_logs_less 0 2). lia.
Defined.

(** The sample crawler on the sample web: the first request is answered
    with a 503, the second with the page; a blank identifier makes no
    request; the requests of a third identifier fail.  The crawler whose
    delay is refused raises after its first request. *)
Example sample_fetch_retries_once :
  @fetch_company_page _ WebSamples.sample_web WebSamples.sample_crawler
    "acme_1" []
  = (Fetched (Some Samples.disclosed_page)
       "https://app.dealroom.co/companies/acme_1",
     [ Requested "https://app.dealroom.co/companies/acme_1" 10; Slept 500%Z;
       Requested "https://app.dealroom.co/companies/acme_1" 10;
       Slept 500%Z ]).
Proof. vm_compute. reflexivity. Qed.

Example sample_fetch_with_a_refused_delay :
  @fetch_company_page _ WebSamples.sample_web WebSamples.hasty_crawler
    "acme_1" []
  = (FetchRaised,
     [ Requested "https://app.dealroom.co/companies/acme_1" 10 ]).
Proof. vm_compute. reflexivity. Qed.

Example sample_sequential_run :
  @main_sequential _ WebSamples.sample_web Samples.sample_lib
    [" acme_1 "; "  "; "acme_2"] WebSamples.sample_crawler [] []
  = ([ [ ("company_status", VStr "closed");
         ("raw_source_url",
          VStr "https://app.dealroom.co/companies/acme_1") ] ],
     [ Requested "https://app.dealroom.co/companies/acme_1" 10; Slept 500%Z;
       Requested "https://app.dealroom.co/companies/acme_1" 10; Slept 500%Z;
       Requested "https://app.dealroom.co/companies/acme_2" 10; Slept 500%Z;
       Requested "https://app.dealroom.co/companies/acme_2" 10;
       Slept 500%Z ]).
Proof. vm_compute. reflexivity. Qed.
